(** * deno-embed: a shallow embedding of the build-time writer, the embedded
    store and the conditional responder.

    Source files modelled here:
    - the build-time CLI ([StaticConverter], [EmbedWriter], [parentChild],
      [compress], [embedDir]); the directory walk of [recursiveReadDir]
      is represented by the list of entries it yields;
    - [embed.ts] ([File], [FileMeta], [Embeds]);
    - [file_server.ts] ([serveFile], [serveDir], [createServeDirResponse]).

    JavaScript strings are modelled as [string] (8-bit code units), a
    [Uint8Array] as [list byte], a [Map] and an object literal used as a
    table as [gmap].  The path model is the POSIX flavour of [@std/path]
    (the host separator is "/", so [toPosix] is the identity).  Library
    and platform functions the repository calls are modelled by what
    they compute ([@std/path], [@std/encoding], [@std/http], [Headers])
    or taken as parameters ([Platform]).  A request is its URL and its
    headers; its body, which the 404 paths of [serveFile] cancel, is not
    modelled. *)

From Stdlib Require Import ZArith NArith Ascii String List Lia Bool.
From Stdlib Require Import Strings.Byte.
From Stdlib Require Import DecimalString Decimal DecimalNat.
From stdpp Require Import base option list sorting gmap strings.

Local Open Scope Z_scope.

(** ** JavaScript string primitives *)

Module Str.

Definition is_slash (c : ascii) : bool := Ascii.eqb c "/".

Fixpoint startsWith (p s : string) : bool :=
  match p, s with
  | EmptyString, _ => true
  | String a p', String b s' => Ascii.eqb a b && startsWith p' s'
  | String _ _, EmptyString => false
  end.

Fixpoint drop (n : nat) (s : string) : string :=
  match n, s with
  | O, _ => s
  | S n', String _ s' => drop n' s'
  | S _, EmptyString => EmptyString
  end.

Fixpoint last_char (s : string) : option ascii :=
  match s with
  | EmptyString => None
  | String c EmptyString => Some c
  | String _ s' => last_char s'
  end.

Definition endsWith_slash (s : string) : bool :=
  match last_char s with Some c => is_slash c | None => false end.

Definition first_is_slash (s : string) : bool :=
  match s with String c _ => is_slash c | EmptyString => false end.

(** [s.split("/")] *)
Fixpoint split_slash (s : string) : list string :=
  match s with
  | EmptyString => [EmptyString]
  | String c s' =>
      if is_slash c then EmptyString :: split_slash s'
      else match split_slash s' with
           | x :: r => String c x :: r
           | [] => [String c EmptyString]
           end
  end.

(** [s.split(",")] *)
Fixpoint split_comma (s : string) : list string :=
  match s with
  | EmptyString => [EmptyString]
  | String c s' =>
      if Ascii.eqb c "," then EmptyString :: split_comma s'
      else match split_comma s' with
           | x :: r => String c x :: r
           | [] => [String c EmptyString]
           end
  end.

(** The characters [\s] matches, among the 8-bit code units. *)
Definition is_space (c : ascii) : bool :=
  match N_of_ascii c with
  | 9%N | 10%N | 11%N | 12%N | 13%N | 32%N | 160%N => true
  | _ => false
  end.

Fixpoint trim_start (s : string) : string :=
  match s with
  | EmptyString => EmptyString
  | String c s' => if is_space c then trim_start s' else s
  end.

Fixpoint trim_end (s : string) : string :=
  match s with
  | EmptyString => EmptyString
  | String c s' =>
      match trim_end s' with
      | EmptyString => if is_space c then EmptyString else String c EmptyString
      | r => String c r
      end
  end.

Fixpoint endsWith_char (c : ascii) (s : string) : bool :=
  match s with
  | EmptyString => false
  | String d EmptyString => Ascii.eqb c d
  | String _ s' => endsWith_char c s'
  end.

(** [parts.join(sep)] *)
Definition join (sep : string) (l : list string) : string := String.concat sep l.

(** [parts.join("/")] *)
Definition join_slash (l : list string) : string := join "/" l.

Fixpoint no_slash (s : string) : bool :=
  match s with
  | EmptyString => true
  | String c s' => negb (is_slash c) && no_slash s'
  end.

(** [s.replaceAll(/[ ]+/g, "_")]: every maximal run of spaces becomes one
    underscore.  A space that is followed by another space emits nothing;
    the last space of a run emits the underscore. *)
Fixpoint replace_space_runs (s : string) : string :=
  match s with
  | EmptyString => EmptyString
  | String c s' =>
      if Ascii.eqb c " " then
        match s' with
        | String c' _ =>
            if Ascii.eqb c' " " then replace_space_runs s'
            else String "_" (replace_space_runs s')
        | EmptyString => String "_" EmptyString
        end
      else String c (replace_space_runs s')
  end.

(** [s.replaceAll(pat, rep)] for a non-empty literal pattern: occurrences
    are found left to right and do not overlap.  The fuel is the length of
    the subject, which the scan never exceeds. *)
Fixpoint replaceAll_go (fuel : nat) (pat rep s : string) : string :=
  match fuel with
  | O => s
  | S fuel' =>
      match s with
      | EmptyString => EmptyString
      | String c s' =>
          if startsWith pat s
          then rep +:+ replaceAll_go fuel' pat rep (drop (String.length pat) s)
          else String c (replaceAll_go fuel' pat rep s')
      end
  end.

Definition replaceAll (pat rep s : string) : string :=
  replaceAll_go (String.length s) pat rep s.

(** [s.replace(pat, rep)] for a literal pattern: the first occurrence only. *)
Fixpoint replace_first (pat rep s : string) : string :=
  if startsWith pat s then rep +:+ drop (String.length pat) s
  else match s with
       | EmptyString => EmptyString
       | String c s' => String c (replace_first pat rep s')
       end.

(** JavaScript truthiness of a string. *)
Definition truthy (s : string) : bool :=
  match s with EmptyString => false | _ => true end.

Definition opt_truthy (o : option string) : bool :=
  match o with Some s => truthy s | None => false end.

End Str.

(** ** The POSIX functions of [@std/path]

    The library is not part of the repository; its functions are modelled
    by what they compute on the "/"-separated segments of a path. *)

Module Path.

Definition isAbsolute (p : string) : bool := Str.first_is_slash p.

Definition is_empty (s : string) : bool := negb (Str.truthy s).

Definition is_dot (s : string) : bool := String.eqb s ".".

Definition is_dotdot (s : string) : bool := String.eqb s "..".

(** [normalizeString]: empty and "." segments vanish, ".." removes the
    segment before it; at the top it is kept when [allowAboveRoot] and
    dropped otherwise.  [stack] holds the kept segments, last one first. *)
Fixpoint normalize_segments (allowAboveRoot : bool) (stack segs : list string)
  : list string :=
  match segs with
  | [] => rev stack
  | s :: rest =>
      if is_empty s || is_dot s then normalize_segments allowAboveRoot stack rest
      else if is_dotdot s then
        match stack with
        | top :: below =>
            if is_dotdot top
            then normalize_segments allowAboveRoot
                   (if allowAboveRoot then s :: stack else stack) rest
            else normalize_segments allowAboveRoot below rest
        | [] =>
            normalize_segments allowAboveRoot
              (if allowAboveRoot then [s] else []) rest
        end
      else normalize_segments allowAboveRoot (s :: stack) rest
  end.

Definition normalizeString (path : string) (allowAboveRoot : bool) : string :=
  Str.join_slash (normalize_segments allowAboveRoot [] (Str.split_slash path)).

Definition normalize (path : string) : string :=
  if is_empty path then "."
  else
    let isAbs := isAbsolute path in
    let trailingSeparator := Str.endsWith_slash path in
    let path1 := normalizeString path (negb isAbs) in
    let path2 := if is_empty path1 && negb isAbs then "." else path1 in
    let path3 := if Str.truthy path2 && trailingSeparator then path2 +:+ "/" else path2 in
    if isAbs then "/" +:+ path3 else path3.

(** The right-to-left loop of [resolve]: the accumulated path and whether
    an absolute argument has been reached. *)
Fixpoint resolve_loop (paths : list string) : string * bool :=
  match paths with
  | [] => (EmptyString, false)
  | p :: rest =>
      let '(acc, abs) := resolve_loop rest in
      if abs then (acc, true)
      else if is_empty p then (acc, false)
      else (p +:+ "/" +:+ acc, isAbsolute p)
  end.

(** [resolve(...paths)]; [cwd] is [Deno.cwd()], consulted when no argument
    is absolute. *)
Definition resolve (cwd : string) (paths : list string) : string :=
  let '(resolvedPath, resolvedAbsolute) := resolve_loop (cwd :: paths) in
  let r := normalizeString resolvedPath (negb resolvedAbsolute) in
  if resolvedAbsolute then
    (if Str.truthy r then "/" +:+ r else "/")
  else if Str.truthy r then r else ".".

(** [join(...paths)] *)
Definition join (paths : list string) : string :=
  let joined := Str.join_slash (filter (λ p, Str.truthy p = true) paths) in
  if is_empty joined then "." else normalize joined.

Fixpoint strip_trailing_empty (segs : list string) : list string :=
  match segs with
  | [] => []
  | s :: rest =>
      match strip_trailing_empty rest with
      | [] => if is_empty s then [] else [s]
      | rest' => s :: rest'
      end
  end.

(** [dirname(path)] *)
Definition dirname (path : string) : string :=
  match strip_trailing_empty (Str.split_slash path) with
  | [] => if is_empty path then "." else "/"
  | segs =>
      let front := removelast segs in
      match strip_trailing_empty front with
      | [] => match front with [] => "." | _ => "/" end
      | front' => Str.join_slash front'
      end
  end.

Record ParsedPath := { root : string; dir : string; base : string }.

(** [parse(path)], restricted to the fields the writer reads. *)
Definition parse (path : string) : ParsedPath :=
  let isAbs := isAbsolute path in
  let r := if isAbs then "/" else EmptyString in
  match strip_trailing_empty (Str.split_slash path) with
  | [] => {| root := r;
             dir := r;
             base := if is_empty path then EmptyString else "/" |}
  | segs =>
      let front := removelast segs in
      {| root := r;
         dir := match front with
                | [] => EmptyString
                | _ => match strip_trailing_empty front with
                       | [] => "/"
                       | front' => Str.join_slash front'
                       end
                end;
         base := List.last segs EmptyString |}
  end.

(** The components of an absolute, resolved path. *)
Definition components (p : string) : list string :=
  filter (λ s, Str.truthy s = true) (Str.split_slash p).

Fixpoint strip_common {A} `{EqDecision A} (l1 l2 : list A) : list A * list A :=
  match l1, l2 with
  | a :: l1', b :: l2' =>
      if decide (a = b) then strip_common l1' l2' else (l1, l2)
  | _, _ => (l1, l2)
  end.

(** [relative(from, to)] *)
Definition relative (cwd from to : string) : string :=
  if String.eqb from to then EmptyString
  else
    let from' := resolve cwd [from] in
    let to' := resolve cwd [to] in
    if String.eqb from' to' then EmptyString
    else
      let '(up, down) := strip_common (components from') (components to') in
      Str.join_slash (map (λ _, "..") up ++ down).

End Path.

(** ** [@std/encoding/base64] and the platform's [atob] *)

Module Base64.

Definition base64abc : string :=
  "ABCDEFGHIJKLMNOPQRSTUVWXYZabcdefghijklmnopqrstuvwxyz0123456789+/".

(** [base64abc[i]]; every index the encoder computes is below 64. *)
Definition abc (i : N) : ascii :=
  match String.get (N.to_nat i) base64abc with
  | Some c => c
  | None => "?"%char
  end.

Definition u8 (b : byte) : N := Byte.to_N b.

(** [encodeBase64(data)]: three octets become four characters; one or two
    trailing octets are padded with "=". *)
Fixpoint encodeBase64 (data : list byte) : string :=
  match data with
  | [] => EmptyString
  | [a] =>
      String (abc (N.shiftr (u8 a) 2))
        (String (abc (N.shiftl (N.land (u8 a) 3) 4)) "==")
  | [a; b] =>
      String (abc (N.shiftr (u8 a) 2))
        (String (abc (N.lor (N.shiftl (N.land (u8 a) 3) 4) (N.shiftr (u8 b) 4)))
           (String (abc (N.shiftl (N.land (u8 b) 15) 2)) "="))
  | a :: b :: c :: rest =>
      String (abc (N.shiftr (u8 a) 2))
        (String (abc (N.lor (N.shiftl (N.land (u8 a) 3) 4) (N.shiftr (u8 b) 4)))
           (String (abc (N.lor (N.shiftl (N.land (u8 b) 15) 2) (N.shiftr (u8 c) 6)))
              (String (abc (N.land (u8 c) 63)) (encodeBase64 rest))))
  end.

(** ASCII whitespace, as the forgiving decoder strips it. *)
Definition is_ascii_whitespace (c : ascii) : bool :=
  match N_of_ascii c with
  | 9%N | 10%N | 12%N | 13%N | 32%N => true
  | _ => false
  end.

Fixpoint remove_whitespace (s : string) : string :=
  match s with
  | EmptyString => EmptyString
  | String c s' =>
      if is_ascii_whitespace c then remove_whitespace s'
      else String c (remove_whitespace s')
  end.

Definition is_pad (c : ascii) : bool := Ascii.eqb c "=".

(** Remove one or two "=" from the end. *)
Fixpoint strip_padding (s : string) : string :=
  match s with
  | EmptyString => EmptyString
  | String c s' =>
      if is_pad c && (String.eqb s' "" || String.eqb s' "=") then EmptyString
      else String c (strip_padding s')
  end.

Fixpoint index_of (c : ascii) (s : string) (i : N) : option N :=
  match s with
  | EmptyString => None
  | String d s' => if Ascii.eqb c d then Some i else index_of c s' (N.succ i)
  end.

(** The six-bit value of a character of the alphabet. *)
Definition value_of (c : ascii) : option N := index_of c base64abc 0%N.

Fixpoint sextets (s : string) : option (list N) :=
  match s with
  | EmptyString => Some []
  | String c s' =>
      match value_of c, sextets s' with
      | Some v, Some l => Some (v :: l)
      | _, _ => None
      end
  end.

Definition to_u8 (n : N) : byte :=
  match Byte.of_N (n mod 256)%N with Some b => b | None => x00 end.

(** Four sextets give three octets; a tail of three gives two and a tail
    of two gives one, the spare bits being discarded. *)
Fixpoint octets (l : list N) : list byte :=
  match l with
  | a :: b :: c :: d :: rest =>
      to_u8 (N.lor (N.shiftl a 2) (N.shiftr b 4))
      :: to_u8 (N.lor (N.shiftl (N.land b 15) 4) (N.shiftr c 2))
      :: to_u8 (N.lor (N.shiftl (N.land c 3) 6) d)
      :: octets rest
  | [a; b; c] =>
      [to_u8 (N.lor (N.shiftl a 2) (N.shiftr b 4));
       to_u8 (N.lor (N.shiftl (N.land b 15) 4) (N.shiftr c 2))]
  | [a; b] => [to_u8 (N.lor (N.shiftl a 2) (N.shiftr b 4))]
  | _ => []
  end.

(** [atob] followed by the [charCodeAt] loop of [decodeBase64]: the
    forgiving base64 decoder.  [None] is the [InvalidCharacterError]. *)
Definition decodeBase64 (b64 : string) : option (list byte) :=
  let data := remove_whitespace b64 in
  let data :=
    if (String.length data mod 4 =? 0)%nat then strip_padding data else data in
  if (String.length data mod 4 =? 1)%nat then None
  else option_map octets (sextets data).

End Base64.

(** ** Exceptions and effects *)

Inductive js_error :=
| Error (message : string)
| TypeError
| URIError
| InvalidCharacterError
| Deno_NotFound
| Deno_AlreadyExists
| Deno_NotADirectory
| Deno_IsADirectory
| OutOfFuel.

Inductive result (A : Type) :=
| Ok (a : A)
| Throw (e : js_error).

Arguments Ok {A} a.
Arguments Throw {A} e.

(** Sequencing of pure steps that may throw. *)
Definition and_then {A B} (r : result A) (k : A → result B) : result B :=
  match r with
  | Ok a => k a
  | Throw e => Throw e
  end.

(** A computation over a mutable store [S] that returns or throws; the
    store survives a throw, as it does in JavaScript. *)
Definition Eff (S A : Type) : Type := S → result A * S.

Definition ret {S A} (a : A) : Eff S A := λ s, (Ok a, s).

Definition throw {S A} (e : js_error) : Eff S A := λ s, (Throw e, s).

Definition bind {S A B} (m : Eff S A) (k : A → Eff S B) : Eff S B :=
  λ s, match m s with
       | (Ok a, s') => k a s'
       | (Throw e, s') => (Throw e, s')
       end.

Definition lift {S A} (r : result A) : Eff S A := λ s, (r, s).

Definition get_state {S} : Eff S S := λ s, (Ok s, s).

Definition modify {S} (f : S → S) : Eff S unit := λ s, (Ok tt, f s).

(** [try { m } catch (error) { h(error) }] *)
Definition try_catch {S A} (m : Eff S A) (h : js_error → Eff S A) : Eff S A :=
  λ s, match m s with
       | (Ok a, s') => (Ok a, s')
       | (Throw e, s') => h e s'
       end.

Notation "'let*' x ':=' m 'in' k" := (bind m (λ x, k))
  (at level 10, x pattern, m at level 100, k at level 200).

(** ** Values shared by the writer and the runtime *)

Definition nl : string := String "010" EmptyString.
Definition dq : string := String "034" EmptyString.

(** [`${n}`] for a non-negative integer. *)
Definition decimal (n : nat) : string := NilEmpty.string_of_uint (Nat.to_uint n).

(** [Date.prototype.getTime()]: milliseconds, or [None] for NaN. *)
Definition jstime := option Z.

Definition time_lt (a b : jstime) : bool :=
  match a, b with
  | Some x, Some y => x <? y
  | _, _ => false
  end.

Definition time_add (a : jstime) (ms : Z) : jstime := option_map (λ x, x + ms) a.

(** [FileMeta] of [embed.ts], as a JavaScript object: a property that the
    object does not carry reads as [undefined], here [None]. *)
Record FileMeta := {
  size : nat;
  encoded : string;
  compression : option string;
  eTag : option string;
  atime : option jstime;
  mtime : option jstime;
}.

(** ** The platform

    What the runtime and the operating system provide and the repository
    only calls. *)
Record Platform := {
  (** [CompressionStream(format)] applied to a whole buffer. *)
  compress_stream : string → list byte → list byte;
  (** [DecompressionStream(format)]; [None] when the stream errors. *)
  decompress_stream : string → list byte → option (list byte);
  (** [Deno.cwd()] *)
  cwd : string;
  (** [manifest.version] of deno.json *)
  manifest_version : string;
  (** [decodeURIComponent]; [None] is the [URIError]. *)
  decodeURIComponent : string → option string;
  (** [contentType] of [@std/media-types] *)
  contentType : string → option string;
  (** [extname] of [@std/path] *)
  extname : string → string;
  (** [Date.prototype.toUTCString] *)
  toUTCString : jstime → string;
  (** [new Date(text).getTime()] *)
  Date_parse : string → jstime;
  (** [TextDecoder.prototype.decode] *)
  TextDecoder_decode : list byte → string;
  (** What the [pathname] setter of [URL] stores for a given string. *)
  URL_pathname_setter : string → string;
  (** Calling a member inherited from [Object.prototype] with no receiver
      and no argument: it throws, or returns a value that has no
      [default] property. *)
  prototype_call : string → result unit;
}.

(** ** Build time: [EmbedWriter] and [StaticConverter] *)

(** [FilePaths] *)
Record FilePaths := {
  original : string;
  relative : string;
  import : string;
  onDisk : string;
}.

Inductive fs_node :=
| FsFile (content : string)
| FsDir.

(** The writer's table [#files], keyed by [onDisk], and the file system,
    keyed by absolute normalized path. *)
Record writer_state := {
  files : gmap string FilePaths;
  disk : gmap string fs_node;
}.

Definition set_files (f : gmap string FilePaths) (s : writer_state) : writer_state :=
  {| files := f; disk := disk s |}.

Definition set_disk (d : gmap string fs_node) (s : writer_state) : writer_state :=
  {| files := files s; disk := d |}.

(** [Deno.mkdir(path, { recursive: true })] on the modelled disk. *)
Fixpoint mkdir_recursive (fuel : nat) (path : string) (d : gmap string fs_node)
  : result (gmap string fs_node) :=
  match d !! path with
  | Some FsDir => Ok d
  | Some (FsFile _) => Throw Deno_AlreadyExists
  | None =>
      let parent := Path.dirname path in
      if String.eqb parent path then Ok (<[path := FsDir]> d)
      else match fuel with
           | O => Throw OutOfFuel
           | S fuel' =>
               match mkdir_recursive fuel' parent d with
               | Ok d' => Ok (<[path := FsDir]> d')
               | Throw Deno_AlreadyExists => Throw Deno_NotADirectory
               | Throw e => Throw e
               end
           end
  end.

Definition Deno_mkdir (path : string) : Eff writer_state unit :=
  λ s, match mkdir_recursive (String.length path) path (disk s) with
       | Ok d => (Ok tt, set_disk d s)
       | Throw e => (Throw e, s)
       end.

(** [Deno.writeTextFile(path, data)] *)
Definition Deno_writeTextFile (path data : string) : Eff writer_state unit :=
  λ s, match disk s !! path with
       | Some FsDir => (Throw Deno_IsADirectory, s)
       | _ =>
           match disk s !! Path.dirname path with
           | Some FsDir => (Ok tt, set_disk (<[path := FsFile data]> (disk s)) s)
           | Some (FsFile _) => (Throw Deno_NotADirectory, s)
           | None => (Throw Deno_NotFound, s)
           end
       end.

(** A path is inside [dir] when it is [dir] or lies below it. *)
Definition inside (dir path : string) : bool :=
  String.eqb path dir
  || Str.startsWith (if String.eqb dir "/" then dir else dir +:+ "/") path.

(** [Deno.remove(dir, { recursive: true })] *)
Definition Deno_remove (dir : string) : Eff writer_state unit :=
  modify (λ s, set_disk (filter (λ kv, inside dir kv.1 = false) (disk s)) s).

(** [isEmptyDir] *)
Definition isEmptyDir (dir : string) : Eff writer_state bool :=
  λ s, match disk s !! dir with
       | Some FsDir =>
           (Ok (bool_decide
                  (filter (λ kv, inside dir kv.1 = true ∧ kv.1 ≠ dir) (disk s) = ∅)), s)
       | Some (FsFile _) => (Throw Deno_NotADirectory, s)
       | None => (Throw Deno_NotFound, s)
       end.

(** The error of [Deno.stat] for a path that is not on the disk.  The
    nearest ancestor that is on the disk decides: NotADirectory when it
    is a regular file, NotFound otherwise. *)
Fixpoint stat_error (fuel : nat) (path : string) (d : gmap string fs_node)
  : js_error :=
  let parent := Path.dirname path in
  if String.eqb parent path then Deno_NotFound
  else match d !! parent with
       | Some (FsFile _) => Deno_NotADirectory
       | Some FsDir => Deno_NotFound
       | None =>
           match fuel with
           | O => OutOfFuel
           | S fuel' => stat_error fuel' parent d
           end
       end.

(** [Deno.stat(path)] *)
Definition Deno_stat (path : string) (d : gmap string fs_node) : result fs_node :=
  match d !! path with
  | Some node => Ok node
  | None => Throw (stat_error (String.length path) path d)
  end.

(** [exists] of [@std/fs]: [false] when [Deno.stat] throws NotFound; any
    other error is thrown again.  The disk has no permissions, so the
    PermissionDenied branch is never taken. *)
Definition exists_path (path : string) : Eff writer_state bool :=
  λ s, match Deno_stat path (disk s) with
       | Ok _ => (Ok true, s)
       | Throw Deno_NotFound => (Ok false, s)
       | Throw e => (Throw e, s)
       end.

Definition is_line_terminator (c : ascii) : bool :=
  Ascii.eqb c "010" || Ascii.eqb c "013".

(** [n] characters matched by the regular expression [.]: none of them is
    a line terminator.  Returns the match and what follows it. *)
Fixpoint match_dots (n : nat) (s : string) : option (string * string) :=
  match n with
  | O => Some (EmptyString, s)
  | S n' =>
      match s with
      | EmptyString => None
      | String c s' =>
          if is_line_terminator c then None
          else match match_dots n' s' with
               | Some (m, rest) => Some (String c m, rest)
               | None => None
               end
      end
  end.

(** [s.replaceAll(/.{120}/g, (it) => it + "\n")] *)
Fixpoint hard_wrap_go (fuel : nat) (s : string) : string :=
  match fuel with
  | O => s
  | S fuel' =>
      match match_dots 120 s with
      | Some (m, rest) => m +:+ nl +:+ hard_wrap_go fuel' rest
      | None =>
          match s with
          | EmptyString => EmptyString
          | String c s' => String c (hard_wrap_go fuel' s')
          end
      end
  end.

Definition hard_wrap (s : string) : string := hard_wrap_go (String.length s) s.

(** The literals the writer prints, and the object literal of a generated
    module as a list of properties in source order. *)
Inductive js_literal :=
| LitNumber (n : nat)
| LitString (s : string)
| LitTemplate (s : string).

Abbreviation object_literal := (list (string * js_literal)).

Definition print_literal (l : js_literal) : string :=
  match l with
  | LitNumber n => decimal n
  | LitString s => dq +:+ s +:+ dq
  | LitTemplate s => "`" +:+ s +:+ "`"
  end.

Definition print_property (p : string * js_literal) : string :=
  " " +:+ p.1 +:+ ": " +:+ print_literal p.2 +:+ ",".

Definition print_module (o : object_literal) : list string :=
  ["export default {"] ++ map print_property o ++ ["}"].

Fixpoint property (o : object_literal) (k : string) : option js_literal :=
  match o with
  | [] => None
  | (k', v) :: o' => if String.eqb k k' then Some v else property o' k
  end.

Fixpoint all_chars (f : ascii → bool) (s : string) : bool :=
  match s with
  | EmptyString => true
  | String c s' => f c && all_chars f s'
  end.

(** Inside double quotes: the closing quote, the start of an escape, and
    the line terminators. *)
Definition is_string_special (c : ascii) : bool :=
  Ascii.eqb c "034" || Ascii.eqb c "\" || is_line_terminator c.

(** Inside back quotes: the closing quote, the start of an escape, the
    start of a substitution, and the carriage return, which evaluation
    turns into a line feed. *)
Definition is_template_special (c : ascii) : bool :=
  Ascii.eqb c "`" || Ascii.eqb c "\" || Ascii.eqb c "$" || Ascii.eqb c "013".

(** The string a literal evaluates to.  The literals the writer prints
    hold none of the characters above, and such a literal evaluates to
    the text between its quotes; a literal that holds one is not read. *)
Definition literal_text (l : js_literal) : option string :=
  match l with
  | LitString s =>
      if all_chars (λ c, negb (is_string_special c)) s then Some s else None
  | LitTemplate s =>
      if all_chars (λ c, negb (is_template_special c)) s then Some s else None
  | LitNumber _ => None
  end.

(** The [FileMeta] that [export default { ... }] evaluates to: a property
    the literal does not list is [undefined]. *)
Definition module_default (o : object_literal) : option FileMeta :=
  match property o "size", property o "encoded" ≫= literal_text with
  | Some (LitNumber n), Some e =>
      Some {| size := n;
              encoded := e;
              compression := property o "compression" ≫= literal_text;
              eTag := property o "eTag" ≫= literal_text;
              atime := None;
              mtime := None |}
  | _, _ => None
  end.

Definition minCompressionGainBytes : Z := 200.

(** [parentChild]'s loop [while (child.length > parent.length)
    child = path.dirname(child)]; [None] when the fuel runs out. *)
Fixpoint climb (fuel : nat) (parent child : string) : option string :=
  if (String.length parent <? String.length child)%nat then
    match fuel with
    | O => None
    | S fuel' => climb fuel' parent (Path.dirname child)
    end
  else Some child.

Definition parentChild (parent child : string) : result bool :=
  let parent := Path.normalize parent in
  let child := Path.normalize child in
  if negb (Path.isAbsolute parent) then Throw (Error "Parent path must be absolute")
  else if negb (Path.isAbsolute child) then Throw (Error "Child path must be absolute")
  else if (String.length child <=? String.length parent)%nat then Ok false
  else match climb (String.length child) parent child with
       | Some child' => Ok (String.eqb child' parent)
       | None => Throw OutOfFuel
       end.

(** The constructor of [EmbedWriter]; the writer is its [destDir]. *)
Definition EmbedWriter_new (destDir : string) : result string :=
  if negb (Path.isAbsolute destDir)
  then Throw (Error ("destDir must be absolute: " +:+ destDir))
  else Ok destDir.

(** Path containment, read off the components: [path] is absolute, has
    no "." or ".." component, and extends the components of [dir] by at
    least one. *)
Fixpoint proper_prefix (l1 l2 : list string) : bool :=
  match l1, l2 with
  | [], _ :: _ => true
  | a :: l1', b :: l2' => String.eqb a b && proper_prefix l1' l2'
  | _, _ => false
  end.

Definition strict_descendant (dir path : string) : bool :=
  Path.isAbsolute path
  && forallb (λ s, negb (Path.is_dot s || Path.is_dotdot s)) (Path.components path)
  && proper_prefix (Path.components dir) (Path.components path).

(** The host separator is "/". *)
Definition toPosix (p : string) : string := p.

Section Writer.

Context (P : Platform).

(** [compress(data, compression)] *)
Definition compress (data : list byte) (compression : string) : list byte :=
  compress_stream P compression data.

Definition collision_message (onDisk existing_original original : string) : string :=
  Str.join nl
    ["Two files normalize to the same on-disk location: " +:+ dq +:+ onDisk +:+ dq +:+ ":";
     "1) " +:+ dq +:+ existing_original +:+ dq;
     "2) " +:+ dq +:+ original +:+ dq].

(** The paths [#addFile] computes once the guard has passed. *)
Definition file_paths (destDir filePath absPath : string) : FilePaths :=
  let relative := toPosix (Path.relative (cwd P) destDir absPath) in
  let normalized := Str.replace_space_runs relative in
  let normalized := Str.replaceAll ".d.ts" ".d_ts" normalized in
  let parsed := Path.parse normalized in
  let normalized :=
    Path.join [Path.dir parsed; "_" +:+ Path.base parsed +:+ ".ts"] in
  let onDisk := Path.join [destDir; normalized] in
  let importPath := "./" +:+ normalized in
  {| original := filePath;
     relative := relative;
     import := importPath;
     onDisk := onDisk |}.

(** [EmbedWriter.#addFile] *)
Definition addFile (destDir filePath : string) : Eff writer_state FilePaths :=
  let absPath := Path.resolve (cwd P) [destDir; filePath] in
  let* within := lift (parentChild destDir absPath) in
  if negb within then
    throw (Error (absPath +:+ " must be within " +:+ destDir))
  else
    let paths := file_paths destDir filePath absPath in
    let* s := get_state in
    match files s !! onDisk paths with
    | Some existing =>
        throw (Error (collision_message (onDisk paths) (original existing)
                        (original paths)))
    | None =>
        let* _ := modify (set_files (<[onDisk paths := paths]> (files s))) in
        ret paths
    end.

Definition shouldCompress (data : list byte) : bool :=
  let compressed := compress data "gzip" in
  let gain := Z.of_nat (length data) - Z.of_nat (length compressed) in
  gain >=? minCompressionGainBytes.

(** The value of [encoded] when [writeFile] prints it. *)
Definition wrapped_encoding (data : list byte) : string :=
  let compressed := compress data "gzip" in
  let encoded :=
    if shouldCompress data then Base64.encodeBase64 compressed
    else Base64.encodeBase64 data in
  hard_wrap encoded.

(** [outLines] of [writeFile] *)
Definition outLines (data : list byte) : list string :=
  let compression := "gzip" in
  let encoded := wrapped_encoding data in
  let outLines :=
    ["export default {";
     " size: " +:+ decimal (length data) +:+ ","] in
  let outLines :=
    if shouldCompress data
    then outLines ++ [" compression: " +:+ dq +:+ compression +:+ dq +:+ ","]
    else outLines in
  let outLines := outLines ++ [" encoded: `" +:+ nl +:+ encoded +:+ "`,"] in
  outLines ++ ["}"].

(** The object literal that [outLines] spells out. *)
Definition emitted_literal (data : list byte) : object_literal :=
  [("size", LitNumber (length data))]
  ++ (if shouldCompress data then [("compression", LitString "gzip")] else [])
  ++ [("encoded", LitTemplate (nl +:+ wrapped_encoding data))].

(** [EmbedWriter.writeFile] *)
Definition writeFile (destDir filePath : string) (data : list byte)
  : Eff writer_state unit :=
  let* paths := addFile destDir filePath in
  let outPath := onDisk paths in
  let outData := Str.join nl (outLines data) in
  let* _ := Deno_mkdir (Path.dirname outPath) in
  Deno_writeTextFile outPath outData.

(** [EmbedWriter.clean] *)
Definition clean (destDir : string) : Eff writer_state unit :=
  let* _ := modify (set_files ∅) in
  let* present := exists_path destDir in
  let* nothing_to_do :=
    (if negb present then ret true else isEmptyDir destDir) in
  if nothing_to_do then ret tt else Deno_remove destDir.

(** [EmbedWriter.writeDir] *)
Definition writeDir (destDir : string) : Eff writer_state unit :=
  let* s := get_state in
  let sorted :=
    merge_sort (λ a b, String.le (relative a) (relative b))
      (map snd (map_to_list (files s))) in
  let body :=
    ["import { FileServer, Embeds } from " +:+ dq +:+ "jsr:@smallweb/embed@"
       +:+ manifest_version P +:+ "/file-server" +:+ dq +:+ ";";
     "";
     "const embeds = new Embeds({"]
    ++ map (λ file, "  " +:+ dq +:+ relative file +:+ dq +:+ ": () => import("
                      +:+ dq +:+ import file +:+ dq +:+ "),") sorted
    ++ ["});";
        "";
        "const server = new FileServer(embeds);";
        "export const serveDir = server.serveDir";
        "export default embeds;"] in
  let* _ := Deno_writeTextFile (Path.join [destDir; "dir.ts"]) (Str.join nl body) in
  Deno_writeTextFile (Path.join [destDir; ".gitattributes"])
    "* linguist-generated=true".

(** The loop of [StaticConverter.convert] over the entries the directory
    walk yields, each with the bytes [Deno.readFile] returns for it. *)
Fixpoint convert_files (destDir : string) (entries : list (string * list byte))
  : Eff writer_state unit :=
  match entries with
  | [] => ret tt
  | (relPath, data) :: rest =>
      let* _ := writeFile destDir relPath data in
      convert_files destDir rest
  end.

(** [StaticConverter.convert] *)
Definition convert (destDir : string) (entries : list (string * list byte))
  : Eff writer_state unit :=
  let* _ := clean destDir in
  let* _ := Deno_mkdir destDir in
  let* _ := convert_files destDir entries in
  writeDir destDir.

(** [embedDir], after the walk of [src]: [destDir] is resolved against
    the working directory, then cleaned and converted. *)
Definition embedDir (dst : string) (entries : list (string * list byte))
  : Eff writer_state unit :=
  let baseDir := cwd P in
  let destDir := Path.resolve (cwd P) [baseDir; dst] in
  let* destDir := lift (EmbedWriter_new destDir) in
  let* _ := clean destDir in
  convert destDir entries.

End Writer.

(** ** Run time: [File] and [Embeds] of [embed.ts] *)

(** The decoding work the store performs, in the order it happens. *)
Inductive event :=
| EvDecodeBase64
| EvDecompress (format : string)
| EvTextDecode.

(** A run-time computation: it appends to the log of decoding work. *)
Definition M (A : Type) : Type := Eff (list event) A.

Definition tick (e : event) : M unit := modify (λ log, log ++ [e]).

(** [decodeBase64(text)] *)
Definition decodeBase64 (text : string) : M (list byte) :=
  let* _ := tick EvDecodeBase64 in
  match Base64.decodeBase64 text with
  | Some bytes => ret bytes
  | None => throw InvalidCharacterError
  end.

(** An instance of [File]: [size], [#contents] and [#cachedText]. *)
Record File := {
  File_size : nat;
  contents_bytes : list byte;
  contents_compression : option string;
  cachedText : option string;
}.

(** [new File(meta)] *)
Definition File_new (meta : FileMeta) : M File :=
  let* bytes := decodeBase64 (encoded meta) in
  ret {| File_size := size meta;
         contents_bytes := bytes;
         contents_compression := compression meta;
         cachedText := None |}.

(** The own properties of the object passed to [new Embeds({...})]: each
    importer with the [FileMeta] its module exports by default. *)
Abbreviation EmbedsDef := (gmap string FileMeta).

(** The names every object literal inherits from [Object.prototype]. *)
Definition Object_prototype_names : list string :=
  ["constructor"; "__defineGetter__"; "__defineSetter__"; "hasOwnProperty";
   "__lookupGetter__"; "__lookupSetter__"; "isPrototypeOf";
   "propertyIsEnumerable"; "toString"; "valueOf"; "__proto__";
   "toLocaleString"].

(** What [this.#embeds[filePath]] reads. *)
Inductive importer :=
| Own (meta : FileMeta)
| Inherited (name : string)
| Undefined.

Definition embeds_property (embeds : EmbedsDef) (filePath : string) : importer :=
  match embeds !! filePath with
  | Some meta => Own meta
  | None =>
      if bool_decide (filePath ∈ Object_prototype_names)
      then Inherited filePath
      else Undefined
  end.

Section Runtime.

Context (P : Platform).

(** [decompress(data, compression)] *)
Definition decompress (data : list byte) (compression : string) : M (list byte) :=
  let* _ := tick (EvDecompress compression) in
  match decompress_stream P compression data with
  | Some bytes => ret bytes
  | None => throw TypeError
  end.

(** [File.bytes]: the bytes, and the instance as the call leaves it. *)
Definition File_bytes (this : File) : M (list byte * File) :=
  let bytes := contents_bytes this in
  let compression := contents_compression this in
  if Str.opt_truthy compression then
    let* bytes := decompress bytes (default EmptyString compression) in
    ret (bytes, {| File_size := File_size this;
                   contents_bytes := bytes;
                   contents_compression := None;
                   cachedText := cachedText this |})
  else ret (bytes, this).


(** [(new File(meta)).bytes()] *)
Definition read_back (meta : FileMeta) : M (list byte) :=
  let* file := File_new meta in
  let* (bytes, _) := File_bytes file in
  ret bytes.

(** The content a record stands for: its base64 text decoded, and
    decompressed when the record carries a compression tag. *)
Definition meta_content (meta : FileMeta) : option (list byte) :=
  match Base64.decodeBase64 (encoded meta) with
  | Some stored =>
      if Str.opt_truthy (compression meta)
      then decompress_stream P (default EmptyString (compression meta)) stored
      else Some stored
  | None => None
  end.

(** [await importer()] followed by [.default], for an importer that is
    present. *)
Definition import_default (i : importer) : M (option FileMeta) :=
  match i with
  | Own meta => ret (Some meta)
  | Inherited name =>
      match prototype_call P name with
      | Ok _ => ret None
      | Throw e => throw e
      end
  | Undefined => throw TypeError
  end.

(** [new File(mod.default)]; reading [size] of [undefined] throws. *)
Definition File_of_default (d : option FileMeta) : M File :=
  match d with
  | Some meta => File_new meta
  | None => throw TypeError
  end.

(** [Embeds.list]; the order of the keys is not modelled. *)
Definition Embeds_list (embeds : EmbedsDef) : list string :=
  map fst (map_to_list embeds).

(** [Embeds.load] *)
Definition Embeds_load (embeds : EmbedsDef) (filePath : string) : M File :=
  let importer := embeds_property embeds filePath in
  let* d := import_default importer in
  File_of_default d.

(** [Embeds.stat]; [None] is [null] or [undefined]. *)
Definition Embeds_stat (embeds : EmbedsDef) (filePath : string)
  : M (option FileMeta) :=
  let importer := embeds_property embeds filePath in
  match importer with
  | Undefined => ret None
  | _ => import_default importer
  end.

(** [Embeds.get] *)
Definition Embeds_get (embeds : EmbedsDef) (filePath : string)
  : M (option File) :=
  let importer := embeds_property embeds filePath in
  match importer with
  | Undefined => ret None
  | _ =>
      let* d := import_default importer in
      let* file := File_of_default d in
      ret (Some file)
  end.

End Runtime.

(** ** [File.bytes] around its [await]

    [bytes()] reads [#contents], and for compressed contents awaits the
    decompression it starts; [#contents] is written when the call
    resumes.  A second call made before the first has resumed reads the
    contents the first call read. *)


Section Overlap.

Context (P : Platform).




End Overlap.

(** ** Run time: the responder of [file_server.ts] *)

(** [Headers]: the entries in order; names are lower-case. *)
Abbreviation Headers := (list (string * string)).

Definition Headers_get (h : Headers) (name : string) : option string :=
  match filter (λ kv, kv.1 = name) h with
  | [] => None
  | l => Some (Str.join ", " (map snd l))
  end.

Definition Headers_has (h : Headers) (name : string) : bool :=
  bool_decide (name ∈ map fst h).

Definition Headers_delete (h : Headers) (name : string) : Headers :=
  filter (λ kv, kv.1 ≠ name) h.

(** HTTP white space: tab, line feed, carriage return and space. *)
Definition is_http_whitespace (c : ascii) : bool :=
  match N_of_ascii c with
  | 9%N | 10%N | 13%N | 32%N => true
  | _ => false
  end.

Fixpoint http_trim_start (s : string) : string :=
  match s with
  | EmptyString => EmptyString
  | String c s' => if is_http_whitespace c then http_trim_start s' else s
  end.

Fixpoint http_trim_end (s : string) : string :=
  match s with
  | EmptyString => EmptyString
  | String c s' =>
      match http_trim_end s' with
      | EmptyString => if is_http_whitespace c then EmptyString else String c EmptyString
      | r => String c r
      end
  end.

(** The normalization of a header value: HTTP white space is removed from
    both ends. *)
Definition normalize_header_value (value : string) : string :=
  http_trim_start (http_trim_end value).

(** A normalized value is a header value when it holds no NUL, line feed
    or carriage return. *)
Definition is_header_value (value : string) : bool :=
  all_chars
    (λ c, match N_of_ascii c with 0%N | 10%N | 13%N => false | _ => true end)
    value.

(** The list update of [set]: the first entry of the name takes the value,
    later ones go. *)
Fixpoint Headers_put (h : Headers) (name value : string) : Headers :=
  match h with
  | [] => [(name, value)]
  | (k, v) :: h' =>
      if String.eqb k name then (name, value) :: Headers_delete h' name
      else (k, v) :: Headers_put h' name value
  end.

(** [headers.set(name, value)], for the lower-case names the responder
    writes: the value is normalized, and a value that is not a header
    value is a [TypeError]. *)
Definition Headers_set (h : Headers) (name value : string) : result Headers :=
  let value := normalize_header_value value in
  if is_header_value value then Ok (Headers_put h name value) else Throw TypeError.

(** [headers.append(name, value)], with the same check. *)
Definition Headers_append (h : Headers) (name value : string) : result Headers :=
  let value := normalize_header_value value in
  if is_header_value value then Ok (h ++ [(name, value)]) else Throw TypeError.

Inductive Body :=
| BodyNull
| BodyText (text : string)
| BodyBytes (bytes : list byte).

Record Response := {
  status : Z;
  statusText : string;
  headers : Headers;
  body : Body;
}.

(** [new Response(body, { status, statusText, headers })]: a text body
    brings its content type unless the headers name one. *)
Definition Response_new (body : Body) (status : Z) (statusText : string)
  (headers : Headers) : Response :=
  {| status := status;
     statusText := statusText;
     headers :=
       match body with
       | BodyText _ =>
           if Headers_has headers "content-type" then headers
           else headers ++ [("content-type", "text/plain;charset=UTF-8")]
       | _ => headers
       end;
     body := body |}.

Record URL := {
  origin : string;
  pathname : string;
  search : string;
  hash : string;
}.

Definition href (u : URL) : string :=
  origin u +:+ pathname u +:+ search u +:+ hash u.

(** [Response.redirect(url, status)] *)
Definition Response_redirect (url : URL) (status : Z) : Response :=
  {| status := status;
     statusText := EmptyString;
     headers := [("location", href url)];
     body := BodyNull |}.

(** A request: its URL as [new URL(req.url)] parses it, and its headers. *)
Record Request := {
  url : URL;
  req_headers : Headers;
}.

Module STATUS_CODE.
Definition OK : Z := 200.
Definition MovedPermanently : Z := 301.
Definition NotModified : Z := 304.
Definition BadRequest : Z := 400.
Definition NotFound : Z := 404.
Definition InternalServerError : Z := 500.
End STATUS_CODE.

Definition STATUS_TEXT (status : Z) : string :=
  if status =? 200 then "OK"
  else if status =? 301 then "Moved Permanently"
  else if status =? 304 then "Not Modified"
  else if status =? 400 then "Bad Request"
  else if status =? 404 then "Not Found"
  else if status =? 500 then "Internal Server Error"
  else EmptyString.

(** [isStatus] of [@std/http], on the range the next function asks about:
    the codes of the table [STATUS_CODE] from 300 to 399. *)
Definition isStatus_3xx (status : Z) : bool :=
  bool_decide (status ∈ [300; 301; 302; 303; 304; 305; 307; 308]).

(** [isRedirectStatus] of [@std/http]:
    [isStatus(status) && status >= 300 && status < 400] *)
Definition isRedirectStatus (status : Z) : bool :=
  isStatus_3xx status && (300 <=? status) && (status <? 400).

Definition createStandardResponse (status : Z) : Response :=
  let statusText := STATUS_TEXT status in
  Response_new (BodyText statusText) status statusText [].

Definition createBaseHeaders : Headers :=
  [("server", "deno"); ("accept-ranges", "bytes")].

Definition strip_weak (tag : string) : string :=
  if Str.startsWith "W/" tag then Str.drop 2 tag else tag.

(** [value.split(/\s*,\s*/)]: the pieces between commas, without the white
    space that touches a comma. *)
Fixpoint split_COMMA_REGEXP_go (first : bool) (pieces : list string) : list string :=
  match pieces with
  | [] => []
  | [x] => [if first then x else Str.trim_start x]
  | x :: rest =>
      Str.trim_end (if first then x else Str.trim_start x)
      :: split_COMMA_REGEXP_go false rest
  end.

Definition split_COMMA_REGEXP (value : string) : list string :=
  split_COMMA_REGEXP_go true (Str.split_comma value).

(** [STAR_REGEXP.test(value)] with [STAR_REGEXP = /^\s*\*\s*$/] *)
Definition STAR_REGEXP_test (value : string) : bool :=
  String.eqb (Str.trim_start (Str.trim_end value)) "*".

(** [ifNoneMatch] of [@std/http]: [false] when the tag matches the header
    value, weak and strong tags compared alike. *)
Definition ifNoneMatch (value : option string) (etag : option string) : bool :=
  match value, etag with
  | Some value, Some etag =>
      if negb (Str.truthy value) || negb (Str.truthy etag) then true
      else if STAR_REGEXP_test value then false
      else
        let etag := strip_weak etag in
        let tags := map strip_weak (split_COMMA_REGEXP value) in
        negb (bool_decide (etag ∈ tags))
  | _, _ => true
  end.

(** [ServeDirOptions]; [opt_headers] holds the entries that iterating
    [new Headers(opts.headers)] yields. *)
Record ServeDirOptions := {
  fsRoot : option string;
  urlRoot : option string;
  enableCors : bool;
  opt_headers : option Headers;
}.

Section Responder.

Context (P : Platform).

(** The test of [serveFile] that answers 304. *)
Definition not_modified (req : Request) (fileMeta : FileMeta) : bool :=
  let etag := eTag fileMeta in
  if Str.opt_truthy etag || bool_decide (is_Some (mtime fileMeta)) then
    let ifNoneMatchValue := Headers_get (req_headers req) "if-none-match" in
    let ifModifiedSinceValue := Headers_get (req_headers req) "if-modified-since" in
    negb (ifNoneMatch ifNoneMatchValue etag)
    || (bool_decide (ifNoneMatchValue = None)
        && match mtime fileMeta, ifModifiedSinceValue with
           | Some mtime, Some since =>
               Str.truthy since
               && time_lt mtime (time_add (Date_parse P since) 1000)
           | _, _ => false
           end)
  else false.

(** The headers of [serveFile] before the conditional test. *)
Definition validator_headers (fileMeta : FileMeta) : result Headers :=
  let headers := createBaseHeaders in
  and_then
    (match atime fileMeta with
     | Some atime => Headers_set headers "date" (toUTCString P atime)
     | None => Ok headers
     end) (λ headers,
  let etag := eTag fileMeta in
  and_then
    (match mtime fileMeta with
     | Some mtime => Headers_set headers "last-modified" (toUTCString P mtime)
     | None => Ok headers
     end) (λ headers,
  if Str.opt_truthy etag
  then Headers_set headers "etag" (default EmptyString etag)
  else Ok headers)).

(** The headers [serveFile] adds for a full response. *)
Definition entity_headers (filePath : string) (fileMeta : FileMeta)
  (headers : Headers) : result Headers :=
  and_then
    (match contentType P (extname P filePath) with
     | Some contentTypeValue => Headers_set headers "content-type" contentTypeValue
     | None => Ok headers
     end) (λ headers,
  let fileSize := size fileMeta in
  Headers_set headers "content-length" (decimal fileSize)).

(** [serveFile(embeds, req, filePath, { fileMeta })] *)
Definition serveFile (embeds : EmbedsDef) (req : Request) (filePath : string)
  (options_fileMeta : option FileMeta) : M Response :=
  let* fileMeta :=
    (match options_fileMeta with
     | Some meta => ret (Some meta)
     | None => Embeds_stat P embeds filePath
     end) in
  match fileMeta with
  | None => ret (createStandardResponse STATUS_CODE.NotFound)
  | Some fileMeta =>
      let* headers := lift (validator_headers fileMeta) in
      if not_modified req fileMeta then
        let status := STATUS_CODE.NotModified in
        ret (Response_new BodyNull status (STATUS_TEXT status) headers)
      else
        let* headers := lift (entity_headers filePath fileMeta headers) in
        let* file := Embeds_get P embeds filePath in
        match file with
        | None => ret (createStandardResponse STATUS_CODE.NotFound)
        | Some file =>
            let* (bytes, _) := File_bytes P file in
            let status := STATUS_CODE.OK in
            ret (Response_new (BodyBytes bytes) status (STATUS_TEXT status) headers)
        end
  end.

(** [serveFallback] *)
Definition serveFallback (maybeError : js_error) : Response :=
  match maybeError with
  | URIError => createStandardResponse STATUS_CODE.BadRequest
  | Deno_NotFound => createStandardResponse STATUS_CODE.NotFound
  | _ => createStandardResponse STATUS_CODE.InternalServerError
  end.

Definition set_pathname (u : URL) (p : string) : URL :=
  {| origin := origin u;
     pathname := URL_pathname_setter P p;
     search := search u;
     hash := hash u |}.

(** [createServeDirResponse] *)
Definition createServeDirResponse (embeds : EmbedsDef) (req : Request)
  (opts : ServeDirOptions) : M Response :=
  let target := if Str.opt_truthy (fsRoot opts) then default "." (fsRoot opts) else "." in
  let urlRoot := urlRoot opts in
  let url := url req in
  let* decodedUrl :=
    (match decodeURIComponent P (pathname url) with
     | Some d => ret d
     | None => throw URIError
     end) in
  let normalizedPath := Path.normalize decodedUrl in
  if Str.opt_truthy urlRoot
     && negb (Str.startsWith ("/" +:+ default EmptyString urlRoot) normalizedPath)
  then ret (createStandardResponse STATUS_CODE.NotFound)
  else if negb (String.eqb normalizedPath decodedUrl) then
    ret (Response_redirect (set_pathname url normalizedPath) 301)
  else
    let normalizedPath :=
      if Str.opt_truthy urlRoot
      then Str.replace_first (default EmptyString urlRoot) EmptyString normalizedPath
      else normalizedPath in
    let normalizedPath :=
      if Str.endsWith_char "/" normalizedPath then normalizedPath +:+ "index.html"
      else if String.eqb normalizedPath "/" then "/index.html"
      else normalizedPath in
    let fsPath := Path.join [target; normalizedPath] in
    let* fileMeta := Embeds_stat P embeds fsPath in
    serveFile embeds req fsPath fileMeta.

Fixpoint append_all (h extra : Headers) : result Headers :=
  match extra with
  | [] => Ok h
  | (key, value) :: extra' =>
      and_then (Headers_append h key value) (λ h, append_all h extra')
  end.

Definition with_headers (r : Response) (h : Headers) : Response :=
  {| status := status r; statusText := statusText r; headers := h; body := body r |}.

(** [serveDir] *)
Definition serveDir (embeds : EmbedsDef) (req : Request) (opts : ServeDirOptions)
  : M Response :=
  let* response :=
    try_catch (createServeDirResponse embeds req opts)
      (λ error, ret (serveFallback error)) in
  let isRedirectResponse := isRedirectStatus (status response) in
  let* response :=
    (if enableCors opts && negb isRedirectResponse then
       let* h := lift (Headers_append (headers response)
                         "access-control-allow-origin" "*") in
       let* h := lift (Headers_append h "access-control-allow-headers"
                         "Origin, X-Requested-With, Content-Type, Accept, Range") in
       ret (with_headers response h)
     else ret response) in
  let* response :=
    (match opt_headers opts with
     | Some additionalHeaders =>
         if negb isRedirectResponse then
           let* h := lift (append_all (headers response) additionalHeaders) in
           ret (with_headers response h)
         else ret response
     | None => ret response
     end) in
  ret response.

(** [Embeds.serve] *)
Definition Embeds_serve (embeds : EmbedsDef) (req : Request) (options : ServeDirOptions)
  : M Response :=
  serveDir embeds req options.

End Responder.

(** ** A small concrete platform

    Simple stand-ins for the platform functions, used to run the model on
    concrete inputs. *)

Module Demo.

(** Run-length coding as the compressor: pairs of a count and an octet. *)
Fixpoint rle_compress (data : list byte) : list byte :=
  match data with
  | [] => []
  | b :: rest =>
      match rle_compress rest with
      | n :: b' :: packed =>
          if Byte.eqb b b' && (Byte.to_N n <? 255)%N
          then Base64.to_u8 (N.succ (Byte.to_N n)) :: b' :: packed
          else x01 :: b :: n :: b' :: packed
      | _ => [x01; b]
      end
  end.

Fixpoint rle_decompress (packed : list byte) : option (list byte) :=
  match packed with
  | [] => Some []
  | n :: b :: rest =>
      option_map (app (repeat b (N.to_nat (Byte.to_N n)))) (rle_decompress rest)
  | [_] => None
  end.

Definition hex_value (c : ascii) : option N :=
  Base64.index_of c "0123456789abcdef" 0%N.

(** Percent-decoding of escapes below 128; a malformed escape fails. *)
Fixpoint percent_decode (s : string) : option string :=
  match s with
  | EmptyString => Some EmptyString
  | String c rest =>
      if Ascii.eqb c "%" then
        match rest with
        | String h (String l rest') =>
            match hex_value h, hex_value l, percent_decode rest' with
            | Some a, Some b, Some r =>
                if (a <? 8)%N then Some (String (ascii_of_N (16 * a + b)) r) else None
            | _, _, _ => None
            end
        | _ => None
        end
      else option_map (String c) (percent_decode rest)
  end.

Definition media_type (ext : string) : option string :=
  if String.eqb ext ".html" then Some "text/html; charset=UTF-8"
  else if String.eqb ext ".txt" then Some "text/plain; charset=UTF-8"
  else None.

(** The extension of the last segment, from its last dot. *)
Fixpoint extension (s : string) : string :=
  match s with
  | EmptyString => EmptyString
  | String c s' =>
      match extension s' with
      | EmptyString =>
          if Ascii.eqb c "." && Str.no_slash s' then s else EmptyString
      | e => e
      end
  end.

(** Two HTTP dates and their times in milliseconds. *)
Definition parse_date (s : string) : jstime :=
  if String.eqb s "Thu, 01 Jan 1970 00:00:04 GMT" then Some 4000
  else if String.eqb s "Thu, 01 Jan 1970 00:00:05 GMT" then Some 5000
  else if String.eqb s "Thu, 01 Jan 1970 00:00:09 GMT" then Some 9000
  else None.

Definition utc_string (t : jstime) : string :=
  match t with
  | Some 4000 => "Thu, 01 Jan 1970 00:00:04 GMT"
  | Some 5000 => "Thu, 01 Jan 1970 00:00:05 GMT"
  | Some 9000 => "Thu, 01 Jan 1970 00:00:09 GMT"
  | Some _ => "Thu, 01 Jan 1970 00:00:00 GMT"
  | None => "Invalid Date"
  end.

Definition latin1 (bytes : list byte) : string :=
  string_of_list_ascii (map ascii_of_byte bytes).

Definition call_inherited (name : string) : result unit :=
  if bool_decide (name ∈ ["constructor"; "toString"; "isPrototypeOf"])
  then Ok tt else Throw TypeError.

Definition platform : Platform := {|
  compress_stream := λ _, rle_compress;
  decompress_stream := λ _, rle_decompress;
  cwd := "/work";
  manifest_version := "0.0.0";
  decodeURIComponent := percent_decode;
  contentType := media_type;
  extname := extension;
  toUTCString := utc_string;
  Date_parse := parse_date;
  TextDecoder_decode := latin1;
  URL_pathname_setter := λ p, p;
  prototype_call := call_inherited;
|}.

Definition empty_disk : writer_state :=
  {| files := ∅; disk := {[ "/" := FsDir ]} |}.

Definition request (path : string) (h : Headers) : Request :=
  {| url := {| origin := "http://localhost"; pathname := path;
               search := EmptyString; hash := EmptyString |};
     req_headers := h |}.

Definition no_options : ServeDirOptions :=
  {| fsRoot := None; urlRoot := None; enableCors := false; opt_headers := None |}.

End Demo.

(** ** Sample inputs on the concrete platform *)

Module Sample.

Definition data : list byte := repeat "A"%byte 600.

Definition fresh_meta : FileMeta :=
  {| size := 600;
     encoded := nl +:+ wrapped_encoding Demo.platform data;
     compression := Some "gzip";
     eTag := None;
     atime := None;
     mtime := None |}.



Definition dated_meta : FileMeta :=
  {| size := 5;
     encoded := "aGVsbG8=";
     compression := None;
     eTag := Some "abc";
     atime := None;
     mtime := Some (Some 5000) |}.

(** A record whose tag holds a line feed. *)
Definition broken_meta : FileMeta :=
  {| size := 5;
     encoded := "aGVsbG8=";
     compression := None;
     eTag := Some ("a" +:+ nl +:+ "b");
     atime := None;
     mtime := None |}.

Definition registry : EmbedsDef :=
  {[ "a/b" := fresh_meta; "hello.txt" := dated_meta ]}.

Definition fresh_registry : EmbedsDef := {[ "a/b" := fresh_meta ]}.

Definition conditional_request : Request :=
  Demo.request "/a/b"
    [("if-none-match", "abc");
     ("if-modified-since", "Thu, 01 Jan 1970 00:00:09 GMT")].

Definition hello : list byte := ["h"; "e"; "l"; "l"; "o"]%byte.

Definition out_disk : writer_state :=
  {| files := ∅; disk := {[ "/" := FsDir; "/work" := FsDir; "/work/out" := FsDir ]} |}.

Definition placed (orig rel imp disk : string) : FilePaths :=
  {| original := orig; relative := rel; import := imp; onDisk := disk |}.


End Sample.

(** ** Notions the statements use *)

(** A record as a freshly generated module exports it. *)
Definition fresh_record (P : Platform) (meta : FileMeta) : Prop :=
  ∃ data, module_default (emitted_literal P data) = Some meta.

(** A text that [Headers.prototype.set] accepts. *)
Definition header_text_ok (value : string) : bool :=
  is_header_value (normalize_header_value value).

(** The validators of a record can be written as headers: its entity tag
    and its formatted dates are legal header text. *)
Definition legal_validators (P : Platform) (meta : FileMeta) : bool :=
  match atime meta with Some t => header_text_ok (toUTCString P t) | None => true end
  && match mtime meta with Some t => header_text_ok (toUTCString P t) | None => true end
  && (if Str.opt_truthy (eTag meta)
      then header_text_ok (default EmptyString (eTag meta))
      else true).

(** The media type the platform gives for the path, if any, is legal
    header text. *)
Definition legal_media_type (P : Platform) (filePath : string) : bool :=
  match contentType P (extname P filePath) with
  | Some contentTypeValue => header_text_ok contentTypeValue
  | None => true
  end.

(** No entity tag, no modification date and no date among the headers. *)
Definition no_validators (h : Headers) : Prop :=
  Headers_get h "etag" = None
  ∧ Headers_get h "last-modified" = None
  ∧ Headers_get h "date" = None.

(** A segment of a resolved path: not empty, not "." or "..", and
    without a separator. *)
Definition clean_segment (s : string) : Prop :=
  s ≠ "" ∧ s ≠ "." ∧ s ≠ ".." ∧ Str.no_slash s = true.

(** The absolute path with the given segments. *)
Definition abspath (l : list string) : string := "/" +:+ Str.join_slash l.

(** [destDir] as [embedDir] passes it on: absolute and left unchanged by
    [resolve]. *)
Definition is_resolved (p : string) : bool := String.eqb (Path.resolve "/" [p]) p.

(** Where [#addFile] places an input path when its guard lets it pass,
    before the table of placed files is consulted. *)
Definition placement (P : Platform) (destDir filePath : string) : option FilePaths :=
  let absPath := Path.resolve (cwd P) [destDir; filePath] in
  match parentChild destDir absPath with
  | Ok true => Some (file_paths P destDir filePath absPath)
  | _ => None
  end.

(** Two strings that differ at most by "_" standing where the other has
    ".": what replacing ".d.ts" by ".d_ts" does to a string. *)
Inductive dot_relaxed : string → string → Prop :=
| dot_relaxed_nil : dot_relaxed "" ""
| dot_relaxed_same c s s' : dot_relaxed s s' → dot_relaxed (String c s) (String c s')
| dot_relaxed_dot s s' : dot_relaxed s s' → dot_relaxed (String "." s) (String "_" s').

(** ** Auxiliary functions of the base64 proof *)

(** The sextets of [encodeBase64]: four for three octets, and the last
    one of a padded group. *)
Definition sx0 (a : N) : N := N.shiftr a 2.
Definition sx1 (a b : N) : N := N.lor (N.shiftl (N.land a 3) 4) (N.shiftr b 4).
Definition sx2 (b c : N) : N := N.lor (N.shiftl (N.land b 15) 2) (N.shiftr c 6).
Definition sx3 (c : N) : N := N.land c 63.
Definition tail1 (a : N) : N := N.shiftl (N.land a 3) 4.
Definition tail2 (b : N) : N := N.shiftl (N.land b 15) 2.

Definition sextet_check (a b : N) : bool :=
  (sx0 a <? 64)%N && (sx1 a b <? 64)%N && (sx2 a b <? 64)%N && (sx3 a <? 64)%N
  && (tail1 a <? 64)%N && (tail2 a <? 64)%N
  && (N.lor (N.shiftl (sx0 a) 2) (N.shiftr (sx1 a b) 4) mod 256 =? a)%N
  && (N.lor (N.shiftl (sx0 a) 2) (N.shiftr (tail1 a) 4) mod 256 =? a)%N
  && (N.land (sx1 a b) 15 =? N.shiftr b 4)%N
  && (N.shiftr (sx2 a b) 2 =? N.land a 15)%N
  && (N.shiftr (tail2 a) 2 =? N.land a 15)%N
  && (N.lor (N.shiftl (N.shiftr a 4) 4) (N.land a 15) mod 256 =? a)%N
  && (N.lor (N.shiftl (N.land (sx2 a b) 3) 6) (sx3 b) mod 256 =? b)%N.

(** The sextets and the padding of an encoding. *)
Fixpoint encode_sextets (data : list byte) : list N :=
  match data with
  | [] => []
  | [a] => [sx0 (Base64.u8 a); tail1 (Base64.u8 a)]
  | [a; b] =>
      [sx0 (Base64.u8 a); sx1 (Base64.u8 a) (Base64.u8 b); tail2 (Base64.u8 b)]
  | a :: b :: c :: rest =>
      sx0 (Base64.u8 a) :: sx1 (Base64.u8 a) (Base64.u8 b)
      :: sx2 (Base64.u8 b) (Base64.u8 c) :: sx3 (Base64.u8 c)
      :: encode_sextets rest
  end.

Fixpoint padding (data : list byte) : string :=
  match data with
  | [] => ""
  | [_] => "=="
  | [_; _] => "="
  | _ :: _ :: _ :: rest => padding rest
  end.

Fixpoint letters (l : list N) : string :=
  match l with
  | [] => ""
  | n :: l' => String (Base64.abc n) (letters l')
  end.

Definition letter_check (n : N) : bool :=
  match Base64.value_of (Base64.abc n) with Some m => (m =? n)%N | None => false end
  && negb (Base64.is_ascii_whitespace (Base64.abc n))
  && negb (Base64.is_pad (Base64.abc n))
  && negb (is_line_terminator (Base64.abc n)).

(** A decimal digit. *)
Definition is_digit (c : ascii) : bool :=
  (48 <=? N_of_ascii c)%N && (N_of_ascii c <=? 57)%N.

(** What a template literal may hold as it stands. *)
Definition template_plain (s : string) : bool :=
  all_chars (λ c, negb (is_template_special c)) s.

(** ** The directory walk of the build-time CLI *)

(** What [Deno.readDir] lists in a directory, in listing order: regular
    files, symbolic links, and directories with their own listing.  A
    tree that holds an entry of another kind is outside the model. *)
#[local] Unset Elimination Schemes.
Inductive DirEntry :=
| EntryFile (name : string)
| EntrySymlink (name : string)
| EntryDir (name : string) (children : list DirEntry).
#[local] Set Elimination Schemes.

(** What the walk does, in order: it yields an entry, of which the
    converter reads the name, or prints a warning. *)
Inductive walk_event :=
| Yield (name : string)
| Warn (message : string).

(** [{ ...child, name: path.join(dirName, child.name) }] *)
Definition rename_yield (dirName : string) (e : walk_event) : walk_event :=
  match e with
  | Yield name => Yield (Path.join [dirName; name])
  | Warn message => Warn message
  end.

(** One round of the loop of [recursiveReadDir]. *)
Fixpoint recursiveReadDir_entry (entry : DirEntry) : list walk_event :=
  match entry with
  | EntrySymlink name => [Warn ("Symlinks are unsupported: " +:+ name)]
  | EntryFile name => [Yield name]
  | EntryDir dirName children =>
      map (rename_yield dirName) (flat_map recursiveReadDir_entry children)
  end.

(** [recursiveReadDir(dir)], for the listing of [dir]. *)
Definition recursiveReadDir (listing : list DirEntry) : list walk_event :=
  flat_map recursiveReadDir_entry listing.

Definition yielded (events : list walk_event) : list string :=
  flat_map (λ e, match e with Yield name => [name] | Warn _ => [] end) events.

Definition warned (events : list walk_event) : list string :=
  flat_map (λ e, match e with Warn m => [m] | Yield _ => [] end) events.

(** The regular files of a listing that are reachable without following
    a link, each by the names on the way to it. *)
Fixpoint file_leaves (entry : DirEntry) : list (list string) :=
  match entry with
  | EntryFile name => [[name]]
  | EntrySymlink _ => []
  | EntryDir dirName children => map (cons dirName) (flat_map file_leaves children)
  end.

(** The links of a listing, by name. *)
Fixpoint link_names (entry : DirEntry) : list string :=
  match entry with
  | EntryFile _ => []
  | EntrySymlink name => [name]
  | EntryDir _ children => flat_map link_names children
  end.

(** Every name of the listing is a single path component. *)
Fixpoint names_clean (entry : DirEntry) : Prop :=
  match entry with
  | EntryFile name | EntrySymlink name => clean_segment name
  | EntryDir dirName children =>
      clean_segment dirName ∧ fold_right (λ c acc, names_clean c ∧ acc) True children
  end.

Definition listing_clean (listing : list DirEntry) : Prop :=
  Forall names_clean listing.

(** A small source tree: a file, a link, and a directory that holds a
    file and a directory. *)
Definition sample_listing : list DirEntry :=
  [EntryFile "index.html";
   EntrySymlink "latest";
   EntryDir "img" [EntryFile "a b.png"; EntryDir "icons" [EntryFile "x.svg"]]].

(** The concatenation of a list of strings. *)
Definition concat_strings (parts : list string) : string :=
  fold_right (λ part acc, part +:+ acc) EmptyString parts.

(** No character of the string ends a line. *)
Definition one_line (s : string) : bool :=
  all_chars (λ c, negb (is_line_terminator c)) s.

(** The string holds no space. *)
Definition no_space (s : string) : bool :=
  all_chars (λ c, negb (Ascii.eqb c " ")) s.

(** ** Calls on an instance of [File], one after another *)




Section Lifetime.

Context (P : Platform).




End Lifetime.

(** The URL path of a directory: its absolute path with a closing "/". *)
Definition dirpath (l : list string) : string :=
  match l with
  | [] => "/"
  | _ => abspath l +:+ "/"
  end.

(** On a disk that is a tree, nothing lies below a path that does not
    exist. *)
Definition rooted (dir : string) (d : gmap string fs_node) : Prop :=
  d !! dir = None → ∀ k, inside dir k = true → d !! k = None.

(** The nearest ancestor of [path] that is on the disk is a regular file. *)
Definition blocked_by_file (path : string) (d : gmap string fs_node) : Prop :=
  ∃ l1 l2 c,
    Forall clean_segment (l1 ++ l2) ∧ l2 ≠ []
    ∧ path = abspath (l1 ++ l2)
    ∧ d !! abspath l1 = Some (FsFile c)
    ∧ ∀ l3 l4, l2 = l3 ++ l4 → l3 ≠ [] → l4 ≠ [] → d !! abspath (l1 ++ l3) = None.

(** The text of [dir.ts] that lists the given files in the given order. *)
Definition dir_ts (P : Platform) (listed : list FilePaths) : string :=
  Str.join nl
    (["import { FileServer, Embeds } from " +:+ dq +:+ "jsr:@smallweb/embed@"
        +:+ manifest_version P +:+ "/file-server" +:+ dq +:+ ";";
      "";
      "const embeds = new Embeds({"]
     ++ map (λ file, "  " +:+ dq +:+ relative file +:+ dq +:+ ": () => import("
                       +:+ dq +:+ import file +:+ dq +:+ "),") listed
     ++ ["});";
         "";
         "const server = new FileServer(embeds);";
         "export const serveDir = server.serveDir";
         "export default embeds;"]).

(** ** The responder of [FileServer] *)

(** The characters of a header name: those of an HTTP token. *)
Definition is_tchar (c : ascii) : bool :=
  let n := N_of_ascii c in
  ((48 <=? n) && (n <=? 57) || (65 <=? n) && (n <=? 90)
   || (97 <=? n) && (n <=? 122))%N
  || bool_decide (c ∈ list_ascii_of_string "!#$%&'*+-.^_`|~").

Definition is_header_name (name : string) : bool :=
  Str.truthy name && all_chars is_tchar name.

Definition lower_char (c : ascii) : ascii :=
  let n := N_of_ascii c in
  if ((65 <=? n) && (n <=? 90))%N then ascii_of_N (n + 32) else c.

(** Header names are compared in lower case. *)
Fixpoint byteLowerCase (s : string) : string :=
  match s with
  | EmptyString => EmptyString
  | String c s' => String (lower_char c) (byteLowerCase s')
  end.

(** An object used as a record of strings: its own enumerable properties
    in property order, array indices first. *)
Abbreviation JsRecord := (list (string * string)).

Fixpoint digits_value (acc : N) (s : string) : option N :=
  match s with
  | EmptyString => Some acc
  | String c s' =>
      let n := N_of_ascii c in
      if ((48 <=? n) && (n <=? 57))%N
      then digits_value (acc * 10 + (n - 48)) s'
      else None
  end.

(** A property key that is an array index: the canonical decimal form of
    an integer below 2^32 - 1. *)
Definition is_array_index (key : string) : bool :=
  match key with
  | EmptyString => false
  | String c rest =>
      (negb (Ascii.eqb c "0") || String.eqb rest EmptyString)
      && match digits_value 0 key with
         | Some n => (n <? 4294967295)%N
         | None => false
         end
  end.

Fixpoint record_get (r : JsRecord) (key : string) : option string :=
  match r with
  | [] => None
  | (k, v) :: r' => if String.eqb k key then Some v else record_get r' key
  end.

(** [{ "Content-Type": type, ...extra }]: a property of [extra] with this
    very key takes the place of the first one, and array indices come
    first. *)
Definition content_type_record (type : string) (extra : JsRecord) : JsRecord :=
  filter (λ kv, is_array_index kv.1 = true) extra
  ++ [("Content-Type", default type (record_get extra "Content-Type"))]
  ++ filter (λ kv, is_array_index kv.1 = false ∧ kv.1 ≠ "Content-Type") extra.

(** The headers of [new Response(body, { headers: record })]: each
    property is appended; a name that is no token or a value that is no
    header value is a [TypeError]. *)
Fixpoint Headers_fill (h : Headers) (record : JsRecord) : result Headers :=
  match record with
  | [] => Ok h
  | (name, value) :: rest =>
      let value := normalize_header_value value in
      if negb (is_header_name name) || negb (is_header_value value)
      then Throw TypeError
      else Headers_fill (h ++ [(byteLowerCase name, value)]) rest
  end.

Section Legacy.

Context (P : Platform).

(** [contentType(extname(pathname)) || "application/octet-stream"] *)
Definition guessed_type (pathname : string) : string :=
  match contentType P (extname P pathname) with
  | Some type => if Str.truthy type then type else "application/octet-stream"
  | None => "application/octet-stream"
  end.

(** [FileServer.serveDir] of [file_server.ts]; [options_headers] is
    [options.headers]. *)
Definition FileServer_serveDir (dir : EmbedsDef) (req : Request)
  (options_headers : option JsRecord) : M Response :=
  let pathname := pathname (url req) in
  let pathname :=
    if Str.endsWith_char "/" pathname then pathname +:+ "index.html" else pathname in
  let* file := Embeds_get P dir (Str.drop 1 pathname) in
  match file with
  | None => ret (Response_new (BodyText "Not found") 404 EmptyString [])
  | Some file =>
      let type := guessed_type pathname in
      let* (bytes, _) := File_bytes P file in
      let* headers :=
        lift (Headers_fill [] (content_type_record type (default [] options_headers))) in
      ret (Response_new (BodyBytes bytes) 200 EmptyString headers)
  end.

(** [Embeds.serve] of [embeds.ts] *)
Definition Embeds_serve_static (embeds : EmbedsDef) (req : Request) : M Response :=
  let pathname := pathname (url req) in
  let pathname :=
    if Str.endsWith_char "/" pathname then pathname +:+ "index.html" else pathname in
  let* file := Embeds_get P embeds (Str.drop 1 pathname) in
  match file with
  | None => ret (Response_new (BodyText "Not found") 404 EmptyString [])
  | Some file =>
      let type := guessed_type pathname in
      let* (bytes, _) := File_bytes P file in
      let* headers := lift (Headers_fill [] [("Content-Type", type)]) in
      ret (Response_new (BodyBytes bytes) 200 EmptyString headers)
  end.

End Legacy.

(** ** More sample inputs *)

(** A disk on which an earlier run has left a module, beside a file that
    is not the writer's. *)
Definition stale_disk : writer_state :=
  {| files := ∅;
     disk := {[ "/" := FsDir; "/work" := FsDir; "/work/out" := FsDir;
                "/work/out/_old.ts" := FsFile "stale";
                "/work/keep.txt" := FsFile "kept" ]} |}.

(** A disk on which the working directory is a regular file. *)
Definition blocked_disk : writer_state :=
  {| files := {[ "/work/out/_x.ts" := Sample.placed "x" "x" "./_x.ts" "/work/out/_x.ts" ]};
     disk := {[ "/" := FsDir; "/work" := FsFile "not a directory" ]} |}.

Definition sample_entries : list (string * list byte) :=
  [("b.txt", ["h"%byte]); ("a b/c.d.ts", ["i"%byte])].

Definition framed_options : ServeDirOptions :=
  {| fsRoot := None; urlRoot := None; enableCors := false;
     opt_headers := Some [("x-frame-options", "DENY")] |}.

Definition cors_options : ServeDirOptions :=
  {| fsRoot := None; urlRoot := None; enableCors := true; opt_headers := None |}.

(** A record whose text is not base64. *)
Definition corrupt_meta : FileMeta :=
  {| size := 5;
     encoded := "?";
     compression := None;
     eTag := None;
     atime := None;
     mtime := None |}.

(** * The library functions at known inputs *)

Example normalize_examples :
  Path.normalize "/a//b/../c/" = "/a/c/"
  ∧ Path.normalize "" = "."
  ∧ Path.normalize "a/.." = "."
  ∧ Path.normalize "/.." = "/"
  ∧ Path.normalize "../a/./b" = "../a/b"
  ∧ Path.normalize "/index.html" = "/index.html".
Proof. repeat split; vm_compute; reflexivity. Qed.

Example resolve_examples :
  Path.resolve "/home" ["/work/out"; "../x"] = "/work/x"
  ∧ Path.resolve "/home" ["/work/out"; "/etc/passwd"] = "/etc/passwd"
  ∧ Path.resolve "/home" ["out"; "a/b"] = "/home/out/a/b"
  ∧ Path.resolve "/home" ["/work/out"; ""] = "/work/out".
Proof. repeat split; vm_compute; reflexivity. Qed.

Example join_examples :
  Path.join ["/work/out"; "a/_b.png.ts"] = "/work/out/a/_b.png.ts"
  ∧ Path.join [""; "_b.png.ts"] = "_b.png.ts"
  ∧ Path.join ["."; "/index.html"] = "index.html"
  ∧ Path.join [""; ""] = ".".
Proof. repeat split; vm_compute; reflexivity. Qed.

Example dirname_examples :
  Path.dirname "/work/out/a" = "/work/out"
  ∧ Path.dirname "/work" = "/"
  ∧ Path.dirname "/" = "/"
  ∧ Path.dirname "a" = "."
  ∧ Path.dirname "a//b/" = "a"
  ∧ Path.dirname "" = ".".
Proof. repeat split; vm_compute; reflexivity. Qed.

Example relative_examples :
  Path.relative "/home" "/work/out" "/work/out/a/b.png" = "a/b.png"
  ∧ Path.relative "/home" "/work/out" "/work/x" = "../x"
  ∧ Path.relative "/home" "/work/out" "/work/out" = "".
Proof. repeat split; vm_compute; reflexivity. Qed.

Example parse_examples :
  Path.dir (Path.parse "a/b.png") = "a"
  ∧ Path.base (Path.parse "a/b.png") = "b.png"
  ∧ Path.dir (Path.parse "b.png") = ""
  ∧ Path.base (Path.parse "b.png") = "b.png".
Proof. repeat split; vm_compute; reflexivity. Qed.

Example base64_examples :
  Base64.encodeBase64 Sample.hello = "aGVsbG8="
  ∧ Base64.decodeBase64 "aGVsbG8=" = Some Sample.hello
  ∧ Base64.decodeBase64 (nl +:+ "aGVs" +:+ nl +:+ "bG8=") = Some Sample.hello
  ∧ Base64.decodeBase64 "aGVsbG8" = Some Sample.hello
  ∧ Base64.decodeBase64 "a" = None
  ∧ Base64.decodeBase64 "a*==" = None.
Proof. repeat split; vm_compute; reflexivity. Qed.

Example hard_wrap_examples :
  hard_wrap (Base64.encodeBase64 (repeat "A"%byte 90))
  = Base64.encodeBase64 (repeat "A"%byte 90) +:+ nl
  ∧ hard_wrap (Base64.encodeBase64 (repeat "A"%byte 93))
    = Base64.encodeBase64 (repeat "A"%byte 90) +:+ nl +:+ "QUFB"
  ∧ hard_wrap "aGVsbG8=" = "aGVsbG8=".
Proof. repeat split; vm_compute; reflexivity. Qed.

Example ifNoneMatch_examples :
  ifNoneMatch (Some "abc") (Some "abc") = false
  ∧ ifNoneMatch (Some "W/abc") (Some "abc") = false
  ∧ ifNoneMatch (Some "x , abc") (Some "W/abc") = false
  ∧ ifNoneMatch (Some " * ") (Some "abc") = false
  ∧ ifNoneMatch (Some "x, y") (Some "abc") = true
  ∧ ifNoneMatch None (Some "abc") = true
  ∧ ifNoneMatch (Some "abc") None = true.
Proof. repeat split; vm_compute; reflexivity. Qed.

Example Headers_examples :
  Headers_set createBaseHeaders "etag" " abc "
  = Ok [("server", "deno"); ("accept-ranges", "bytes"); ("etag", "abc")]
  ∧ Headers_set [("etag", "x"); ("date", "d"); ("etag", "y")] "etag" "abc"
    = Ok [("etag", "abc"); ("date", "d")]
  ∧ Headers_set createBaseHeaders "etag" ("a" +:+ nl +:+ "b") = Throw TypeError
  ∧ Headers_get [("etag", "x"); ("date", "d"); ("etag", "y")] "etag" = Some "x, y"
  ∧ Headers_get createBaseHeaders "etag" = None.
Proof. repeat split; vm_compute; reflexivity. Qed.

Example isRedirectStatus_examples :
  isRedirectStatus 301 = true
  ∧ isRedirectStatus 304 = true
  ∧ isRedirectStatus 200 = false
  ∧ isRedirectStatus 404 = false.
Proof. repeat split; vm_compute; reflexivity. Qed.

Example outLines_examples :
  outLines Demo.platform Sample.hello
  = ["export default {"; " size: 5,"; " encoded: `" +:+ nl +:+ "aGVsbG8=`,"; "}"].
Proof. vm_compute. reflexivity. Qed.

(** * Facts about strings *)

Lemma string_app_cons (x : ascii) (a b : string) :
  String x a +:+ b = String x (a +:+ b).
Proof. reflexivity. Qed.

Lemma string_app_nil_l (b : string) : "" +:+ b = b.
Proof. reflexivity. Qed.

Lemma string_app_assoc (a b c : string) : (a +:+ b) +:+ c = a +:+ (b +:+ c).
Proof.
  induction a as [|x a IH]; [reflexivity|].
  now rewrite !string_app_cons, IH.
Qed.

Lemma string_app_nil_r (a : string) : a +:+ "" = a.
Proof.
  induction a as [|x a IH]; [reflexivity|].
  now rewrite string_app_cons, IH.
Qed.

Lemma string_app_length (a b : string) :
  String.length (a +:+ b) = (String.length a + String.length b)%nat.
Proof.
  induction a as [|x a IH]; [reflexivity|].
  rewrite string_app_cons. simpl. now rewrite IH.
Qed.

(** * Base64: decoding inverts encoding *)

Lemma list_ind3 {A} (Q : list A → Prop) :
  Q [] → (∀ a, Q [a]) → (∀ a b, Q [a; b]) →
  (∀ a b c l, Q l → Q (a :: b :: c :: l)) → ∀ l, Q l.
Proof.
  intros H0 H1 H2 H3.
  fix IH 1. intros [|a [|b [|c l]]].
  - exact H0.
  - apply H1.
  - apply H2.
  - apply H3, IH.
Qed.

Lemma N_below_forall (k : nat) (f : N → bool) :
  forallb f (map N.of_nat (seq 0 k)) = true →
  ∀ n, (n < N.of_nat k)%N → f n = true.
Proof.
  intros H n Hn. rewrite forallb_forall in H. apply H.
  apply in_map_iff. exists (N.to_nat n). split; [lia|].
  apply in_seq. lia.
Qed.

Lemma N_below_forall2 (k : nat) (f : N → N → bool) :
  forallb (λ a, forallb (f a) (map N.of_nat (seq 0 k))) (map N.of_nat (seq 0 k)) = true →
  ∀ a b, (a < N.of_nat k)%N → (b < N.of_nat k)%N → f a b = true.
Proof.
  intros H a b Ha Hb.
  apply (N_below_forall k (f a)); [|assumption].
  apply (N_below_forall k (λ a, forallb (f a) (map N.of_nat (seq 0 k))) H a Ha).
Qed.

Lemma u8_bound (b : byte) : (Base64.u8 b < 256)%N.
Proof. unfold Base64.u8. pose proof (Byte.to_N_bounded b). lia. Qed.

Lemma to_u8_u8 (b : byte) : Base64.to_u8 (Base64.u8 b) = b.
Proof.
  unfold Base64.to_u8, Base64.u8.
  rewrite N.mod_small by (pose proof (Byte.to_N_bounded b); lia).
  now rewrite Byte.of_to_N.
Qed.

Lemma sextet_check_all (a b : N) :
  (a < 256)%N → (b < 256)%N → sextet_check a b = true.
Proof.
  intros Ha Hb.
  apply (N_below_forall2 256 sextet_check); [vm_compute; reflexivity | assumption..].
Qed.

Lemma sextet_facts (a b : N) :
  (a < 256)%N → (b < 256)%N →
  ((sx0 a < 64)%N ∧ (sx1 a b < 64)%N ∧ (sx2 a b < 64)%N ∧ (sx3 a < 64)%N
   ∧ (tail1 a < 64)%N ∧ (tail2 a < 64)%N)
  ∧ (N.lor (N.shiftl (sx0 a) 2) (N.shiftr (sx1 a b) 4) mod 256 = a)%N
  ∧ (N.lor (N.shiftl (sx0 a) 2) (N.shiftr (tail1 a) 4) mod 256 = a)%N
  ∧ N.land (sx1 a b) 15 = N.shiftr b 4
  ∧ N.shiftr (sx2 a b) 2 = N.land a 15
  ∧ N.shiftr (tail2 a) 2 = N.land a 15
  ∧ (N.lor (N.shiftl (N.shiftr a 4) 4) (N.land a 15) mod 256 = a)%N
  ∧ (N.lor (N.shiftl (N.land (sx2 a b) 3) 6) (sx3 b) mod 256 = b)%N.
Proof.
  intros Ha Hb. pose proof (sextet_check_all a b Ha Hb) as H.
  unfold sextet_check in H.
  repeat (apply andb_prop in H; destruct H as [H ?]).
  repeat match goal with
         | H : (_ <? _)%N = true |- _ => apply N.ltb_lt in H
         | H : (_ =? _)%N = true |- _ => apply N.eqb_eq in H
         end.
  repeat split; assumption.
Qed.

Lemma to_u8_eq (n : N) (b : byte) : (n mod 256 = Base64.u8 b)%N → Base64.to_u8 n = b.
Proof.
  intros H. unfold Base64.to_u8. rewrite H. unfold Base64.u8.
  now rewrite Byte.of_to_N.
Qed.

Lemma encodeBase64_letters (data : list byte) :
  Base64.encodeBase64 data = letters (encode_sextets data) +:+ padding data.
Proof.
  induction data as [|a|a b|a b c l IH] using list_ind3; try reflexivity.
  cbn [Base64.encodeBase64 encode_sextets padding letters].
  rewrite !string_app_cons. now rewrite IH.
Qed.

Lemma encode_sextets_bound (data : list byte) :
  Forall (λ n, (n < 64)%N) (encode_sextets data).
Proof.
  induction data as [|a|a b|a b c l IH] using list_ind3; cbn [encode_sextets].
  - constructor.
  - pose proof (sextet_facts _ _ (u8_bound a) (u8_bound a)) as [(?&?&?&?&?&?) _].
    repeat constructor; assumption.
  - pose proof (sextet_facts _ _ (u8_bound a) (u8_bound b)) as [(?&?&?&?&?&?) _].
    pose proof (sextet_facts _ _ (u8_bound b) (u8_bound b)) as [(?&?&?&?&?&?) _].
    repeat constructor; assumption.
  - pose proof (sextet_facts _ _ (u8_bound a) (u8_bound b)) as [(?&?&?&?&?&?) _].
    pose proof (sextet_facts _ _ (u8_bound b) (u8_bound c)) as [(?&?&?&?&?&?) _].
    pose proof (sextet_facts _ _ (u8_bound c) (u8_bound c)) as [(?&?&?&?&?&?) _].
    repeat (constructor; [assumption|]). exact IH.
Qed.

Lemma octets_encode_sextets (data : list byte) :
  Base64.octets (encode_sextets data) = data.
Proof.
  induction data as [|a|a b|a b c l IH] using list_ind3.
  - reflexivity.
  - cbn [encode_sextets Base64.octets].
    pose proof (sextet_facts _ _ (u8_bound a) (u8_bound a)) as (_&_&H&_).
    f_equal. now apply to_u8_eq.
  - cbn [encode_sextets Base64.octets].
    pose proof (sextet_facts _ _ (u8_bound a) (u8_bound b)) as (_&H0&_&H1&_).
    pose proof (sextet_facts _ _ (u8_bound b) (u8_bound b)) as (_&_&_&_&_&H2&H3&_).
    f_equal; [now apply to_u8_eq|]. f_equal.
    rewrite H1, H2. now apply to_u8_eq.
  - cbn [encode_sextets Base64.octets].
    pose proof (sextet_facts _ _ (u8_bound a) (u8_bound b)) as (_&H0&_&H1&_).
    pose proof (sextet_facts _ _ (u8_bound b) (u8_bound c)) as (_&_&_&_&H2&_&H3&H4).
    f_equal; [now apply to_u8_eq|]. f_equal; [rewrite H1, H2; now apply to_u8_eq|].
    f_equal; [now apply to_u8_eq | exact IH].
Qed.

Lemma letter_facts (n : N) :
  (n < 64)%N →
  Base64.value_of (Base64.abc n) = Some n
  ∧ Base64.is_ascii_whitespace (Base64.abc n) = false
  ∧ Base64.is_pad (Base64.abc n) = false
  ∧ is_line_terminator (Base64.abc n) = false.
Proof.
  intros Hn.
  assert (H : letter_check n = true)
    by (apply (N_below_forall 64 letter_check); [vm_compute; reflexivity | assumption]).
  unfold letter_check in H.
  repeat (apply andb_prop in H; destruct H as [H ?]).
  destruct (Base64.value_of (Base64.abc n)) as [m|]; [|discriminate].
  apply N.eqb_eq in H. subst m.
  repeat split; try reflexivity; now apply negb_true_iff.
Qed.

Lemma padding_cases (data : list byte) :
  padding data = "" ∨ padding data = "=" ∨ padding data = "==".
Proof.
  induction data as [|a|a b|a b c l IH] using list_ind3; cbn [padding]; auto.
Qed.

Lemma remove_whitespace_app (a b : string) :
  Base64.remove_whitespace (a +:+ b)
  = Base64.remove_whitespace a +:+ Base64.remove_whitespace b.
Proof.
  induction a as [|x a IH]; [reflexivity|].
  rewrite string_app_cons. cbn [Base64.remove_whitespace].
  destruct (Base64.is_ascii_whitespace x); [exact IH|].
  now rewrite string_app_cons, IH.
Qed.

Lemma remove_whitespace_letters (l : list N) :
  Forall (λ n, (n < 64)%N) l →
  Base64.remove_whitespace (letters l) = letters l.
Proof.
  induction 1 as [|n l Hn _ IH]; [reflexivity|].
  cbn [letters Base64.remove_whitespace].
  destruct (letter_facts n Hn) as (_ & -> & _). now rewrite IH.
Qed.

Lemma remove_whitespace_encodeBase64 (data : list byte) :
  Base64.remove_whitespace (Base64.encodeBase64 data) = Base64.encodeBase64 data.
Proof.
  rewrite encodeBase64_letters, remove_whitespace_app.
  rewrite remove_whitespace_letters by apply encode_sextets_bound.
  f_equal. destruct (padding_cases data) as [-> | [-> | ->]]; reflexivity.
Qed.

Lemma mod4_step (n : nat) : (S (S (S (S n))) mod 4 = n mod 4)%nat.
Proof.
  replace (S (S (S (S n)))) with (n + 1 * 4)%nat by lia.
  apply Nat.Div0.mod_add.
Qed.

Lemma encodeBase64_length (data : list byte) :
  (String.length (Base64.encodeBase64 data) mod 4 = 0)%nat.
Proof.
  induction data as [|a|a b|a b c l IH] using list_ind3; try reflexivity.
  cbn [Base64.encodeBase64 String.length].
  now rewrite mod4_step.
Qed.

Lemma strip_padding_letters (l : list N) (pad : string) :
  Forall (λ n, (n < 64)%N) l →
  pad = "" ∨ pad = "=" ∨ pad = "==" →
  Base64.strip_padding (letters l +:+ pad) = letters l.
Proof.
  intros Hl Hpad. induction Hl as [|n l Hn _ IH].
  - destruct Hpad as [-> | [-> | ->]]; reflexivity.
  - cbn [letters]. rewrite string_app_cons. cbn [Base64.strip_padding].
    destruct (letter_facts n Hn) as (_ & _ & -> & _). cbn [andb].
    now rewrite IH.
Qed.

Lemma letters_length (l : list N) : String.length (letters l) = length l.
Proof. induction l as [|n l IH]; [reflexivity|]. cbn. now rewrite IH. Qed.

Lemma encode_sextets_length (data : list byte) :
  (length (encode_sextets data) mod 4 ≠ 1)%nat.
Proof.
  induction data as [|a|a b|a b c l IH] using list_ind3; try (cbn; lia).
  cbn [encode_sextets length].
  now rewrite mod4_step.
Qed.

Lemma sextets_letters (l : list N) :
  Forall (λ n, (n < 64)%N) l → Base64.sextets (letters l) = Some l.
Proof.
  induction 1 as [|n l Hn _ IH]; [reflexivity|].
  cbn [letters Base64.sextets].
  destruct (letter_facts n Hn) as (-> & _). now rewrite IH.
Qed.

(** [decodeBase64(encodeBase64(data))] is [data]. *)
Lemma decodeBase64_encodeBase64 (data : list byte) :
  Base64.decodeBase64 (Base64.encodeBase64 data) = Some data.
Proof.
  unfold Base64.decodeBase64.
  rewrite remove_whitespace_encodeBase64, encodeBase64_length. cbn [Nat.eqb].
  rewrite encodeBase64_letters.
  rewrite strip_padding_letters by (apply encode_sextets_bound || apply padding_cases).
  rewrite letters_length.
  destruct (Nat.eqb_spec (length (encode_sextets data) mod 4) 1) as [E|_].
  - now apply encode_sextets_length in E.
  - rewrite sextets_letters by apply encode_sextets_bound.
    cbn. now rewrite octets_encode_sextets.
Qed.

(** Decoding reads its argument through [remove_whitespace] only. *)
Lemma decodeBase64_whitespace (s t : string) :
  Base64.remove_whitespace s = Base64.remove_whitespace t →
  Base64.decodeBase64 s = Base64.decodeBase64 t.
Proof. intros H. unfold Base64.decodeBase64. now rewrite H. Qed.

Lemma match_dots_split (n : nat) (s m rest : string) :
  match_dots n s = Some (m, rest) → s = m +:+ rest.
Proof.
  revert s m rest. induction n as [|n IH]; intros s m rest H; cbn in H.
  - now inversion H.
  - destruct s as [|c s]; [discriminate|].
    destruct (is_line_terminator c); [discriminate|].
    destruct (match_dots n s) as [[m' rest']|] eqn:E; [|discriminate].
    inversion H; subst. rewrite string_app_cons. f_equal. now apply IH.
Qed.

(** The line breaks of [hard_wrap] are white space to the decoder. *)
Lemma remove_whitespace_hard_wrap_go (fuel : nat) (s : string) :
  Base64.remove_whitespace (hard_wrap_go fuel s) = Base64.remove_whitespace s.
Proof.
  revert s. induction fuel as [|fuel IH]; intros s; [reflexivity|].
  cbn [hard_wrap_go].
  destruct (match_dots 120 s) as [[m rest]|] eqn:E.
  - apply match_dots_split in E. subst s.
    rewrite !remove_whitespace_app, IH. reflexivity.
  - destruct s as [|c s]; [reflexivity|].
    cbn [Base64.remove_whitespace]. now rewrite IH.
Qed.

Lemma decodeBase64_hard_wrap (s : string) :
  Base64.decodeBase64 (nl +:+ hard_wrap s) = Base64.decodeBase64 s.
Proof.
  apply decodeBase64_whitespace.
  rewrite remove_whitespace_app. unfold hard_wrap.
  now rewrite remove_whitespace_hard_wrap_go.
Qed.

(** ** The encoded text stands for itself between back quotes *)

Lemma all_chars_app (f : ascii → bool) (a b : string) :
  all_chars f (a +:+ b) = all_chars f a && all_chars f b.
Proof.
  induction a as [|x a IH]; [reflexivity|].
  rewrite string_app_cons. cbn [all_chars]. now rewrite IH, andb_assoc.
Qed.

Lemma letter_plain (n : N) :
  (n < 64)%N → negb (is_template_special (Base64.abc n)) = true.
Proof.
  apply (N_below_forall 64 (λ n, negb (is_template_special (Base64.abc n)))).
  vm_compute. reflexivity.
Qed.

Lemma template_plain_letters (l : list N) :
  Forall (λ n, (n < 64)%N) l → template_plain (letters l) = true.
Proof.
  induction 1 as [|n l Hn _ IH]; [reflexivity|].
  cbn [letters]. unfold template_plain in *. cbn [all_chars].
  now rewrite (letter_plain n Hn), IH.
Qed.

Lemma template_plain_encodeBase64 (data : list byte) :
  template_plain (Base64.encodeBase64 data) = true.
Proof.
  rewrite encodeBase64_letters. unfold template_plain. rewrite all_chars_app.
  apply andb_true_intro. split.
  - apply template_plain_letters, encode_sextets_bound.
  - destruct (padding_cases data) as [-> | [-> | ->]]; reflexivity.
Qed.

Lemma template_plain_hard_wrap_go (fuel : nat) (s : string) :
  template_plain s = true → template_plain (hard_wrap_go fuel s) = true.
Proof.
  unfold template_plain.
  revert s. induction fuel as [|fuel IH]; intros s Hs; [exact Hs|].
  cbn [hard_wrap_go].
  destruct (match_dots 120 s) as [[m rest]|] eqn:E.
  - apply match_dots_split in E. subst s.
    rewrite all_chars_app in Hs. apply andb_prop in Hs as [Hm Hrest].
    rewrite !all_chars_app, Hm, (IH rest Hrest). reflexivity.
  - destruct s as [|c s]; [reflexivity|].
    cbn [all_chars] in *. apply andb_prop in Hs as [-> Hs].
    now rewrite (IH s Hs).
Qed.

(** The fuel of [hard_wrap] is enough: more of it changes nothing. *)
Lemma match_dots_length (n : nat) (s m rest : string) :
  match_dots n s = Some (m, rest) →
  String.length s = (n + String.length rest)%nat.
Proof.
  revert s m rest. induction n as [|n IH]; intros s m rest H; cbn in H.
  - now inversion H.
  - destruct s as [|c s]; [discriminate|].
    destruct (is_line_terminator c); [discriminate|].
    destruct (match_dots n s) as [[m' rest']|] eqn:E; [|discriminate].
    inversion H; subst. cbn. f_equal. now apply (IH s m').
Qed.

Lemma hard_wrap_go_fuel (fuel fuel' : nat) (s : string) :
  (String.length s ≤ fuel)%nat → (String.length s ≤ fuel')%nat →
  hard_wrap_go fuel s = hard_wrap_go fuel' s.
Proof.
  revert fuel' s. induction fuel as [|fuel IH]; intros [|fuel'] s H1 H2.
  - reflexivity.
  - destruct s; [reflexivity | cbn in H1; lia].
  - destruct s; [reflexivity | cbn in H2; lia].
  - cbn [hard_wrap_go].
    destruct (match_dots 120 s) as [[m rest]|] eqn:E.
    + apply match_dots_length in E.
      rewrite (IH fuel' rest) by lia. reflexivity.
    + destruct s as [|c s]; [reflexivity|].
      cbn in H1, H2. rewrite (IH fuel' s) by lia. reflexivity.
Qed.

(** * The writer's record and its way back *)

Section Encoding.

Context (P : Platform).

Lemma template_plain_emitted (data : list byte) :
  template_plain (nl +:+ wrapped_encoding P data) = true.
Proof.
  unfold template_plain. rewrite all_chars_app. apply andb_true_intro.
  split; [reflexivity|].
  unfold wrapped_encoding, hard_wrap.
  apply template_plain_hard_wrap_go.
  destruct (shouldCompress P data); apply template_plain_encodeBase64.
Qed.

Lemma module_default_emitted (data : list byte) :
  module_default (emitted_literal P data)
  = Some {| size := length data;
            encoded := nl +:+ wrapped_encoding P data;
            compression := if shouldCompress P data then Some "gzip" else None;
            eTag := None;
            atime := None;
            mtime := None |}.
Proof.
  pose proof (template_plain_emitted data) as Hplain.
  unfold template_plain in Hplain.
  unfold emitted_literal, module_default.
  destruct (shouldCompress P data);
    cbn [property String.eqb Ascii.eqb Bool.eqb mbind option_bind literal_text];
    cbn; rewrite Hplain; reflexivity.
Qed.

(** The text [writeFile] prints is the object literal, property by
    property. *)
Lemma outLines_print (data : list byte) :
  outLines P data = print_module (emitted_literal P data).
Proof.
  unfold outLines, emitted_literal, print_module.
  destruct (shouldCompress P data);
    cbn [map app]; unfold print_property, print_literal; cbn [fst snd];
    rewrite !string_app_assoc; reflexivity.
Qed.

Lemma encoded_emitted (data : list byte) :
  Base64.decodeBase64 (nl +:+ wrapped_encoding P data)
  = Some (if shouldCompress P data then compress P data "gzip" else data).
Proof.
  unfold wrapped_encoding. rewrite decodeBase64_hard_wrap.
  destruct (shouldCompress P data); apply decodeBase64_encodeBase64.
Qed.

Lemma shouldCompress_gain (data : list byte) :
  shouldCompress P data = true
  ↔ 200 ≤ Z.of_nat (length data) - Z.of_nat (length (compress P data "gzip")).
Proof.
  unfold shouldCompress, minCompressionGainBytes.
  destruct (Z.geb_spec (Z.of_nat (length data) - Z.of_nat (length (compress P data "gzip"))) 200);
    split; intros; try lia; try discriminate; reflexivity.
Qed.

Lemma read_back_content (meta : FileMeta) (log : list event) (bytes : list byte) :
  meta_content P meta = Some bytes →
  fst (read_back P meta log) = Ok bytes.
Proof.
  unfold meta_content, read_back, File_new, decodeBase64, File_bytes, decompress,
    bind, ret, throw, tick, modify.
  destruct (Base64.decodeBase64 (encoded meta)) as [stored|]; [|discriminate].
  cbn. destruct (Str.opt_truthy (compression meta)); cbn.
  - intros ->. reflexivity.
  - now intros [= ->].
Qed.

Lemma roundtrip_core (data : list byte) :
  (shouldCompress P data = true →
   decompress_stream P "gzip" (compress P data "gzip") = Some data) →
  ∀ meta, module_default (emitted_literal P data) = Some meta →
  meta_content P meta = Some data.
Proof.
  intros Hcodec meta. rewrite module_default_emitted. intros [= <-].
  unfold meta_content. cbn [encoded compression]. rewrite encoded_emitted.
  destruct (shouldCompress P data); cbn; [now apply Hcodec | reflexivity].
Qed.

Lemma shouldCompress_empty : shouldCompress P [] = false.
Proof.
  destruct (shouldCompress P []) eqn:E; [|reflexivity].
  apply shouldCompress_gain in E. cbn in E. lia.
Qed.

(** The empty buffer is stored raw and reads back empty, whatever the
    compressor does. *)
Lemma roundtrip_empty (log : list event) :
  ∃ meta,
    module_default (emitted_literal P []) = Some meta
    ∧ compression meta = None
    ∧ fst (read_back P meta log) = Ok [].
Proof.
  eexists. split; [apply module_default_emitted|]. split.
  - cbn. now rewrite shouldCompress_empty.
  - apply read_back_content. apply (roundtrip_core []).
    + rewrite shouldCompress_empty. discriminate.
    + apply module_default_emitted.
Qed.

(** C1. Encoding a buffer as [writeFile] does (gzip candidate, selection
    by gain, base64, hard wrap at 120 columns) and reading the emitted
    record back through [new File(meta).bytes()] yields the buffer, given
    that the platform's decompressor undoes its compressor on this buffer
    when the compressed candidate is the one stored; the wrapped text
    decodes to what the unwrapped text decodes to; and the empty buffer
    reads back empty with no condition on the platform. *)
Theorem encode_decode_roundtrip (data : list byte) (log : list event) :
  (shouldCompress P data = true →
   decompress_stream P "gzip" (compress P data "gzip") = Some data) →
  (∃ meta,
     module_default (emitted_literal P data) = Some meta
     ∧ fst (read_back P meta log) = Ok data
     ∧ Base64.decodeBase64 (encoded meta)
       = Base64.decodeBase64
           (Base64.encodeBase64
              (if shouldCompress P data then compress P data "gzip" else data)))
  ∧ (∃ meta,
       module_default (emitted_literal P []) = Some meta
       ∧ fst (read_back P meta log) = Ok []).
Proof.
  intros Hcodec. split.
  - eexists. split; [apply module_default_emitted|]. split.
    + apply read_back_content. apply (roundtrip_core data Hcodec).
      apply module_default_emitted.
    + cbn [encoded]. rewrite encoded_emitted. symmetry.
      apply decodeBase64_encodeBase64.
  - destruct (roundtrip_empty log) as (meta & Hm & _ & Hr). eauto.
Qed.

(** C4. The emitted record carries the compression tag exactly when the
    gain is at least 200 bytes; [size] is the length of the input; and
    [encoded] holds the compressed bytes when the tag is present and the
    raw bytes otherwise. *)
Theorem compression_selection (data : list byte) :
  ∃ meta,
    module_default (emitted_literal P data) = Some meta
    ∧ outLines P data = print_module (emitted_literal P data)
    ∧ (compression meta = Some "gzip"
       ↔ 200 ≤ Z.of_nat (length data) - Z.of_nat (length (compress P data "gzip")))
    ∧ (compression meta = None
       ↔ Z.of_nat (length data) - Z.of_nat (length (compress P data "gzip")) < 200)
    ∧ size meta = length data
    ∧ Base64.decodeBase64 (encoded meta)
      = Some (match compression meta with
              | Some _ => compress P data "gzip"
              | None => data
              end).
Proof.
  eexists. split; [apply module_default_emitted|].
  split; [apply outLines_print|].
  cbn [compression size encoded]. rewrite encoded_emitted.
  pose proof (shouldCompress_gain data) as Hg.
  destruct (shouldCompress P data).
  - assert (Hge : 200 ≤ Z.of_nat (length data)
                        - Z.of_nat (length (compress P data "gzip")))
      by now apply Hg.
    repeat split; intros; try discriminate; try lia; reflexivity.
  - assert (Hlt : Z.of_nat (length data)
                    - Z.of_nat (length (compress P data "gzip")) < 200).
    { apply Z.lt_nge. intros Hge. apply Hg in Hge. discriminate. }
    repeat split; intros; try discriminate; try lia; reflexivity.
Qed.

End Encoding.

(** * The store and the responder *)

Section Serving.

Context (P : Platform).

Lemma embeds_property_own (embeds : EmbedsDef) (k : string) (meta : FileMeta) :
  embeds !! k = Some meta → embeds_property embeds k = Own meta.
Proof. intros H. unfold embeds_property. now rewrite H. Qed.

Lemma embeds_property_unknown (embeds : EmbedsDef) (k : string) :
  embeds !! k = None → k ∉ Object_prototype_names →
  embeds_property embeds k = Undefined.
Proof.
  intros H Hk. unfold embeds_property. rewrite H.
  now rewrite bool_decide_eq_false_2.
Qed.

Lemma Embeds_stat_own (embeds : EmbedsDef) (k : string) (meta : FileMeta) log :
  embeds !! k = Some meta → Embeds_stat P embeds k log = (Ok (Some meta), log).
Proof.
  intros H. unfold Embeds_stat. now rewrite (embeds_property_own _ _ _ H).
Qed.


Lemma Embeds_get_content (embeds : EmbedsDef) (k : string) (meta : FileMeta)
  (bytes : list byte) log :
  embeds !! k = Some meta → meta_content P meta = Some bytes →
  ∃ file log1 file1 log2,
    Embeds_get P embeds k log = (Ok (Some file), log1)
    ∧ File_bytes P file log1 = (Ok (bytes, file1), log2).
Proof.
  intros H Hc. unfold Embeds_get. rewrite (embeds_property_own _ _ _ H).
  unfold meta_content in Hc.
  unfold import_default, File_of_default, File_new, decodeBase64, File_bytes,
    decompress, bind, ret, throw, tick, modify. cbn.
  destruct (Base64.decodeBase64 (encoded meta)) as [stored|]; [|discriminate].
  cbn. destruct (Str.opt_truthy (compression meta)) eqn:Ht.
  - do 4 eexists. split; [reflexivity|]. cbn. rewrite Ht, Hc. reflexivity.
  - inversion Hc; subst. do 4 eexists. split; [reflexivity|].
    cbn. rewrite Ht. reflexivity.
Qed.

(** *** Header text *)

Lemma all_chars_impl (f g : ascii → bool) (s : string) :
  (∀ c, f c = true → g c = true) → all_chars f s = true → all_chars g s = true.
Proof.
  intros Hfg. induction s as [|c s IH]; [reflexivity|].
  cbn [all_chars]. intros [Hc Hs]%andb_prop.
  now rewrite (Hfg c Hc), (IH Hs).
Qed.

Lemma all_chars_http_trim_start (f : ascii → bool) (s : string) :
  all_chars f s = true → all_chars f (http_trim_start s) = true.
Proof.
  induction s as [|c s IH]; [reflexivity|].
  cbn [http_trim_start]. destruct (is_http_whitespace c); [|auto].
  cbn [all_chars]. intros [_ Hs]%andb_prop. auto.
Qed.

Lemma all_chars_http_trim_end (f : ascii → bool) (s : string) :
  all_chars f s = true → all_chars f (http_trim_end s) = true.
Proof.
  induction s as [|c s IH]; [reflexivity|].
  cbn [http_trim_end all_chars]. intros [Hc Hs]%andb_prop.
  specialize (IH Hs).
  destruct (http_trim_end s) as [|d r].
  - destruct (is_http_whitespace c); [reflexivity|]. cbn. now rewrite Hc.
  - cbn [all_chars] in *. now rewrite Hc, IH.
Qed.

Lemma header_text_ok_plain (value : string) :
  is_header_value value = true → header_text_ok value = true.
Proof.
  intros H. unfold header_text_ok, normalize_header_value, is_header_value in *.
  now apply all_chars_http_trim_start, all_chars_http_trim_end.
Qed.

Lemma string_of_uint_digits (u : Decimal.uint) :
  all_chars is_digit (NilEmpty.string_of_uint u) = true.
Proof. induction u; cbn; auto. Qed.

(** The content length is always legal header text. *)
Lemma header_text_ok_decimal (n : nat) : header_text_ok (decimal n) = true.
Proof.
  apply header_text_ok_plain. unfold is_header_value, decimal.
  apply (all_chars_impl is_digit); [|apply string_of_uint_digits].
  intros [[] [] [] [] [] [] [] []]; vm_compute; intros H;
    first [reflexivity | discriminate H].
Qed.

Lemma Headers_set_ok (h : Headers) (name value : string) :
  header_text_ok value = true →
  Headers_set h name value = Ok (Headers_put h name (normalize_header_value value)).
Proof. intros H. unfold Headers_set. unfold header_text_ok in H. now rewrite H. Qed.

(** Legal validators can be set. *)
Lemma validator_headers_ok (meta : FileMeta) :
  legal_validators P meta = true → ∃ h, validator_headers P meta = Ok h.
Proof.
  unfold legal_validators, validator_headers.
  intros [[Ha Hm]%andb_prop He]%andb_prop.
  destruct (atime meta) as [ta|]; [rewrite (Headers_set_ok _ _ _ Ha)|];
    cbn [and_then];
    (destruct (mtime meta) as [tm|]; [rewrite (Headers_set_ok _ _ _ Hm)|]);
    cbn [and_then];
    (destruct (Str.opt_truthy (eTag meta)); [rewrite (Headers_set_ok _ _ _ He)|]);
    eauto.
Qed.

(** So can the content type and the content length. *)
Lemma entity_headers_ok (filePath : string) (meta : FileMeta) (h : Headers) :
  legal_media_type P filePath = true →
  ∃ h', entity_headers P filePath meta h = Ok h'.
Proof.
  unfold legal_media_type, entity_headers. intros Hct.
  destruct (contentType P (extname P filePath)) as [ct|];
    [rewrite (Headers_set_ok _ _ _ Hct)|]; cbn [and_then];
    rewrite (Headers_set_ok _ _ _ (header_text_ok_decimal _)); eauto.
Qed.

(** The response of [serveFile] when the conditional test succeeds. *)
Lemma serveFile_not_modified (embeds : EmbedsDef) (req : Request)
  (filePath : string) (optMeta : option FileMeta) (meta : FileMeta) log
  (h : Headers) :
  optMeta = Some meta ∨ (optMeta = None ∧ embeds !! filePath = Some meta) →
  validator_headers P meta = Ok h →
  not_modified P req meta = true →
  serveFile P embeds req filePath optMeta log
  = (Ok {| status := 304; statusText := "Not Modified";
           headers := h; body := BodyNull |}, log).
Proof.
  intros Hres Hh Hnm. unfold serveFile, bind, lift.
  destruct Hres as [-> | [-> Hk]].
  - cbn. now rewrite Hh, Hnm.
  - rewrite (Embeds_stat_own _ _ _ _ Hk). now rewrite Hh, Hnm.
Qed.

(** The response of [serveFile] when the conditional test fails and the
    record decodes. *)
Lemma serveFile_full (embeds : EmbedsDef) (req : Request)
  (filePath : string) (optMeta : option FileMeta) (meta : FileMeta)
  (bytes : list byte) log (h h' : Headers) :
  embeds !! filePath = Some meta →
  optMeta = None ∨ optMeta = Some meta →
  validator_headers P meta = Ok h →
  entity_headers P filePath meta h = Ok h' →
  not_modified P req meta = false →
  meta_content P meta = Some bytes →
  ∃ log',
    serveFile P embeds req filePath optMeta log
    = (Ok {| status := 200; statusText := "OK";
             headers := h'; body := BodyBytes bytes |}, log').
Proof.
  intros Hk Hopt Hh Hh' Hnm Hc.
  destruct (Embeds_get_content embeds filePath meta bytes log Hk Hc)
    as (file & log1 & file1 & log2 & Hget & Hbytes).
  unfold serveFile, bind, lift.
  assert (Hstat :
    (match optMeta with
     | Some m => ret (Some m)
     | None => Embeds_stat P embeds filePath
     end) log = (Ok (Some meta), log)).
  { destruct Hopt as [-> | ->]; [now apply Embeds_stat_own | reflexivity]. }
  rewrite Hstat, Hh, Hnm, Hh', Hget, Hbytes. cbn. eauto.
Qed.

(** When the validators cannot be set, [serveFile] throws. *)
Lemma serveFile_illegal (embeds : EmbedsDef) (req : Request)
  (filePath : string) (optMeta : option FileMeta) (meta : FileMeta) log
  (e : js_error) :
  optMeta = Some meta ∨ (optMeta = None ∧ embeds !! filePath = Some meta) →
  validator_headers P meta = Throw e →
  serveFile P embeds req filePath optMeta log = (Throw e, log).
Proof.
  intros Hres Hh. unfold serveFile, bind, lift.
  destruct Hres as [-> | [-> Hk]].
  - cbn. now rewrite Hh.
  - rewrite (Embeds_stat_own _ _ _ _ Hk). now rewrite Hh.
Qed.

(** A tag that is not header text: [serveFile] throws before it reaches
    the conditional test, whatever the request asks. *)
Example serveFile_illegal_tag :
  serveFile Demo.platform {[ "hello.txt" := Sample.broken_meta ]}
    (Demo.request "/hello.txt" [("if-none-match", "*")]) "hello.txt" None []
  = (Throw TypeError, []).
Proof. vm_compute. reflexivity. Qed.

(** The conditional test, when the request names an entity tag: only the
    tag comparison counts. *)
Lemma not_modified_if_none_match (req : Request) (meta : FileMeta) (v : string) :
  Headers_get (req_headers req) "if-none-match" = Some v →
  not_modified P req meta
  = (Str.opt_truthy (eTag meta) || bool_decide (is_Some (mtime meta)))
    && negb (ifNoneMatch (Some v) (eTag meta)).
Proof.
  intros Hv. unfold not_modified. rewrite Hv.
  destruct (Str.opt_truthy (eTag meta) || bool_decide (is_Some (mtime meta)));
    [|reflexivity].
  cbn [andb]. rewrite bool_decide_eq_false_2 by discriminate.
  cbn [andb]. now rewrite orb_false_r.
Qed.

Lemma ifNoneMatch_false_truthy (v : option string) (etag : option string) :
  ifNoneMatch v etag = false → Str.opt_truthy etag = true.
Proof.
  unfold ifNoneMatch. destruct v as [v|], etag as [etag|]; try discriminate.
  cbn. destruct (Str.truthy etag); [reflexivity|].
  rewrite orb_true_r. discriminate.
Qed.

(** C3. A request that carries if-none-match and matches the stored tag is
    answered 304 with no body and with the validators of the record as
    headers, whatever if-modified-since says, the validators being legal
    header text; and when if-none-match is present the outcome does not
    depend on if-modified-since at all. *)
Theorem if_none_match_governs (embeds : EmbedsDef) (req : Request)
  (filePath : string) (optMeta : option FileMeta) (meta : FileMeta)
  (log : list event) (v : string) :
  optMeta = Some meta ∨ (optMeta = None ∧ embeds !! filePath = Some meta) →
  Headers_get (req_headers req) "if-none-match" = Some v →
  (legal_validators P meta = true →
   ifNoneMatch (Some v) (eTag meta) = false →
   ∃ h,
     validator_headers P meta = Ok h
     ∧ serveFile P embeds req filePath optMeta log
       = (Ok {| status := 304; statusText := "Not Modified";
                headers := h; body := BodyNull |}, log))
  ∧ (∀ req' : Request,
       (∀ name, name ≠ "if-modified-since" →
                Headers_get (req_headers req') name = Headers_get (req_headers req) name) →
       serveFile P embeds req' filePath optMeta log
       = serveFile P embeds req filePath optMeta log).
Proof.
  intros Hres Hv. split.
  - intros Hlegal Hmatch.
    destruct (validator_headers_ok meta Hlegal) as [h Hh].
    exists h. split; [exact Hh|].
    apply (serveFile_not_modified embeds req filePath optMeta meta log h Hres Hh).
    rewrite (not_modified_if_none_match _ _ _ Hv), Hmatch.
    now rewrite (ifNoneMatch_false_truthy _ _ Hmatch).
  - intros req' Hsame.
    assert (Hv' : Headers_get (req_headers req') "if-none-match" = Some v)
      by (rewrite Hsame; [assumption | discriminate]).
    unfold serveFile, bind.
    destruct ((match optMeta with
               | Some m => ret (Some m)
               | None => Embeds_stat P embeds filePath
               end) log) as [[[m|]|e] log1]; try reflexivity.
    unfold lift. destruct (validator_headers P m); [|reflexivity].
    now rewrite (not_modified_if_none_match _ _ _ Hv),
      (not_modified_if_none_match _ _ _ Hv').
Qed.

(** The conditional test, when the request names no entity tag and gives
    a date. *)
Lemma not_modified_if_modified_since (req : Request) (meta : FileMeta)
  (since : string) (t m : Z) :
  Headers_get (req_headers req) "if-none-match" = None →
  Headers_get (req_headers req) "if-modified-since" = Some since →
  since ≠ "" →
  Date_parse P since = Some t →
  mtime meta = Some (Some m) →
  not_modified P req meta = (m <? t + 1000).
Proof.
  intros Hn Hs Hne Ht Hm. unfold not_modified. rewrite Hn, Hs, Hm, Ht.
  rewrite (bool_decide_eq_true_2 (is_Some _)) by eauto.
  rewrite orb_true_r.
  assert (Hno : ifNoneMatch None (eTag meta) = true) by reflexivity.
  rewrite Hno. cbn [negb orb]. rewrite bool_decide_eq_true_2 by reflexivity.
  destruct since; [congruence|]. reflexivity.
Qed.

(** C7, as the code has it. With if-modified-since alone, a record with a
    modification time is answered 304 exactly when that time is strictly
    earlier than the requested time plus 1000 ms: a requested time
    strictly after (mtime - 1 s) gives 304, a requested time at or before
    (mtime - 1 s) gives 200 with the full body.  The validators of the
    record and the media type of the path are legal header text. *)
Theorem if_modified_since_boundary (embeds : EmbedsDef) (req : Request)
  (filePath : string) (optMeta : option FileMeta) (meta : FileMeta)
  (log : list event) (since : string) (t m : Z) (bytes : list byte) :
  embeds !! filePath = Some meta →
  optMeta = None ∨ optMeta = Some meta →
  Headers_get (req_headers req) "if-none-match" = None →
  Headers_get (req_headers req) "if-modified-since" = Some since →
  since ≠ "" →
  Date_parse P since = Some t →
  mtime meta = Some (Some m) →
  meta_content P meta = Some bytes →
  legal_validators P meta = true →
  legal_media_type P filePath = true →
  ∃ h h',
    validator_headers P meta = Ok h
    ∧ entity_headers P filePath meta h = Ok h'
    ∧ (m - 1000 < t →
       serveFile P embeds req filePath optMeta log
       = (Ok {| status := 304; statusText := "Not Modified";
                headers := h; body := BodyNull |}, log))
    ∧ (t ≤ m - 1000 →
       ∃ log',
         serveFile P embeds req filePath optMeta log
         = (Ok {| status := 200; statusText := "OK";
                  headers := h'; body := BodyBytes bytes |}, log')).
Proof.
  intros Hk Hopt Hn Hs Hne Ht Hm Hc Hlegal Hmedia.
  pose proof (not_modified_if_modified_since req meta since t m Hn Hs Hne Ht Hm) as Hnm.
  destruct (validator_headers_ok meta Hlegal) as [h Hh].
  destruct (entity_headers_ok filePath meta h Hmedia) as [h' Hh'].
  exists h, h'. split; [exact Hh|]. split; [exact Hh'|].
  split; intros Hcmp.
  - apply (serveFile_not_modified embeds req filePath optMeta meta log h);
      [|exact Hh|].
    + destruct Hopt as [-> | ->]; auto.
    + rewrite Hnm. apply Z.ltb_lt. lia.
  - apply (serveFile_full embeds req filePath optMeta meta bytes log h h');
      try assumption.
    rewrite Hnm. apply Z.ltb_ge. lia.
Qed.

(** C9, as the code has it. For a path that is neither a key of the
    registry nor a name inherited from [Object.prototype], [stat] and
    [get] return null without decoding anything, [load] throws, and
    [serveFile] answers 404 with neither an entity tag nor a modification
    date. *)
Theorem unknown_path (embeds : EmbedsDef) (req : Request) (filePath : string)
  (log : list event) :
  embeds !! filePath = None →
  filePath ∉ Object_prototype_names →
  Embeds_stat P embeds filePath log = (Ok None, log)
  ∧ Embeds_get P embeds filePath log = (Ok None, log)
  ∧ Embeds_load P embeds filePath log = (Throw TypeError, log)
  ∧ ∃ resp,
      serveFile P embeds req filePath None log = (Ok resp, log)
      ∧ status resp = 404
      ∧ Headers_get (headers resp) "etag" = None
      ∧ Headers_get (headers resp) "last-modified" = None.
Proof.
  intros Hk Hproto.
  pose proof (embeds_property_unknown embeds filePath Hk Hproto) as Hu.
  unfold Embeds_stat, Embeds_get, Embeds_load, serveFile, bind.
  unfold Embeds_stat. rewrite Hu. cbn.
  repeat split. eexists. repeat split.
Qed.




End Serving.

Section Fresh.

Context (P : Platform).

Lemma Embeds_stat_some (embeds : EmbedsDef) (k : string) (m : FileMeta) log log' :
  Embeds_stat P embeds k log = (Ok (Some m), log') → embeds !! k = Some m.
Proof.
  unfold Embeds_stat, embeds_property, import_default.
  destruct (embeds !! k) as [m'|]; [now intros [= ->]|].
  destruct (bool_decide _); [|discriminate].
  destruct (prototype_call P k); discriminate.
Qed.

Lemma fresh_record_fields (meta : FileMeta) :
  fresh_record P meta → eTag meta = None ∧ atime meta = None ∧ mtime meta = None.
Proof.
  intros [data H]. rewrite module_default_emitted in H.
  inversion H; subst. auto.
Qed.

Lemma no_validators_standard (status : Z) :
  no_validators (headers (createStandardResponse status)).
Proof. repeat split. Qed.

Lemma filter_name_delete (h : Headers) (n k : string) :
  k ≠ n →
  filter (λ kv : string * string, kv.1 = k) (Headers_delete h n)
  = filter (λ kv : string * string, kv.1 = k) h.
Proof.
  intros Hne. unfold Headers_delete.
  induction h as [|[k0 v0] h IH]; [reflexivity|].
  rewrite !filter_cons. cbn [fst].
  destruct (decide (k0 ≠ n)) as [Hk0|Hk0].
  - rewrite filter_cons. cbn [fst]. now rewrite IH.
  - assert (k0 = n) as -> by (destruct (decide (k0 = n)); [assumption | contradiction]).
    destruct (decide (n = k)) as [->|_]; [contradiction | exact IH].
Qed.

Lemma Headers_get_put_ne (h : Headers) (n v k : string) :
  k ≠ n → Headers_get (Headers_put h n v) k = Headers_get h k.
Proof.
  intros Hne. unfold Headers_get.
  assert (H : filter (λ kv : string * string, kv.1 = k) (Headers_put h n v)
              = filter (λ kv : string * string, kv.1 = k) h);
    [|now rewrite H].
  induction h as [|[k0 v0] h IH]; cbn [Headers_put].
  - rewrite filter_cons. cbn [fst].
    destruct (decide (n = k)) as [->|_]; [contradiction | reflexivity].
  - destruct (String.eqb_spec k0 n) as [->|Hk0].
    + rewrite !filter_cons. cbn [fst].
      destruct (decide (n = k)) as [->|_]; [contradiction|].
      now apply filter_name_delete.
    + rewrite !filter_cons. cbn [fst]. now rewrite IH.
Qed.

Lemma Headers_get_app_ne (h : Headers) (n v k : string) :
  k ≠ n → Headers_get (h ++ [(n, v)]) k = Headers_get h k.
Proof.
  intros Hne. unfold Headers_get. rewrite filter_app, filter_cons. cbn [fst].
  destruct (decide (n = k)) as [->|_]; [contradiction|].
  rewrite filter_nil. now rewrite app_nil_r.
Qed.

(** Setting or appending a header of another name keeps the validators
    absent. *)
Lemma no_validators_set (h h' : Headers) (n v : string) :
  n ∉ ["etag"; "last-modified"; "date"] →
  Headers_set h n v = Ok h' → no_validators h → no_validators h'.
Proof.
  intros Hn. unfold Headers_set.
  destruct (is_header_value _); [|discriminate]. intros [= <-].
  unfold no_validators.
  rewrite !Headers_get_put_ne; [tauto|..];
    intros E; subst n; apply Hn; rewrite !elem_of_cons; tauto.
Qed.

Lemma no_validators_append (h h' : Headers) (n v : string) :
  n ∉ ["etag"; "last-modified"; "date"] →
  Headers_append h n v = Ok h' → no_validators h → no_validators h'.
Proof.
  intros Hn. unfold Headers_append.
  destruct (is_header_value _); [|discriminate]. intros [= <-].
  unfold no_validators.
  rewrite !Headers_get_app_ne; [tauto|..];
    intros E; subst n; apply Hn; rewrite !elem_of_cons; tauto.
Qed.

Lemma no_validators_append_all (extra h h' : Headers) :
  (∀ name, name ∈ map fst extra → name ∉ ["etag"; "last-modified"; "date"]) →
  append_all h extra = Ok h' → no_validators h → no_validators h'.
Proof.
  revert h. induction extra as [|[key value] extra IH]; intros h Hnames.
  - cbn. now intros [= <-].
  - cbn [append_all].
    destruct (Headers_append h key value) as [h1|e] eqn:E; [|discriminate].
    cbn [and_then]. intros Hrest Hh.
    apply (IH h1); [|exact Hrest|].
    + intros name Hin. apply Hnames. cbn [map fst]. rewrite elem_of_cons. tauto.
    + apply (no_validators_append h h1 key value); [|exact E|exact Hh].
      apply Hnames. cbn [map fst]. rewrite elem_of_cons. tauto.
Qed.

(** [serveFile] on a record without validators: never 304, and no
    validator among the response headers. *)
Lemma serveFile_fresh (embeds : EmbedsDef) (req : Request) (filePath : string)
  (optMeta : option FileMeta) log (resp : Response) log' :
  (∀ k m, embeds !! k = Some m → fresh_record P m) →
  (∀ m, optMeta = Some m → fresh_record P m) →
  serveFile P embeds req filePath optMeta log = (Ok resp, log') →
  status resp ≠ 304 ∧ no_validators (headers resp).
Proof.
  intros Hreg Hopt. unfold serveFile, bind.
  destruct ((match optMeta with
             | Some m => ret (Some m)
             | None => Embeds_stat P embeds filePath
             end) log) as [[[meta|]|e] log1] eqn:Hstat; [| |discriminate].
  - assert (Hfresh : fresh_record P meta).
    { destruct optMeta as [m|].
      - inversion Hstat; subst. now apply Hopt.
      - apply Embeds_stat_some in Hstat. now apply (Hreg filePath). }
    destruct (fresh_record_fields meta Hfresh) as (He & Ha & Hm).
    unfold not_modified, validator_headers. rewrite He, Ha, Hm.
    cbn [Str.opt_truthy orb and_then lift].
    rewrite bool_decide_eq_false_2 by (intros [? ?]; discriminate).
    unfold lift.
    destruct (entity_headers P filePath meta createBaseHeaders) as [h'|e] eqn:Hent;
      [|discriminate].
    assert (Hnv : no_validators h').
    { unfold entity_headers in Hent.
      assert (Hbase : no_validators createBaseHeaders) by (repeat split).
      destruct (contentType P (extname P filePath)) as [ct|].
      - destruct (Headers_set createBaseHeaders "content-type" ct) as [h1|e] eqn:E1;
          [|discriminate].
        cbn [and_then] in Hent.
        eapply no_validators_set; [|exact Hent|].
        + rewrite !elem_of_cons, elem_of_nil. intros [|[|[|[]]]]; discriminate.
        + eapply no_validators_set; [|exact E1|exact Hbase].
          rewrite !elem_of_cons, elem_of_nil. intros [|[|[|[]]]]; discriminate.
      - cbn [and_then] in Hent.
        eapply no_validators_set; [|exact Hent|exact Hbase].
        rewrite !elem_of_cons, elem_of_nil. intros [|[|[|[]]]]; discriminate. }
    destruct (Embeds_get P embeds filePath log1) as [[[file|]|e] log2];
      [| |discriminate].
    + destruct (File_bytes P file log2) as [[[bytes file1]|e] log3]; [|discriminate].
      unfold ret. intros [= <- <-].
      split; [discriminate | exact Hnv].
    + unfold ret. intros [= <- <-]. split; [discriminate|].
      apply no_validators_standard.
  - unfold ret. intros [= <- <-]. split; [discriminate|].
    apply no_validators_standard.
Qed.

Lemma createServeDirResponse_fresh (embeds : EmbedsDef) (req : Request)
  (opts : ServeDirOptions) log (resp : Response) log' :
  (∀ k m, embeds !! k = Some m → fresh_record P m) →
  createServeDirResponse P embeds req opts log = (Ok resp, log') →
  status resp ≠ 304 ∧ no_validators (headers resp).
Proof.
  intros Hreg.
  unfold createServeDirResponse, bind.
  destruct (decodeURIComponent P (pathname (url req))) as [decoded|];
    [|discriminate].
  cbn [ret].
  destruct (Str.opt_truthy (urlRoot opts) && _).
  { intros [= <- <-]. split; [discriminate | apply no_validators_standard]. }
  destruct (negb (String.eqb (Path.normalize decoded) decoded)).
  { intros [= <- <-]. split; [discriminate | repeat split]. }
  match goal with
  | |- context [Embeds_stat P embeds ?p log] =>
      destruct (Embeds_stat P embeds p log) as [[om|e] log1] eqn:Hstat;
        [|discriminate]
  end.
  apply serveFile_fresh; [assumption|].
  intros m ->. apply Embeds_stat_some in Hstat. now apply Hreg in Hstat.
Qed.

Lemma serveFallback_status (e : js_error) :
  status (serveFallback e) ≠ 304 ∧ no_validators (headers (serveFallback e)).
Proof. destruct e; split; try discriminate; apply no_validators_standard. Qed.

Lemma Headers_append_ok (h : Headers) (name value : string) :
  header_text_ok value = true →
  Headers_append h name value = Ok (h ++ [(name, normalize_header_value value)]).
Proof. intros H. unfold Headers_append. unfold header_text_ok in H. now rewrite H. Qed.

(** The last step of [serveDir], on a response [r] that is known to be
    free of validators. *)
Ltac extra_headers_step r Hst Hnv Hextra :=
  let extra := fresh "extra" in
  let Hopt := fresh "Hopt" in
  let Happ := fresh "Happ" in
  destruct (opt_headers _) as [extra|] eqn:Hopt;
  [ destruct (negb (isRedirectStatus _));
    [ destruct (append_all (headers r) extra) as [?h|?e] eqn:Happ; [|discriminate];
      intros [= <- <-]; cbn [status headers with_headers]; split; [exact Hst|];
      eapply no_validators_append_all; [now apply Hextra | exact Happ | exact Hnv]
    | intros [= <- <-]; split; [exact Hst | exact Hnv] ]
  | intros [= <- <-]; split; [exact Hst | exact Hnv] ].

Lemma serveDir_fresh (embeds : EmbedsDef) (req : Request)
  (opts : ServeDirOptions) log (resp : Response) log' :
  (∀ k m, embeds !! k = Some m → fresh_record P m) →
  (∀ extra, opt_headers opts = Some extra →
            ∀ name, name ∈ map fst extra → name ∉ ["etag"; "last-modified"; "date"]) →
  serveDir P embeds req opts log = (Ok resp, log') →
  status resp ≠ 304 ∧ no_validators (headers resp).
Proof.
  intros Hreg Hextra. unfold serveDir. unfold bind at 1. unfold try_catch.
  destruct (createServeDirResponse P embeds req opts log) as [[r0|e] l] eqn:E;
    [ destruct (createServeDirResponse_fresh embeds req opts log r0 l Hreg E) as [Hst Hnv]
    | destruct (serveFallback_status e) as [Hst Hnv]; cbn [ret];
      set (r0 := serveFallback e) in * ].
  all: unfold bind, lift, ret.
  all: destruct (enableCors opts && negb (isRedirectStatus (status r0)));
    [ rewrite !Headers_append_ok by reflexivity;
      match goal with
      | |- context [with_headers ?r ?h] =>
          assert (Hnv1 : no_validators (headers (with_headers r h)))
            by (cbn [headers with_headers]; unfold no_validators in *;
                rewrite !Headers_get_app_ne by discriminate; exact Hnv);
          assert (Hst1 : status (with_headers r h) ≠ 304) by exact Hst;
          set (r1 := with_headers r h) in *
      end;
      extra_headers_step r1 Hst1 Hnv1 Hextra
    | extra_headers_step r0 Hst Hnv Hextra ].
Qed.

(** C10. The writer emits only [size], [compression] and [encoded]; so a
    registry of freshly generated records never yields 304, and no
    response to it carries an entity tag, a modification date or a date,
    from [serveFile], from [createServeDirResponse] and, when the
    configured extra headers name none of the three, from [serveDir]. *)
Theorem fresh_manifest_has_no_validators :
  (∀ data : list byte,
     (∀ k, k ∈ map fst (emitted_literal P data) →
           k ∈ ["size"; "compression"; "encoded"])
     ∧ ∃ meta, module_default (emitted_literal P data) = Some meta
               ∧ eTag meta = None ∧ atime meta = None ∧ mtime meta = None)
  ∧ (∀ (embeds : EmbedsDef) (req : Request) (filePath : string)
       (log : list event) (resp : Response) (log' : list event),
       (∀ k m, embeds !! k = Some m → fresh_record P m) →
       serveFile P embeds req filePath None log = (Ok resp, log') →
       status resp ≠ 304 ∧ no_validators (headers resp))
  ∧ (∀ (embeds : EmbedsDef) (req : Request) (opts : ServeDirOptions)
       (log : list event) (resp : Response) (log' : list event),
       (∀ k m, embeds !! k = Some m → fresh_record P m) →
       createServeDirResponse P embeds req opts log = (Ok resp, log') →
       status resp ≠ 304 ∧ no_validators (headers resp))
  ∧ (∀ (embeds : EmbedsDef) (req : Request) (opts : ServeDirOptions)
       (log : list event) (resp : Response) (log' : list event),
       (∀ k m, embeds !! k = Some m → fresh_record P m) →
       (∀ extra, opt_headers opts = Some extra →
                 ∀ name, name ∈ map fst extra →
                         name ∉ ["etag"; "last-modified"; "date"]) →
       serveDir P embeds req opts log = (Ok resp, log') →
       status resp ≠ 304 ∧ no_validators (headers resp)).
Proof.
  split; [|split; [|split]].
  - intros data. split.
    + unfold emitted_literal. intros k.
      destruct (shouldCompress P data); cbn;
        rewrite !elem_of_cons, !elem_of_nil; tauto.
    + eexists. split; [apply module_default_emitted|]. auto.
  - intros embeds req filePath log resp log' Hreg.
    apply serveFile_fresh; [assumption | discriminate].
  - intros embeds req opts log resp log'.
    apply createServeDirResponse_fresh.
  - intros embeds req opts log resp log'.
    apply serveDir_fresh.
Qed.


End Fresh.

(** * Facts about paths *)

Lemma is_slash_true (c : ascii) : Str.is_slash c = true → c = "/"%char.
Proof. unfold Str.is_slash. now intros H%Ascii.eqb_eq. Qed.

Lemma split_slash_nonempty (s : string) : Str.split_slash s ≠ [].
Proof.
  induction s as [|c s IH]; cbn; [discriminate|].
  destruct (Str.is_slash c); [discriminate|].
  destruct (Str.split_slash s); discriminate.
Qed.

Lemma split_slash_cons_char (c : ascii) (s : string) :
  Str.is_slash c = false →
  ∃ x r, Str.split_slash s = x :: r ∧ Str.split_slash (String c s) = String c x :: r.
Proof.
  intros Hc. cbn. rewrite Hc.
  destruct (Str.split_slash s) as [|x r] eqn:E; [now apply split_slash_nonempty in E|].
  eauto.
Qed.

Lemma split_slash_no_slash (x : string) :
  Str.no_slash x = true → Str.split_slash x = [x].
Proof.
  induction x as [|c x IH]; [reflexivity|].
  cbn. intros [Hc Hx]%andb_prop. apply negb_true_iff in Hc.
  rewrite Hc, (IH Hx). reflexivity.
Qed.

Lemma split_slash_app (x rest : string) :
  Str.no_slash x = true →
  Str.split_slash (x +:+ "/" +:+ rest) = x :: Str.split_slash rest.
Proof.
  induction x as [|c x IH]; [reflexivity|].
  cbn [Str.no_slash]. intros [Hc Hx]%andb_prop. apply negb_true_iff in Hc.
  rewrite string_app_cons. cbn [Str.split_slash]. rewrite Hc, (IH Hx). reflexivity.
Qed.

Lemma join_slash_cons (x y : string) (l : list string) :
  Str.join_slash (x :: y :: l) = x +:+ "/" +:+ Str.join_slash (y :: l).
Proof. reflexivity. Qed.

Lemma split_join_slash (l : list string) :
  l ≠ [] → Forall (λ x, Str.no_slash x = true) l →
  Str.split_slash (Str.join_slash l) = l.
Proof.
  intros Hne Hl. induction Hl as [|x l Hx Hl IH]; [contradiction|].
  destruct l as [|y l].
  - now apply split_slash_no_slash.
  - rewrite join_slash_cons, split_slash_app by assumption.
    f_equal. now apply IH.
Qed.

Lemma join_split_slash (s : string) : Str.join_slash (Str.split_slash s) = s.
Proof.
  induction s as [|c s IH]; [reflexivity|].
  cbn [Str.split_slash]. destruct (Str.is_slash c) eqn:Hc.
  - apply is_slash_true in Hc. subst c.
    destruct (Str.split_slash s) as [|x r] eqn:E; [now apply split_slash_nonempty in E|].
    rewrite join_slash_cons, IH. reflexivity.
  - destruct (Str.split_slash s) as [|x r] eqn:E; [now apply split_slash_nonempty in E|].
    destruct r as [|y r].
    + cbn in *. now rewrite IH.
    + rewrite join_slash_cons in *. rewrite string_app_cons. now rewrite IH.
Qed.

Lemma split_slash_segments (s : string) :
  Forall (λ x, Str.no_slash x = true) (Str.split_slash s).
Proof.
  induction s as [|c s IH]; [repeat constructor|].
  cbn [Str.split_slash]. destruct (Str.is_slash c) eqn:Hc.
  - constructor; [reflexivity | assumption].
  - destruct (Str.split_slash s) as [|x r]; [repeat constructor; cbn; now rewrite Hc|].
    inversion IH; subst. constructor; [|assumption].
    cbn. now rewrite Hc.
Qed.

Lemma clean_no_slash (l : list string) :
  Forall clean_segment l → Forall (λ x, Str.no_slash x = true) l.
Proof.
  intros H. eapply Forall_impl; [exact H|]. now intros x (_ & _ & _ & Hx).
Qed.

Lemma clean_flags (s : string) :
  clean_segment s →
  Path.is_empty s = false ∧ Path.is_dot s = false ∧ Path.is_dotdot s = false.
Proof.
  intros (H0 & H1 & H2 & _). unfold Path.is_empty, Path.is_dot, Path.is_dotdot.
  repeat split.
  - destruct s; [contradiction | reflexivity].
  - now apply String.eqb_neq.
  - now apply String.eqb_neq.
Qed.

Lemma flags_clean (s : string) :
  Str.no_slash s = true → Path.is_empty s = false → Path.is_dot s = false →
  Path.is_dotdot s = false → clean_segment s.
Proof.
  unfold Path.is_empty, Path.is_dot, Path.is_dotdot. intros Hs H0 H1 H2.
  repeat split; try assumption.
  - intros ->. discriminate.
  - now apply String.eqb_neq.
  - now apply String.eqb_neq.
Qed.

(** Clean segments pass through [normalizeString] unchanged. *)
Lemma normalize_segments_clean (a : bool) (l stack rest : list string) :
  Forall clean_segment l →
  Path.normalize_segments a stack (l ++ rest)
  = Path.normalize_segments a (rev l ++ stack) rest.
Proof.
  intros Hl. revert stack. induction Hl as [|s l Hs _ IH]; intros stack; [reflexivity|].
  cbn [app Path.normalize_segments].
  destruct (clean_flags s Hs) as (-> & -> & ->). cbn [orb].
  rewrite IH. cbn [rev]. now rewrite <- app_assoc.
Qed.

Lemma normalize_segments_id (a : bool) (l : list string) :
  Forall clean_segment l → Path.normalize_segments a [] l = l.
Proof.
  intros Hl. rewrite <- (app_nil_r l) at 1.
  rewrite normalize_segments_clean by assumption.
  cbn. rewrite app_nil_r. apply rev_involutive.
Qed.

(** Below the root, [normalizeString] returns clean segments only. *)
Lemma normalize_segments_output (stack segs : list string) :
  Forall clean_segment stack →
  Forall (λ x, Str.no_slash x = true) segs →
  Forall clean_segment (Path.normalize_segments false stack segs).
Proof.
  intros Hstack Hsegs. revert stack Hstack.
  induction Hsegs as [|s segs Hs _ IH]; intros stack Hstack.
  - cbn. now apply Forall_rev.
  - cbn [Path.normalize_segments].
    destruct (Path.is_empty s) eqn:E0; [now apply IH|].
    destruct (Path.is_dot s) eqn:E1; [now apply IH|]. cbn [orb].
    destruct (Path.is_dotdot s) eqn:E2.
    + destruct stack as [|top below]; [now apply IH|].
      inversion Hstack; subst.
      destruct (Path.is_dotdot top); now apply IH.
    + apply IH. constructor; [now apply flags_clean | assumption].
Qed.

Lemma clean_truthy (s : string) : clean_segment s → Str.truthy s = true.
Proof. intros (H & _). destruct s; [contradiction | reflexivity]. Qed.

Lemma join_slash_snoc (l : list string) (x : string) :
  l ≠ [] → Str.join_slash (l ++ [x]) = Str.join_slash l +:+ "/" +:+ x.
Proof.
  induction l as [|a l IH]; [contradiction|]. intros _.
  destruct l as [|b l]; [reflexivity|].
  change ((a :: b :: l) ++ [x]) with (a :: b :: (l ++ [x])).
  rewrite !join_slash_cons.
  change (b :: l ++ [x]) with ((b :: l) ++ [x]).
  rewrite IH by discriminate. now rewrite !string_app_assoc.
Qed.

Lemma last_char_app (a b : string) :
  b ≠ "" → Str.last_char (a +:+ b) = Str.last_char b.
Proof.
  intros Hb. induction a as [|c a IH]; [reflexivity|].
  rewrite string_app_cons. cbn [Str.last_char].
  destruct (a +:+ b) eqn:E; [|exact IH].
  destruct a; [cbn in E; contradiction | discriminate].
Qed.

Lemma no_slash_last_char (x : string) :
  Str.no_slash x = true → x ≠ "" →
  ∃ c, Str.last_char x = Some c ∧ Str.is_slash c = false.
Proof.
  induction x as [|c x IH]; [contradiction|].
  cbn [Str.no_slash]. intros [Hc Hx]%andb_prop _. apply negb_true_iff in Hc.
  destruct x as [|d x]; [eauto|].
  destruct (IH Hx) as (e & He & Hs); [discriminate|].
  exists e. split; [exact He | exact Hs].
Qed.

(** A relative path made of clean segments: not empty, no separator at
    either end. *)
Lemma join_clean_ends (l : list string) :
  l ≠ [] → Forall clean_segment l →
  Str.truthy (Str.join_slash l) = true
  ∧ Str.first_is_slash (Str.join_slash l) = false
  ∧ Str.endsWith_slash (Str.join_slash l) = false.
Proof.
  intros Hne Hl.
  assert (Hfirst : Str.truthy (Str.join_slash l) = true
                   ∧ Str.first_is_slash (Str.join_slash l) = false).
  { destruct l as [|x l]; [contradiction|]. inversion Hl as [|? ? Hx _]; subst.
    destruct Hx as (Hx0 & _ & _ & Hxs).
    destruct x as [|c x]; [contradiction|].
    cbn in Hxs. apply andb_prop in Hxs as [Hc _]. apply negb_true_iff in Hc.
    destruct l; cbn; rewrite ?string_app_cons; cbn; auto. }
  split; [apply Hfirst|]. split; [apply Hfirst|].
  destruct (exists_last Hne) as (l0 & x & ->).
  apply Forall_app in Hl as [_ Hx]. inversion Hx as [|? ? (Hx0 & _ & _ & Hxs) _]; subst.
  destruct (no_slash_last_char x Hxs Hx0) as (c & Hc & Hs).
  unfold Str.endsWith_slash.
  destruct l0 as [|a l0].
  - cbn. now rewrite Hc.
  - rewrite join_slash_snoc by discriminate.
    rewrite last_char_app.
    + rewrite last_char_app by assumption. now rewrite Hc.
    + discriminate.
Qed.

Lemma split_abspath (l : list string) :
  Forall clean_segment l →
  Str.split_slash (abspath l) = "" :: match l with [] => [""] | _ => l end.
Proof.
  intros Hl. unfold abspath. change ("/" +:+ ?s) with (String "/" s).
  cbn [Str.split_slash]. change (Str.is_slash "/") with true. cbn iota.
  f_equal. destruct l; [reflexivity|].
  apply split_join_slash; [discriminate | now apply clean_no_slash].
Qed.

Lemma filter_truthy_clean (l : list string) :
  Forall clean_segment l → filter (λ s, Str.truthy s = true) l = l.
Proof.
  induction 1 as [|x l Hx _ IH]; [reflexivity|].
  rewrite filter_cons_True by now apply clean_truthy. now rewrite IH.
Qed.

Lemma components_abspath (l : list string) :
  Forall clean_segment l → Path.components (abspath l) = l.
Proof.
  intros Hl. unfold Path.components. rewrite split_abspath by assumption.
  destruct l; [reflexivity|].
  rewrite filter_cons_False by (cbn; discriminate).
  now apply filter_truthy_clean.
Qed.

Lemma abspath_inj (l1 l2 : list string) :
  Forall clean_segment l1 → Forall clean_segment l2 →
  abspath l1 = abspath l2 → l1 = l2.
Proof.
  intros H1 H2 E.
  rewrite <- (components_abspath l1 H1), <- (components_abspath l2 H2).
  now rewrite E.
Qed.

Lemma abspath_absolute (l : list string) : Path.isAbsolute (abspath l) = true.
Proof. reflexivity. Qed.

Lemma abspath_length_snoc (l : list string) (x : string) :
  x ≠ "" →
  (String.length (abspath l) < String.length (abspath (l ++ [x])))%nat.
Proof.
  intros Hx. unfold abspath. rewrite !string_app_length.
  destruct l as [|a l].
  - cbn. destruct x; [contradiction | cbn; lia].
  - rewrite join_slash_snoc by discriminate.
    rewrite !string_app_length. cbn. lia.
Qed.

Lemma abspath_length_pos (l : list string) : (1 ≤ String.length (abspath l))%nat.
Proof. unfold abspath. rewrite string_app_length. cbn. lia. Qed.

Lemma split_abspath_cons (l : list string) :
  l ≠ [] → Forall clean_segment l → Str.split_slash (abspath l) = "" :: l.
Proof.
  intros Hne Hl. rewrite split_abspath by assumption.
  destruct l; [contradiction | reflexivity].
Qed.

Lemma normalize_segments_skip (a : bool) (stack rest : list string) :
  Path.normalize_segments a stack ("" :: rest) = Path.normalize_segments a stack rest.
Proof. reflexivity. Qed.

Lemma abspath_ends (l : list string) :
  l ≠ [] → Forall clean_segment l → Str.endsWith_slash (abspath l) = false.
Proof.
  intros Hne Hl.
  destruct (join_clean_ends l Hne Hl) as (Ht & _ & He).
  unfold Str.endsWith_slash, abspath. rewrite last_char_app; [exact He|].
  intros E. rewrite E in Ht. discriminate.
Qed.

Lemma normalize_abspath (l : list string) :
  Forall clean_segment l → Path.normalize (abspath l) = abspath l.
Proof.
  intros Hl. destruct (decide (l = [])) as [-> | Hne]; [reflexivity|].
  unfold Path.normalize.
  change (Path.is_empty (abspath l)) with false. cbn iota.
  change (Path.isAbsolute (abspath l)) with true. cbn [negb andb].
  unfold Path.normalizeString.
  rewrite split_abspath_cons, normalize_segments_skip by assumption.
  rewrite normalize_segments_id by assumption.
  rewrite andb_false_r, (abspath_ends l Hne Hl), andb_false_r.
  reflexivity.
Qed.

Lemma resolve_loop_absolute (d : string) (ps : list string) :
  Path.isAbsolute d = true → snd (Path.resolve_loop (d :: ps)) = true.
Proof.
  intros Hd. cbn [Path.resolve_loop].
  destruct (Path.resolve_loop ps) as [acc abs]. destruct abs; [reflexivity|].
  destruct d; [discriminate|]. cbn. exact Hd.
Qed.

Lemma resolve_loop_keep (c : string) (l : list string) :
  snd (Path.resolve_loop l) = true → Path.resolve_loop (c :: l) = Path.resolve_loop l.
Proof.
  intros H. cbn [Path.resolve_loop].
  destruct (Path.resolve_loop l) as [acc abs]. cbn in H. now subst abs.
Qed.

(** An absolute result of [resolve] is the root followed by clean
    segments. *)
Lemma resolve_form (c : string) (ps : list string) :
  snd (Path.resolve_loop (c :: ps)) = true →
  ∃ L, Forall clean_segment L ∧ Path.resolve c ps = abspath L.
Proof.
  intros H. unfold Path.resolve.
  destruct (Path.resolve_loop (c :: ps)) as [rp abs]. cbn in H. subst abs.
  cbn [negb]. unfold Path.normalizeString.
  exists (Path.normalize_segments false [] (Str.split_slash rp)).
  split.
  - apply normalize_segments_output; [constructor | apply split_slash_segments].
  - unfold abspath.
    destruct (Str.join_slash _) eqn:E; reflexivity.
Qed.

Lemma is_resolved_form (d : string) :
  is_resolved d = true → ∃ L, Forall clean_segment L ∧ d = abspath L.
Proof.
  unfold is_resolved. intros H%String.eqb_eq.
  destruct (resolve_form "/" [d]) as (L & HL & E).
  { now apply resolve_loop_absolute. }
  exists L. split; [assumption|]. now rewrite <- H.
Qed.

Lemma resolve_under_absolute (c d filePath : string) :
  Path.isAbsolute d = true →
  ∃ L, Forall clean_segment L ∧ Path.resolve c [d; filePath] = abspath L.
Proof.
  intros Hd. apply resolve_form.
  rewrite resolve_loop_keep; now apply resolve_loop_absolute.
Qed.

Lemma resolve_abspath (c : string) (L : list string) :
  Forall clean_segment L → Path.resolve c [abspath L] = abspath L.
Proof.
  intros HL. unfold Path.resolve.
  rewrite resolve_loop_keep by now apply resolve_loop_absolute.
  cbn [Path.resolve_loop]. change (Path.is_empty (abspath L)) with false.
  cbn iota. change (Path.isAbsolute (abspath L)) with true. cbn [negb].
  unfold Path.normalizeString.
  assert (Hsplit : Path.normalize_segments false []
                     (Str.split_slash (abspath L +:+ "/" +:+ "")) = L).
  { destruct (decide (L = [])) as [-> | Hne]; [reflexivity|].
    unfold abspath. rewrite string_app_assoc.
    change ("/" +:+ ?s) with (String "/" s).
    cbn [Str.split_slash]. change (Str.is_slash "/") with true. cbn iota.
    rewrite normalize_segments_skip.
    rewrite <- join_slash_snoc by assumption.
    rewrite split_join_slash.
    - rewrite normalize_segments_clean by assumption.
      rewrite normalize_segments_skip. cbn [Path.normalize_segments].
      rewrite app_nil_r. apply rev_involutive.
    - now destruct L.
    - apply Forall_app. split; [now apply clean_no_slash | repeat constructor]. }
  rewrite Hsplit. unfold abspath.
  destruct (Str.join_slash L); reflexivity.
Qed.

Lemma strip_trailing_empty_last (l : list string) (x : string) :
  Path.is_empty x = false → Path.strip_trailing_empty (l ++ [x]) = l ++ [x].
Proof.
  intros Hx. induction l as [|a l IH].
  - cbn. now rewrite Hx.
  - cbn [app Path.strip_trailing_empty]. rewrite IH.
    destruct (l ++ [x]) eqn:E; [now destruct l | reflexivity].
Qed.

Lemma strip_trailing_empty_clean (l : list string) :
  Forall clean_segment l → Path.strip_trailing_empty l = l.
Proof.
  intros Hl. destruct (decide (l = [])) as [-> | Hne]; [reflexivity|].
  destruct (exists_last Hne) as (l0 & x & ->).
  apply strip_trailing_empty_last.
  apply Forall_app in Hl as [_ Hx]. inversion Hx; subst.
  now apply clean_flags.
Qed.

(** [dirname] removes the last segment of a resolved path. *)
Lemma dirname_abspath (l : list string) (x : string) :
  Forall clean_segment l → clean_segment x →
  Path.dirname (abspath (l ++ [x])) = abspath l.
Proof.
  intros Hl Hx. unfold Path.dirname.
  assert (Hlx : Forall clean_segment (l ++ [x]))
    by (apply Forall_app; split; [assumption | constructor; [assumption | constructor]]).
  rewrite split_abspath_cons by (assumption || now destruct l).
  change ("" :: l ++ [x]) with (("" :: l) ++ [x]).
  rewrite strip_trailing_empty_last by now apply clean_flags.
  destruct (("" :: l) ++ [x]) as [|s segs] eqn:E; [discriminate|].
  rewrite <- E. rewrite removelast_last.
  destruct (decide (l = [])) as [-> | Hne]; [reflexivity|].
  destruct (exists_last Hne) as (l0 & y & ->).
  change ("" :: l0 ++ [y]) with (("" :: l0) ++ [y]).
  rewrite strip_trailing_empty_last.
  - destruct (("" :: l0) ++ [y]) as [|s' segs'] eqn:E'; [discriminate|].
    rewrite <- E'. unfold abspath.
    change (("" :: l0) ++ [y]) with ("" :: (l0 ++ [y])).
    destruct (l0 ++ [y]) eqn:E2; [now destruct l0 | reflexivity].
  - apply Forall_app in Hl as [_ Hy]. inversion Hy; subst. now apply clean_flags.
Qed.

Lemma take_snoc_le {A} (l : list A) (x : A) (j : nat) :
  (j ≤ length l)%nat → take j (l ++ [x]) = take j l.
Proof. intros H. now rewrite take_app_le. Qed.

(** The loop of [parentChild] on resolved paths stops at a prefix of the
    child, within the fuel [parentChild] provides. *)
Lemma climb_abspath (parent : string) (la : list string) :
  (1 ≤ String.length parent)%nat →
  Forall clean_segment la →
  ∀ fuel, (length la ≤ fuel)%nat →
  ∃ j, (j ≤ length la)%nat
       ∧ climb fuel parent (abspath la) = Some (abspath (take j la))
       ∧ ((String.length parent < String.length (abspath la))%nat →
          (j < length la)%nat).
Proof.
  intros Hp. induction la as [|x l IH] using rev_ind; intros Hla fuel Hfuel.
  - exists 0%nat. split; [cbn; lia|].
    assert (Hstop : (String.length parent <? String.length (abspath []))%nat = false)
      by (apply Nat.ltb_ge; change (String.length (abspath [])) with 1%nat; lia).
    split.
    + destruct fuel; cbn [climb]; now rewrite Hstop.
    + change (String.length (abspath [])) with 1%nat. lia.
  - apply Forall_app in Hla as [Hl Hx]. inversion Hx as [|? ? Hx' _]; subst.
    rewrite length_app in *. cbn [length] in *.
    destruct (Nat.ltb_spec (String.length parent) (String.length (abspath (l ++ [x]))))
      as [Hlt | Hge].
    + destruct fuel as [|fuel]; [lia|].
      destruct (IH Hl fuel) as (j & Hj & Hclimb & _); [lia|].
      exists j. split; [lia|]. split; [|lia].
      cbn [climb].
      assert (Hgo : (String.length parent <? String.length (abspath (l ++ [x])))%nat = true)
        by now apply Nat.ltb_lt.
      rewrite Hgo, dirname_abspath by assumption.
      rewrite Hclimb. now rewrite take_snoc_le.
    + exists (length l + 1)%nat. split; [lia|].
      assert (Hstop : (String.length parent <? String.length (abspath (l ++ [x])))%nat = false)
        by now apply Nat.ltb_ge.
      split.
      * rewrite firstn_all2 by (rewrite length_app; cbn; lia).
        destruct fuel; cbn [climb]; now rewrite Hstop.
      * lia.
Qed.

Lemma abspath_fuel (la : list string) :
  Forall clean_segment la → (length la ≤ String.length (abspath la))%nat.
Proof.
  induction la as [|x l IH] using rev_ind; intros Hla; [cbn; lia|].
  apply Forall_app in Hla as [Hl Hx]. inversion Hx as [|? ? (Hx0 & _) _]; subst.
  pose proof (abspath_length_snoc l x Hx0). specialize (IH Hl).
  rewrite length_app. cbn. lia.
Qed.

(** [parentChild] on resolved paths always answers, and answers [true]
    only when the child's segments extend the parent's. *)
Lemma parentChild_abspath (lp la : list string) :
  Forall clean_segment lp → Forall clean_segment la →
  ∃ b, parentChild (abspath lp) (abspath la) = Ok b
       ∧ (b = true → ∃ rest, rest ≠ [] ∧ la = lp ++ rest).
Proof.
  intros Hlp Hla. unfold parentChild.
  rewrite !normalize_abspath by assumption.
  rewrite !abspath_absolute. cbn [negb].
  destruct (Nat.leb_spec (String.length (abspath la)) (String.length (abspath lp)))
    as [Hle | Hlt].
  - exists false. split; [reflexivity | discriminate].
  - destruct (climb_abspath (abspath lp) la (abspath_length_pos lp) Hla
                (String.length (abspath la)) (abspath_fuel la Hla))
      as (j & Hj & Hclimb & Hstrict).
    rewrite Hclimb. eexists. split; [reflexivity|].
    intros Heq%String.eqb_eq.
    apply abspath_inj in Heq; [|now apply Forall_take | assumption].
    exists (drop j la). split.
    + specialize (Hstrict Hlt). intros E.
      apply (f_equal length) in E. rewrite length_drop in E. cbn in E. lia.
    + rewrite <- Heq. symmetry. apply take_drop.
Qed.

Lemma abspath_length_app (l rest : list string) :
  Forall clean_segment rest → rest ≠ [] →
  (String.length (abspath l) < String.length (abspath (l ++ rest)))%nat.
Proof.
  induction rest as [|x r IH] using rev_ind; intros Hrest Hne; [contradiction|].
  apply Forall_app in Hrest as [Hr Hx]. inversion Hx as [|? ? (Hx0 & _) _]; subst.
  rewrite app_assoc.
  pose proof (abspath_length_snoc (l ++ r) x Hx0) as Hstep.
  destruct (decide (r = [])) as [-> | Hrne].
  - rewrite app_nil_r in *. exact Hstep.
  - specialize (IH Hr Hrne). lia.
Qed.

(** From a descendant the loop of [parentChild] climbs to the parent. *)
Lemma climb_descendant (lp rest : list string) :
  Forall clean_segment lp → Forall clean_segment rest →
  ∀ fuel, (length rest ≤ fuel)%nat →
  climb fuel (abspath lp) (abspath (lp ++ rest)) = Some (abspath lp).
Proof.
  intros Hlp. induction rest as [|x r IH] using rev_ind; intros Hrest fuel Hfuel.
  - rewrite app_nil_r. destruct fuel; cbn [climb]; now rewrite Nat.ltb_irrefl.
  - pose proof (abspath_length_app lp (r ++ [x]) Hrest) as Hlt.
    apply Forall_app in Hrest as [Hr Hx]. inversion Hx as [|? ? Hx' _]; subst.
    rewrite length_app in Hfuel. cbn [length] in Hfuel.
    destruct fuel as [|fuel]; [lia|].
    cbn [climb].
    assert (Hgo : (String.length (abspath lp)
                   <? String.length (abspath (lp ++ r ++ [x])))%nat = true).
    { apply Nat.ltb_lt, Hlt. now destruct r. }
    rewrite Hgo, app_assoc, dirname_abspath;
      [apply IH; [assumption | lia] | now apply Forall_app | assumption].
Qed.

Lemma parentChild_descendant (lp rest : list string) :
  Forall clean_segment lp → Forall clean_segment rest → rest ≠ [] →
  parentChild (abspath lp) (abspath (lp ++ rest)) = Ok true.
Proof.
  intros Hlp Hrest Hne.
  assert (Hla : Forall clean_segment (lp ++ rest)) by now apply Forall_app.
  unfold parentChild. rewrite !normalize_abspath by assumption.
  rewrite !abspath_absolute. cbn [negb].
  pose proof (abspath_length_app lp rest Hrest Hne) as Hlt.
  destruct (Nat.leb_spec (String.length (abspath (lp ++ rest)))
              (String.length (abspath lp))) as [Hle | _]; [lia|].
  rewrite climb_descendant; [now rewrite String.eqb_refl | assumption..|].
  pose proof (abspath_fuel (lp ++ rest) Hla) as Hf.
  rewrite length_app in Hf. lia.
Qed.

Lemma proper_prefix_app (lp rest : list string) :
  rest ≠ [] → proper_prefix lp (lp ++ rest) = true.
Proof.
  intros Hr. induction lp as [|a lp IH].
  - destruct rest; [contradiction | reflexivity].
  - cbn. now rewrite String.eqb_refl, IH.
Qed.

Lemma proper_prefix_inv (l1 l2 : list string) :
  proper_prefix l1 l2 = true → ∃ rest, rest ≠ [] ∧ l2 = l1 ++ rest.
Proof.
  revert l2. induction l1 as [|a l1 IH]; intros [|b l2] H; try discriminate.
  - exists (b :: l2). split; [discriminate | reflexivity].
  - cbn in H. apply andb_prop in H as [Hab H]. apply String.eqb_eq in Hab. subst b.
    destruct (IH l2 H) as (rest & Hr & ->). exists rest. split; [assumption | reflexivity].
Qed.

Lemma strict_descendant_abspath (lp la : list string) :
  Forall clean_segment lp → Forall clean_segment la →
  strict_descendant (abspath lp) (abspath la) = true
  ↔ ∃ rest, rest ≠ [] ∧ la = lp ++ rest.
Proof.
  intros Hlp Hla. unfold strict_descendant.
  rewrite abspath_absolute, !components_abspath by assumption. cbn [andb].
  assert (Hdots : forallb (λ s, negb (Path.is_dot s || Path.is_dotdot s)) la = true).
  { apply forallb_forall. intros s Hs%list_elem_of_In.
    rewrite Forall_forall in Hla. destruct (clean_flags s (Hla s Hs)) as (_ & -> & ->).
    reflexivity. }
  rewrite Hdots. cbn [andb]. split.
  - apply proper_prefix_inv.
  - intros (rest & Hr & ->). now apply proper_prefix_app.
Qed.

Lemma strip_common_prefix (lp rest : list string) :
  Path.strip_common lp (lp ++ rest) = ([], rest).
Proof.
  induction lp as [|a lp IH]; [now destruct rest|].
  cbn. now rewrite decide_True.
Qed.

(** [relative] from a resolved directory to a path below it is the list
    of the segments in between. *)
Lemma relative_abspath (c : string) (lp rest : list string) :
  Forall clean_segment lp → Forall clean_segment rest → rest ≠ [] →
  Path.relative c (abspath lp) (abspath (lp ++ rest)) = Str.join_slash rest.
Proof.
  intros Hlp Hrest Hne.
  assert (Hall : Forall clean_segment (lp ++ rest)) by (apply Forall_app; auto).
  assert (Hdiff : abspath lp ≠ abspath (lp ++ rest)).
  { intros E%abspath_inj; try assumption.
    apply (f_equal length) in E. rewrite length_app in E.
    destruct rest; [contradiction | cbn in E; lia]. }
  unfold Path.relative. rewrite !resolve_abspath by assumption.
  apply String.eqb_neq in Hdiff. rewrite Hdiff.
  rewrite !components_abspath, strip_common_prefix by assumption.
  reflexivity.
Qed.

(** ** The name normalization of [#addFile] *)

Lemma replace_space_runs_cons2 (c c' : ascii) (s : string) :
  Str.replace_space_runs (String c (String c' s))
  = if Ascii.eqb c " " then
      if Ascii.eqb c' " " then Str.replace_space_runs (String c' s)
      else String "_" (Str.replace_space_runs (String c' s))
    else String c (Str.replace_space_runs (String c' s)).
Proof. reflexivity. Qed.

Lemma replace_space_runs_app (x t : string) :
  Str.replace_space_runs (x +:+ "/" +:+ t)
  = Str.replace_space_runs x +:+ "/" +:+ Str.replace_space_runs t.
Proof.
  induction x as [|c x IH]; [reflexivity|].
  destruct x as [|c' x].
  - rewrite string_app_cons, string_app_nil_l.
    change ("/" +:+ t) with (String "/" t).
    cbn [Str.replace_space_runs].
    change (Ascii.eqb "/" " ") with false. cbn iota.
    destruct (Ascii.eqb c " "); reflexivity.
  - rewrite !string_app_cons in *. rewrite !replace_space_runs_cons2.
    destruct (Ascii.eqb c " "); [destruct (Ascii.eqb c' " ")|];
      rewrite ?string_app_cons; now rewrite IH.
Qed.

Lemma replace_space_runs_join (l : list string) :
  Str.replace_space_runs (Str.join_slash l)
  = Str.join_slash (map Str.replace_space_runs l).
Proof.
  induction l as [|x l IH]; [reflexivity|].
  destruct l as [|y l]; [reflexivity|].
  rewrite join_slash_cons, replace_space_runs_app, IH. reflexivity.
Qed.

Lemma replace_space_runs_space (x : string) :
  ∃ r, Str.replace_space_runs (String " " x) = String "_" r.
Proof.
  induction x as [|c x IH]; [now exists ""|].
  rewrite replace_space_runs_cons2. change (Ascii.eqb " " " ") with true. cbn iota.
  destruct (Ascii.eqb c " ") eqn:E.
  - apply Ascii.eqb_eq in E. subst c. exact IH.
  - eauto.
Qed.

Lemma replace_space_runs_head (c : ascii) (x : string) :
  (Ascii.eqb c " " = true ∧ ∃ r, Str.replace_space_runs (String c x) = String "_" r)
  ∨ (Ascii.eqb c " " = false
     ∧ Str.replace_space_runs (String c x) = String c (Str.replace_space_runs x)).
Proof.
  destruct (Ascii.eqb c " ") eqn:E.
  - left. split; [reflexivity|]. apply Ascii.eqb_eq in E. subst c.
    apply replace_space_runs_space.
  - right. split; [reflexivity|]. cbn. now rewrite E.
Qed.

Lemma replace_space_runs_nonempty (x : string) :
  Str.replace_space_runs x = "" → x = "".
Proof.
  destruct x as [|c x]; [reflexivity|].
  destruct (replace_space_runs_head c x) as [(_ & r & ->) | (_ & ->)]; discriminate.
Qed.

Lemma replace_space_runs_no_slash (x : string) :
  Str.no_slash x = true → Str.no_slash (Str.replace_space_runs x) = true.
Proof.
  induction x as [|c x IH]; [reflexivity|].
  cbn [Str.no_slash]. intros [Hc Hx]%andb_prop. specialize (IH Hx).
  destruct x as [|c' x].
  - cbn. destruct (Ascii.eqb c " "); [reflexivity|]. cbn. now rewrite Hc.
  - rewrite replace_space_runs_cons2.
    destruct (Ascii.eqb c " "); [destruct (Ascii.eqb c' " ")|];
      cbn [Str.no_slash]; rewrite ?IH, ?Hc; reflexivity.
Qed.

Lemma replace_space_runs_clean (x : string) :
  clean_segment x → clean_segment (Str.replace_space_runs x).
Proof.
  intros (H0 & H1 & H2 & Hs). repeat split.
  - intros E. now apply replace_space_runs_nonempty in E.
  - intros E. destruct x as [|c x]; [contradiction|].
    destruct (replace_space_runs_head c x) as [(_ & r & Hr) | (_ & Hr)];
      rewrite Hr in E; [discriminate|].
    injection E as -> E. apply replace_space_runs_nonempty in E. now subst x.
  - intros E. destruct x as [|c x]; [contradiction|].
    destruct (replace_space_runs_head c x) as [(_ & r & Hr) | (_ & Hr)];
      rewrite Hr in E; [discriminate|].
    injection E as -> E. destruct x as [|c' x]; [discriminate|].
    destruct (replace_space_runs_head c' x) as [(_ & r & Hr') | (_ & Hr')];
      rewrite Hr' in E; [discriminate|].
    injection E as -> E. apply replace_space_runs_nonempty in E. now subst x.
  - now apply replace_space_runs_no_slash.
Qed.

Lemma startsWith_split (p s : string) :
  Str.startsWith p s = true → s = p +:+ Str.drop (String.length p) s.
Proof.
  revert s. induction p as [|a p IH]; intros s H; [reflexivity|].
  destruct s as [|b s]; [discriminate|].
  cbn in H. apply andb_prop in H as [Hab H]. apply Ascii.eqb_eq in Hab. subst b.
  rewrite string_app_cons. cbn [String.length Str.drop]. f_equal. now apply IH.
Qed.

Lemma dot_relaxed_refl (s : string) : dot_relaxed s s.
Proof. induction s; constructor; assumption. Qed.

Lemma dot_relaxed_app (a a' b b' : string) :
  dot_relaxed a a' → dot_relaxed b b' → dot_relaxed (a +:+ b) (a' +:+ b').
Proof.
  intros Ha Hb. induction Ha; rewrite ?string_app_cons; try constructor; assumption.
Qed.

Lemma replaceAll_dts_relaxed (fuel : nat) (s : string) :
  dot_relaxed s (Str.replaceAll_go fuel ".d.ts" ".d_ts" s).
Proof.
  revert s. induction fuel as [|fuel IH]; intros s; [apply dot_relaxed_refl|].
  cbn [Str.replaceAll_go]. destruct s as [|c s]; [constructor|].
  destruct (Str.startsWith ".d.ts" (String c s)) eqn:E.
  - rewrite (startsWith_split _ _ E) at 1.
    apply dot_relaxed_app; [|apply IH].
    repeat constructor.
  - constructor. apply IH.
Qed.

Lemma dot_relaxed_split (s s' : string) :
  dot_relaxed s s' → Forall2 dot_relaxed (Str.split_slash s) (Str.split_slash s').
Proof.
  induction 1 as [|c s s' _ IH|s s' _ IH].
  - repeat constructor.
  - cbn [Str.split_slash]. destruct (Str.is_slash c).
    + constructor; [constructor | assumption].
    + inversion IH; subst; [repeat constructor; apply dot_relaxed_refl|].
      constructor; [now constructor | assumption].
  - cbn [Str.split_slash]. change (Str.is_slash ".") with false.
    change (Str.is_slash "_") with false. cbn iota.
    inversion IH; subst; [repeat constructor|].
    constructor; [now constructor | assumption].
Qed.

Lemma dot_relaxed_clean (x x' : string) :
  dot_relaxed x x' → clean_segment x → clean_segment x'.
Proof.
  intros Hr (H0 & H1 & H2 & Hs). repeat split.
  - intros ->. inversion Hr; subst. contradiction.
  - intros ->. inversion Hr as [|c s s' Hr'|]; subst. inversion Hr'; subst. contradiction.
  - intros ->. inversion Hr as [|c s s' Hr'|]; subst.
    inversion Hr' as [|c' t t' Hr''|]; subst. inversion Hr''; subst. contradiction.
  - clear H0 H1 H2. induction Hr as [|c s s' _ IH|s s' _ IH]; [reflexivity| |].
    + cbn in *. apply andb_prop in Hs as [-> Hs]. now rewrite IH.
    + cbn in *. now rewrite IH.
Qed.

(** Replacing space runs and ".d.ts" turns a relative path of clean
    segments into one with as many clean segments. *)
Lemma normalized_name_segments (l : list string) :
  l ≠ [] → Forall clean_segment l →
  ∃ l', l' ≠ [] ∧ Forall clean_segment l'
        ∧ Str.replaceAll ".d.ts" ".d_ts" (Str.replace_space_runs (Str.join_slash l))
          = Str.join_slash l'.
Proof.
  intros Hne Hl. rewrite replace_space_runs_join.
  set (l1 := map Str.replace_space_runs l).
  assert (Hl1 : Forall clean_segment l1).
  { apply Forall_fmap. eapply Forall_impl; [exact Hl|].
    intros x Hx. now apply replace_space_runs_clean. }
  assert (Hne1 : l1 ≠ []) by (subst l1; now destruct l).
  set (s' := Str.replaceAll ".d.ts" ".d_ts" (Str.join_slash l1)).
  assert (Hrel : dot_relaxed (Str.join_slash l1) s') by apply replaceAll_dts_relaxed.
  apply dot_relaxed_split in Hrel.
  rewrite split_join_slash in Hrel by (assumption || now apply clean_no_slash).
  exists (Str.split_slash s'). repeat split.
  - apply split_slash_nonempty.
  - clear -Hrel Hl1. induction Hrel; [constructor|].
    inversion Hl1; subst. constructor; [eapply dot_relaxed_clean; eassumption | auto].
  - symmetry. apply join_split_slash.
Qed.

Lemma Forall_clean_snoc (l : list string) (x : string) :
  Forall clean_segment l → clean_segment x → Forall clean_segment (l ++ [x]).
Proof. intros Hl Hx. apply Forall_app. split; [assumption | constructor; [assumption | constructor]]. Qed.

Lemma normalize_relative (l : list string) :
  l ≠ [] → Forall clean_segment l →
  Path.normalize (Str.join_slash l) = Str.join_slash l.
Proof.
  intros Hne Hl. destruct (join_clean_ends l Hne Hl) as (Ht & Hf & He).
  unfold Path.normalize, Path.is_empty, Path.isAbsolute, Path.normalizeString.
  rewrite Ht, Hf, He. cbn [negb].
  rewrite split_join_slash by (assumption || now apply clean_no_slash).
  rewrite normalize_segments_id by assumption.
  rewrite Ht. cbn [negb andb]. now rewrite andb_false_r.
Qed.

(** [parse] of a relative path of clean segments. *)
Lemma parse_relative (l0 : list string) (y : string) :
  Forall clean_segment l0 → clean_segment y →
  Path.parse (Str.join_slash (l0 ++ [y]))
  = {| Path.root := ""; Path.dir := Str.join_slash l0; Path.base := y |}.
Proof.
  intros Hl0 Hy.
  assert (Hl : Forall clean_segment (l0 ++ [y])) by now apply Forall_clean_snoc.
  assert (Hne : l0 ++ [y] ≠ []) by now destruct l0.
  destruct (join_clean_ends _ Hne Hl) as (Ht & Hf & He).
  unfold Path.parse, Path.isAbsolute. rewrite Hf.
  rewrite split_join_slash by (assumption || now apply clean_no_slash).
  rewrite strip_trailing_empty_clean by assumption.
  destruct (l0 ++ [y]) as [|s segs] eqn:E; [contradiction|].
  rewrite <- E. rewrite removelast_last, last_last.
  rewrite strip_trailing_empty_clean by assumption.
  destruct l0; reflexivity.
Qed.

Lemma generated_name_clean (y : string) :
  Str.no_slash y = true → clean_segment ("_" +:+ y +:+ ".ts").
Proof.
  intros Hy. change ("_" +:+ y +:+ ".ts") with (String "_" (y +:+ ".ts")).
  repeat split; try (intros E; discriminate E).
  cbn [Str.no_slash]. change (Str.is_slash "_") with false. cbn [negb andb].
  induction y as [|c y IH]; [reflexivity|].
  rewrite string_app_cons. cbn in *. apply andb_prop in Hy as [-> Hy]. now apply IH.
Qed.

Lemma join_slash_app (l1 l2 : list string) :
  l1 ≠ [] → l2 ≠ [] →
  Str.join_slash (l1 ++ l2) = Str.join_slash l1 +:+ "/" +:+ Str.join_slash l2.
Proof.
  intros H1 H2. induction l1 as [|a l1 IH]; [contradiction|].
  destruct l1 as [|b l1].
  - destruct l2; [contradiction | reflexivity].
  - change ((a :: b :: l1) ++ l2) with (a :: b :: (l1 ++ l2)).
    rewrite !join_slash_cons.
    change (b :: l1 ++ l2) with ((b :: l1) ++ l2).
    rewrite IH by discriminate. now rewrite !string_app_assoc.
Qed.

(** [path.join(dir, name)] for a clean directory part and a clean name. *)
Lemma join_dir_name (l0 : list string) (name : string) :
  Forall clean_segment l0 → clean_segment name →
  Path.join [Str.join_slash l0; name] = Str.join_slash (l0 ++ [name]).
Proof.
  intros Hl0 Hn.
  assert (Hl : Forall clean_segment (l0 ++ [name])) by now apply Forall_clean_snoc.
  unfold Path.join.
  destruct (decide (l0 = [])) as [-> | Hne].
  - rewrite filter_cons_False by (cbn; discriminate).
    rewrite filter_cons_True by now apply clean_truthy.
    rewrite filter_nil.
    change (Str.join_slash [name]) with name.
    unfold Path.is_empty. rewrite (clean_truthy name Hn). cbn [negb].
    apply (normalize_relative [name]); [discriminate | assumption].
  - destruct (join_clean_ends l0 Hne Hl0) as (Ht & _).
    rewrite filter_cons_True by assumption.
    rewrite filter_cons_True by now apply clean_truthy.
    rewrite filter_nil.
    change (Str.join_slash [Str.join_slash l0; name])
      with (Str.join_slash l0 +:+ "/" +:+ name).
    rewrite <- join_slash_snoc by assumption.
    destruct (join_clean_ends (l0 ++ [name])) as (Ht' & _);
      [now destruct l0 | assumption |].
    unfold Path.is_empty. rewrite Ht'. cbn [negb].
    apply normalize_relative; [now destruct l0 | assumption].
Qed.

(** [path.join(destDir, normalized)] for a resolved directory and a clean
    relative path. *)
Lemma join_under (lp rest : list string) :
  Forall clean_segment lp → Forall clean_segment rest → rest ≠ [] →
  Path.join [abspath lp; Str.join_slash rest] = abspath (lp ++ rest).
Proof.
  intros Hlp Hrest Hne.
  assert (Hall : Forall clean_segment (lp ++ rest)) by (apply Forall_app; auto).
  assert (Hne' : lp ++ rest ≠ []) by (destruct lp; [assumption | discriminate]).
  destruct (join_clean_ends rest Hne Hrest) as (Ht & _ & He).
  unfold Path.join.
  rewrite filter_cons_True by reflexivity.
  rewrite filter_cons_True by assumption.
  rewrite filter_nil.
  change (Str.join_slash [abspath lp; Str.join_slash rest])
    with (abspath lp +:+ "/" +:+ Str.join_slash rest).
  assert (Hjoined : abspath lp +:+ "/" +:+ Str.join_slash rest
                    = String "/" (Str.join_slash lp +:+ "/" +:+ Str.join_slash rest)).
  { unfold abspath. now rewrite string_app_assoc. }
  rewrite Hjoined. cbn [Path.is_empty Str.truthy negb].
  unfold Path.normalize. cbn [Path.is_empty Str.truthy negb Path.isAbsolute
                               Str.first_is_slash].
  change (Str.is_slash "/") with true. cbn [negb andb].
  assert (Hend : Str.endsWith_slash
                   (String "/" (Str.join_slash lp +:+ "/" +:+ Str.join_slash rest))
                 = false).
  { unfold Str.endsWith_slash.
    change (String "/" ?s) with ("/" +:+ s).
    rewrite !last_char_app; [exact He | | |];
      try (intros E; rewrite E in Ht; discriminate).
    - destruct (Str.join_slash rest); discriminate.
    - destruct (Str.join_slash lp); discriminate. }
  rewrite Hend, andb_false_r.
  unfold Path.normalizeString. cbn [Str.split_slash].
  change (Str.is_slash "/") with true. cbn iota.
  rewrite normalize_segments_skip.
  assert (Hsegs : Path.normalize_segments false []
                    (Str.split_slash (Str.join_slash lp +:+ "/" +:+ Str.join_slash rest))
                  = lp ++ rest).
  { destruct (decide (lp = [])) as [-> | Hlpne].
    - change (Str.join_slash [] +:+ "/" +:+ Str.join_slash rest)
        with (String "/" (Str.join_slash rest)).
      cbn [Str.split_slash]. change (Str.is_slash "/") with true. cbn iota.
      rewrite normalize_segments_skip.
      rewrite split_join_slash by (assumption || now apply clean_no_slash).
      now apply normalize_segments_id.
    - rewrite <- join_slash_app by assumption.
      rewrite split_join_slash by (assumption || now apply clean_no_slash).
      now apply normalize_segments_id. }
  rewrite Hsegs, andb_false_r. reflexivity.
Qed.

Section Placement.

Context (P : Platform).

(** The on-disk path [#addFile] computes for a candidate below the
    destination: the destination's segments, then at least one more. *)
Lemma file_paths_onDisk (filePath : string) (lp rest : list string) :
  Forall clean_segment lp → Forall clean_segment rest → rest ≠ [] →
  ∃ rest', rest' ≠ [] ∧ Forall clean_segment rest'
           ∧ onDisk (file_paths P (abspath lp) filePath (abspath (lp ++ rest)))
             = abspath (lp ++ rest').
Proof.
  intros Hlp Hrest Hne. unfold file_paths, toPosix. cbn [onDisk].
  rewrite relative_abspath by assumption.
  destruct (normalized_name_segments rest Hne Hrest) as (l1 & Hne1 & Hl1 & ->).
  destruct (exists_last Hne1) as (l0 & y & ->).
  apply Forall_app in Hl1 as [Hl0 Hy]. inversion Hy as [|? ? Hy' _]; subst.
  rewrite parse_relative by assumption. cbn [Path.dir Path.base].
  assert (Hname : clean_segment ("_" +:+ y +:+ ".ts")).
  { apply generated_name_clean. now destruct Hy' as (_ & _ & _ & ?). }
  rewrite join_dir_name by assumption.
  exists (l0 ++ ["_" +:+ y +:+ ".ts"]). split; [now destruct l0|].
  split; [now apply Forall_clean_snoc|].
  apply join_under; [assumption | now apply Forall_clean_snoc | now destruct l0].
Qed.

End Placement.

(** ** Placement and the writer's state *)

Lemma normalize_segments_nonempty (a : bool) (stack segs : list string) :
  Forall (λ s, s ≠ "" ∧ Str.no_slash s = true) stack →
  Forall (λ x, Str.no_slash x = true) segs →
  Forall (λ s, s ≠ "" ∧ Str.no_slash s = true)
    (Path.normalize_segments a stack segs).
Proof.
  intros Hstack Hsegs. revert stack Hstack.
  induction Hsegs as [|s segs Hs _ IH]; intros stack Hstack.
  - cbn. now apply Forall_rev.
  - cbn [Path.normalize_segments].
    destruct (Path.is_empty s) eqn:E0; [now apply IH|].
    destruct (Path.is_dot s) eqn:E1; [now apply IH|]. cbn [orb].
    assert (Hq : s ≠ "" ∧ Str.no_slash s = true).
    { split; [|assumption]. intros ->. discriminate. }
    destruct (Path.is_dotdot s) eqn:E2.
    + destruct stack as [|top below].
      * apply IH. destruct a; repeat constructor; apply Hq.
      * inversion Hstack; subst.
        destruct (Path.is_dotdot top); [|now apply IH].
        apply IH. destruct a; [constructor|]; assumption.
    + apply IH. now constructor.
Qed.

(** A path that [resolve] returns and the constructor of [EmbedWriter]
    accepts is in resolved form. *)
Lemma resolve_is_resolved (c : string) (ps : list string) (d : string) :
  EmbedWriter_new (Path.resolve c ps) = Ok d → is_resolved d = true.
Proof.
  unfold EmbedWriter_new.
  destruct (Path.isAbsolute (Path.resolve c ps)) eqn:Habs; [|discriminate].
  cbn [negb]. intros [= <-].
  assert (Hloop : snd (Path.resolve_loop (c :: ps)) = true).
  { destruct (snd (Path.resolve_loop (c :: ps))) eqn:E; [reflexivity|].
    exfalso. unfold Path.resolve in Habs.
    destruct (Path.resolve_loop (c :: ps)) as [rp abs]. cbn in E. subst abs.
    cbn [negb] in Habs. unfold Path.normalizeString in Habs.
    assert (HL : Forall (λ s, s ≠ "" ∧ Str.no_slash s = true)
                   (Path.normalize_segments true [] (Str.split_slash rp)))
      by (apply normalize_segments_nonempty; [constructor | apply split_slash_segments]).
    destruct (Path.normalize_segments true [] (Str.split_slash rp)) as [|x L].
    - discriminate.
    - inversion HL as [|? ? (Hx0 & Hxs) _]; subst.
      destruct x as [|ch x]; [contradiction|].
      cbn in Hxs. apply andb_prop in Hxs as [Hch _]. apply negb_true_iff in Hch.
      assert (Hj : ∃ t, Str.join_slash (String ch x :: L) = String ch t).
      { destruct L; cbn; rewrite ?string_app_cons; eauto. }
      destruct Hj as (t & Hj). rewrite Hj in Habs. cbn in Habs. congruence. }
  destruct (resolve_form c ps Hloop) as (L & HL & ->).
  unfold is_resolved. rewrite resolve_abspath by assumption.
  apply String.eqb_refl.
Qed.

Section Guard.

Context (P : Platform).

Lemma addFile_unfold (destDir filePath : string) (s : writer_state) :
  addFile P destDir filePath s
  = match parentChild destDir (Path.resolve (cwd P) [destDir; filePath]) with
    | Ok true =>
        let paths := file_paths P destDir filePath
                       (Path.resolve (cwd P) [destDir; filePath]) in
        match files s !! onDisk paths with
        | Some existing =>
            (Throw (Error (collision_message (onDisk paths) (original existing)
                             (original paths))), s)
        | None => (Ok paths, set_files (<[onDisk paths := paths]> (files s)) s)
        end
    | Ok false =>
        (Throw (Error (Path.resolve (cwd P) [destDir; filePath]
                       +:+ " must be within " +:+ destDir)), s)
    | Throw e => (Throw e, s)
    end.
Proof.
  unfold addFile, bind, lift, throw, ret, get_state, modify.
  destruct (parentChild destDir _) as [[|]|e]; try reflexivity.
  cbn. destruct (files s !! _); reflexivity.
Qed.

(** The guard of [#addFile] on a resolved destination: it answers, and
    lets a candidate pass only if it is a strict descendant. *)
Lemma guard_resolved (destDir filePath : string) :
  is_resolved destDir = true →
  ∃ lp la b,
    Forall clean_segment lp ∧ Forall clean_segment la
    ∧ destDir = abspath lp
    ∧ Path.resolve (cwd P) [destDir; filePath] = abspath la
    ∧ parentChild destDir (Path.resolve (cwd P) [destDir; filePath]) = Ok b
    ∧ (b = true → ∃ rest, rest ≠ [] ∧ Forall clean_segment rest ∧ la = lp ++ rest)
    ∧ (b = true ↔ strict_descendant destDir
                    (Path.resolve (cwd P) [destDir; filePath]) = true).
Proof.
  intros (lp & Hlp & ->)%is_resolved_form.
  destruct (resolve_under_absolute (cwd P) (abspath lp) filePath
              (abspath_absolute lp)) as (la & Hla & Hres).
  destruct (parentChild_abspath lp la Hlp Hla) as (b & Hpc & Hb).
  exists lp, la, b. rewrite Hres. repeat split; try assumption.
  - intros Hbt. destruct (Hb Hbt) as (rest & Hne & ->).
    exists rest. repeat split; try assumption.
    now apply Forall_app in Hla as [_ ?].
  - intros Hbt. apply strict_descendant_abspath; auto.
  - intros (rest & Hne & ->)%strict_descendant_abspath; [|assumption..].
    apply Forall_app in Hla as [_ Hrest].
    rewrite (parentChild_descendant lp rest Hlp Hrest Hne) in Hpc.
    now injection Hpc as <-.
Qed.

Lemma placement_some (destDir filePath : string) (paths : FilePaths)
  (s : writer_state) :
  placement P destDir filePath = Some paths →
  original paths = filePath
  ∧ addFile P destDir filePath s
    = match files s !! onDisk paths with
      | Some existing =>
          (Throw (Error (collision_message (onDisk paths) (original existing)
                           filePath)), s)
      | None => (Ok paths, set_files (<[onDisk paths := paths]> (files s)) s)
      end.
Proof.
  rewrite addFile_unfold. unfold placement.
  destruct (parentChild destDir _) as [[|]|e]; try discriminate.
  intros [= <-]. split; reflexivity.
Qed.

Lemma placement_none (destDir filePath : string) (s : writer_state) :
  placement P destDir filePath = None →
  ∃ e, addFile P destDir filePath s = (Throw e, s).
Proof.
  rewrite addFile_unfold. unfold placement.
  destruct (parentChild destDir _) as [[|]|e]; try discriminate; eauto.
Qed.

(** C2. On a resolved destination, every path [#addFile] returns lies
    strictly below the destination; a candidate that does not lie
    strictly below it makes [#addFile], and so [writeFile], throw and
    leave the table and the disk as they were; and the guard lets
    exactly the strict descendants pass. *)
Theorem containment (destDir filePath : string) (s : writer_state) :
  is_resolved destDir = true →
  (∀ paths s',
     addFile P destDir filePath s = (Ok paths, s') →
     strict_descendant destDir (onDisk paths) = true)
  ∧ (strict_descendant destDir (Path.resolve (cwd P) [destDir; filePath]) = false →
     ∃ message,
       addFile P destDir filePath s = (Throw (Error message), s)
       ∧ ∀ data, writeFile P destDir filePath data s = (Throw (Error message), s))
  ∧ (strict_descendant destDir (Path.resolve (cwd P) [destDir; filePath]) = true
     ↔ parentChild destDir (Path.resolve (cwd P) [destDir; filePath]) = Ok true).
Proof.
  intros Hres.
  destruct (guard_resolved destDir filePath Hres)
    as (lp & la & b & Hlp & Hla & -> & Habs & Hpc & Hrest & Hsd).
  split; [|split].
  - intros paths s'. rewrite addFile_unfold, Hpc.
    destruct b; [|discriminate].
    destruct (Hrest eq_refl) as (rest & Hne & Hclean & ->).
    cbn zeta. destruct (files s !! _); [discriminate|]. intros [= <- _].
    rewrite Habs.
    destruct (file_paths_onDisk P filePath lp rest Hlp Hclean Hne)
      as (rest' & Hne' & Hclean' & ->).
    apply strict_descendant_abspath; eauto using Forall_app_2.
  - intros Hout. destruct b.
    + rewrite (proj1 Hsd eq_refl) in Hout. discriminate.
    + eexists. split.
      * rewrite addFile_unfold, Hpc. reflexivity.
      * intros data. unfold writeFile, bind. rewrite addFile_unfold, Hpc. reflexivity.
  - rewrite Hpc, <- Hsd. split; [now intros -> | now intros [= ->]].
Qed.

End Guard.

(** ** The writer and the disk *)

Lemma mkdir_recursive_keeps (fuel : nat) (path : string)
  (d d' : gmap string fs_node) (k : string) (v : fs_node) :
  mkdir_recursive fuel path d = Ok d' → d !! k = Some v → d' !! k = Some v.
Proof.
  revert path d'. induction fuel as [|fuel IH]; intros path d' H Hk.
  - cbn in H. destruct (d !! path) as [[c|]|] eqn:E; try discriminate.
    + now inversion H; subst.
    + destruct (String.eqb (Path.dirname path) path); [|discriminate].
      inversion H; subst. rewrite lookup_insert_ne; [assumption|]. congruence.
  - cbn in H. destruct (d !! path) as [[c|]|] eqn:E; try discriminate.
    + now inversion H; subst.
    + destruct (String.eqb (Path.dirname path) path).
      * inversion H; subst. rewrite lookup_insert_ne; [assumption|]. congruence.
      * destruct (mkdir_recursive fuel (Path.dirname path) d) as [d1|e] eqn:E1.
        -- inversion H; subst. rewrite lookup_insert_ne; [|congruence].
           now apply (IH (Path.dirname path)).
        -- destruct e; discriminate.
Qed.

Lemma Deno_mkdir_ok (path : string) (s s' : writer_state) :
  Deno_mkdir path s = (Ok tt, s') →
  files s' = files s ∧ ∀ k v, disk s !! k = Some v → disk s' !! k = Some v.
Proof.
  unfold Deno_mkdir.
  destruct (mkdir_recursive _ path (disk s)) as [d|e] eqn:E; [|discriminate].
  intros [= <-]. split; [reflexivity|]. intros k v. cbn.
  now apply (mkdir_recursive_keeps _ _ _ _ k v E).
Qed.

Lemma Deno_writeTextFile_ok (path data : string) (s s' : writer_state) :
  Deno_writeTextFile path data s = (Ok tt, s') →
  files s' = files s ∧ disk s' = <[path := FsFile data]> (disk s).
Proof.
  unfold Deno_writeTextFile.
  destruct (disk s !! path) as [[c|]|]; try discriminate;
    destruct (disk s !! Path.dirname path) as [[c'|]|]; try discriminate;
    intros [= <-]; split; reflexivity.
Qed.

Section Run.

Context (P : Platform).

(** What a successful [writeFile] leaves behind. *)
Lemma writeFile_ok (destDir filePath : string) (data : list byte)
  (s s' : writer_state) :
  writeFile P destDir filePath data s = (Ok tt, s') →
  ∃ paths,
    placement P destDir filePath = Some paths
    ∧ files s !! onDisk paths = None
    ∧ files s' = <[onDisk paths := paths]> (files s)
    ∧ disk s' !! onDisk paths = Some (FsFile (Str.join nl (outLines P data)))
    ∧ ∀ k v, k ≠ onDisk paths → disk s !! k = Some v → disk s' !! k = Some v.
Proof.
  unfold writeFile, bind.
  destruct (placement P destDir filePath) as [paths|] eqn:Hpl.
  2: { destruct (placement_none P destDir filePath s Hpl) as (e & ->). discriminate. }
  destruct (placement_some P destDir filePath paths s Hpl) as [_ ->].
  destruct (files s !! onDisk paths) eqn:Hfree; [discriminate|].
  destruct (Deno_mkdir _ _) as [[[]|e] s1] eqn:Hmk; [|discriminate].
  intros Hwr. apply Deno_mkdir_ok in Hmk as [Hf1 Hd1].
  apply Deno_writeTextFile_ok in Hwr as [Hf2 Hd2].
  exists paths. repeat split; try assumption.
  - rewrite Hf2, Hf1. reflexivity.
  - rewrite Hd2. apply lookup_insert_eq.
  - intros k v Hk Hv. rewrite Hd2, lookup_insert_ne by congruence.
    apply Hd1. exact Hv.
Qed.

Lemma writeFile_keeps (destDir filePath : string) (data : list byte)
  (s s' : writer_state) (k : string) (fp : FilePaths) (v : fs_node) :
  writeFile P destDir filePath data s = (Ok tt, s') →
  files s !! k = Some fp → disk s !! k = Some v →
  files s' !! k = Some fp ∧ disk s' !! k = Some v.
Proof.
  intros (paths & _ & Hfree & Hfiles & _ & Hdisk)%writeFile_ok Hk Hv.
  assert (Hne : k ≠ onDisk paths) by congruence.
  split.
  - rewrite Hfiles, lookup_insert_ne by congruence. exact Hk.
  - now apply Hdisk.
Qed.

Lemma convert_files_keeps (destDir : string) (entries : list (string * list byte))
  (s s' : writer_state) (k : string) (fp : FilePaths) (v : fs_node) :
  convert_files P destDir entries s = (Ok tt, s') →
  files s !! k = Some fp → disk s !! k = Some v →
  files s' !! k = Some fp ∧ disk s' !! k = Some v.
Proof.
  revert s. induction entries as [|[p d] entries IH]; intros s H Hk Hv.
  - cbn in H. inversion H; subst. auto.
  - cbn [convert_files] in H. unfold bind in H.
    destruct (writeFile P destDir p d s) as [[[]|e] s1] eqn:Hw; [|discriminate].
    destruct (writeFile_keeps _ _ _ _ _ _ _ _ Hw Hk Hv) as [Hk1 Hv1].
    now apply (IH s1).
Qed.

Lemma convert_files_app (destDir : string) (l1 l2 : list (string * list byte))
  (s : writer_state) :
  convert_files P destDir (l1 ++ l2) s
  = match convert_files P destDir l1 s with
    | (Ok _, s1) => convert_files P destDir l2 s1
    | (Throw e, s1) => (Throw e, s1)
    end.
Proof.
  revert s. induction l1 as [|[p d] l1 IH]; intros s; [reflexivity|].
  cbn [app convert_files]. unfold bind.
  destruct (writeFile P destDir p d s) as [[[]|e] s1]; [apply IH | reflexivity].
Qed.

(** C5, as the code has it. When an input normalizes to the on-disk path
    of an input placed earlier in the run, its placement throws an error
    that names both inputs and writes nothing; the output of the earlier
    input stays on the disk, and the run stops there. *)
Theorem name_collision (destDir : string)
  (before between : list (string * list byte)) (p1 p2 : string)
  (d1 d2 : list byte) (fp1 fp2 : FilePaths) (s0 s1 : writer_state) :
  placement P destDir p1 = Some fp1 →
  placement P destDir p2 = Some fp2 →
  onDisk fp1 = onDisk fp2 →
  convert_files P destDir (before ++ [(p1, d1)] ++ between) s0 = (Ok tt, s1) →
  writeFile P destDir p2 d2 s1
  = (Throw (Error (collision_message (onDisk fp2) p1 p2)), s1)
  ∧ disk s1 !! onDisk fp1 = Some (FsFile (Str.join nl (outLines P d1)))
  ∧ ∀ after,
      convert_files P destDir
        (before ++ [(p1, d1)] ++ between ++ [(p2, d2)] ++ after) s0
      = (Throw (Error (collision_message (onDisk fp2) p1 p2)), s1).
Proof.
  intros Hp1 Hp2 Hsame Hrun.
  rewrite convert_files_app in Hrun.
  destruct (convert_files P destDir before s0) as [[[]|e] sa] eqn:Hbefore;
    [|discriminate].
  rewrite convert_files_app in Hrun. cbn [convert_files] in Hrun.
  unfold bind at 1 in Hrun.
  destruct (writeFile P destDir p1 d1 sa) as [[[]|e] sb] eqn:Hw1; [|discriminate].
  unfold ret in Hrun.
  destruct (writeFile_ok _ _ _ _ _ Hw1) as (paths & Hpl & _ & Hfiles & Hdisk & _).
  rewrite Hp1 in Hpl. injection Hpl as <-.
  assert (Hk : files sb !! onDisk fp1 = Some fp1)
    by (rewrite Hfiles; apply lookup_insert_eq).
  destruct (convert_files_keeps _ _ _ _ _ _ _ Hrun Hk Hdisk) as [Hk1 Hv1].
  assert (Hfail : writeFile P destDir p2 d2 s1
                  = (Throw (Error (collision_message (onDisk fp2) p1 p2)), s1)).
  { unfold writeFile, bind.
    destruct (placement_some P destDir p2 fp2 s1 Hp2) as [_ ->].
    destruct (placement_some P destDir p1 fp1 s1 Hp1) as [Ho _].
    now rewrite <- Hsame, Hk1, Ho. }
  split; [exact Hfail|]. split; [exact Hv1|].
  intros after.
  rewrite convert_files_app, Hbefore.
  change ([(p1, d1)] ++ between ++ [(p2, d2)] ++ after)
    with ((p1, d1) :: (between ++ (p2, d2) :: after)).
  cbn [convert_files]. unfold bind at 1. rewrite Hw1.
  rewrite convert_files_app, Hrun.
  cbn [convert_files]. unfold bind at 1. now rewrite Hfail.
Qed.

End Run.

(** * The theorems at concrete inputs *)

Lemma encode_decode_roundtrip_witness :
  (∃ meta,
     module_default (emitted_literal Demo.platform Sample.data) = Some meta
     ∧ fst (read_back Demo.platform meta []) = Ok Sample.data
     ∧ Base64.decodeBase64 (encoded meta)
       = Base64.decodeBase64
           (Base64.encodeBase64
              (if shouldCompress Demo.platform Sample.data
               then compress Demo.platform Sample.data "gzip"
               else Sample.data)))
  ∧ (∃ meta,
       module_default (emitted_literal Demo.platform []) = Some meta
       ∧ fst (read_back Demo.platform meta []) = Ok []).
Proof.
  apply (encode_decode_roundtrip Demo.platform Sample.data []).
  intros _. vm_compute. reflexivity.
Defined.

Lemma containment_witness :
  strict_descendant "/work/out" "/work/out/a_b/_c.d_ts.ts" = true
  ∧ ∃ message,
      addFile Demo.platform "/work/out" "../x" Sample.out_disk
      = (Throw (Error message), Sample.out_disk)
      ∧ ∀ data,
          writeFile Demo.platform "/work/out" "../x" data Sample.out_disk
          = (Throw (Error message), Sample.out_disk).
Proof.
  split.
  - apply (proj1 (containment Demo.platform "/work/out" "a b/c.d.ts"
                    Sample.out_disk eq_refl)
             (Sample.placed "a b/c.d.ts" "a b/c.d.ts" "./a_b/_c.d_ts.ts"
                "/work/out/a_b/_c.d_ts.ts")
             (snd (addFile Demo.platform "/work/out" "a b/c.d.ts" Sample.out_disk))).
    vm_compute. reflexivity.
  - apply (proj1 (proj2 (containment Demo.platform "/work/out" "../x"
                           Sample.out_disk eq_refl))).
    vm_compute. reflexivity.
Defined.

Lemma if_none_match_governs_witness :
  (∃ h,
     validator_headers Demo.platform Sample.dated_meta = Ok h
     ∧ serveFile Demo.platform Sample.registry
         (Demo.request "/hello.txt"
            [("if-none-match", "abc");
             ("if-modified-since", "Thu, 01 Jan 1970 00:00:04 GMT")])
         "hello.txt" None []
       = (Ok {| status := 304; statusText := "Not Modified";
                headers := h; body := BodyNull |}, []))
  ∧ serveFile Demo.platform Sample.registry
      (Demo.request "/hello.txt" [("if-none-match", "abc")]) "hello.txt" None []
    = serveFile Demo.platform Sample.registry
        (Demo.request "/hello.txt"
           [("if-none-match", "abc");
            ("if-modified-since", "Thu, 01 Jan 1970 00:00:04 GMT")])
        "hello.txt" None [].
Proof.
  pose proof (if_none_match_governs Demo.platform Sample.registry
                (Demo.request "/hello.txt"
                   [("if-none-match", "abc");
                    ("if-modified-since", "Thu, 01 Jan 1970 00:00:04 GMT")])
                "hello.txt" None Sample.dated_meta [] "abc"
                (or_intror (conj eq_refl eq_refl)) eq_refl) as [Hmatch Hsame].
  split.
  - apply Hmatch; reflexivity.
  - apply Hsame. intros name Hname. unfold Headers_get, Demo.request.
    cbn [req_headers].
    rewrite !filter_cons, !filter_nil.
    destruct (decide (("if-none-match", "abc").1 = name));
      destruct (decide (("if-modified-since", "Thu, 01 Jan 1970 00:00:04 GMT").1 = name));
      cbn in *; try congruence; reflexivity.
Defined.

Lemma name_collision_witness :
  writeFile Demo.platform "/work/out" "a_b" ["i"%byte]
    (snd (convert_files Demo.platform "/work/out" [("a b", ["h"%byte])] Sample.out_disk))
  = (Throw (Error (collision_message "/work/out/_a_b.ts" "a b" "a_b")),
     snd (convert_files Demo.platform "/work/out" [("a b", ["h"%byte])] Sample.out_disk))
  ∧ disk (snd (convert_files Demo.platform "/work/out" [("a b", ["h"%byte])]
                 Sample.out_disk)) !! "/work/out/_a_b.ts"
    = Some (FsFile (Str.join nl (outLines Demo.platform ["h"%byte]))).
Proof.
  pose proof (name_collision Demo.platform "/work/out" [] [] "a b" "a_b"
                ["h"%byte] ["i"%byte]
                (Sample.placed "a b" "a b" "./_a_b.ts" "/work/out/_a_b.ts")
                (Sample.placed "a_b" "a_b" "./_a_b.ts" "/work/out/_a_b.ts")
                Sample.out_disk
                (snd (convert_files Demo.platform "/work/out" [("a b", ["h"%byte])]
                        Sample.out_disk))) as H.
  destruct H as (Hfail & Hdisk & _).
  - vm_compute. reflexivity.
  - vm_compute. reflexivity.
  - reflexivity.
  - vm_compute. reflexivity.
  - split; [exact Hfail | exact Hdisk].
Defined.

(** C5 as stated fails: the first of two colliding inputs has been
    written when the second is refused, and stays written. *)
Lemma name_collision_first_is_written :
  fst (embedDir Demo.platform "out" [("a b", ["h"%byte]); ("a_b", ["i"%byte])]
         Demo.empty_disk)
  = Throw (Error (collision_message "/work/out/_a_b.ts" "a b" "a_b"))
  ∧ disk (snd (embedDir Demo.platform "out"
                 [("a b", ["h"%byte]); ("a_b", ["i"%byte])] Demo.empty_disk))
      !! "/work/out/_a_b.ts"
    = Some (FsFile (Str.join nl (outLines Demo.platform ["h"%byte]))).
Proof. split; vm_compute; reflexivity. Qed.



Lemma if_modified_since_boundary_witness :
  (∃ h,
     validator_headers Demo.platform Sample.dated_meta = Ok h
     ∧ serveFile Demo.platform Sample.registry
         (Demo.request "/hello.txt"
            [("if-modified-since", "Thu, 01 Jan 1970 00:00:05 GMT")])
         "hello.txt" None []
       = (Ok {| status := 304; statusText := "Not Modified";
                headers := h; body := BodyNull |}, []))
  ∧ (∃ h h' log',
       validator_headers Demo.platform Sample.dated_meta = Ok h
       ∧ entity_headers Demo.platform "hello.txt" Sample.dated_meta h = Ok h'
       ∧ serveFile Demo.platform Sample.registry
           (Demo.request "/hello.txt"
              [("if-modified-since", "Thu, 01 Jan 1970 00:00:04 GMT")])
           "hello.txt" None []
         = (Ok {| status := 200; statusText := "OK";
                  headers := h'; body := BodyBytes Sample.hello |}, log')).
Proof.
  split.
  - destruct (if_modified_since_boundary Demo.platform Sample.registry
                (Demo.request "/hello.txt"
                   [("if-modified-since", "Thu, 01 Jan 1970 00:00:05 GMT")])
                "hello.txt" None Sample.dated_meta []
                "Thu, 01 Jan 1970 00:00:05 GMT" 5000 5000 Sample.hello
                eq_refl (or_introl eq_refl) eq_refl eq_refl
                ltac:(discriminate) eq_refl eq_refl eq_refl eq_refl eq_refl)
      as (h & h' & Hh & _ & Hnot_modified & _).
    exists h. split; [exact Hh|]. apply Hnot_modified. lia.
  - destruct (if_modified_since_boundary Demo.platform Sample.registry
                (Demo.request "/hello.txt"
                   [("if-modified-since", "Thu, 01 Jan 1970 00:00:04 GMT")])
                "hello.txt" None Sample.dated_meta []
                "Thu, 01 Jan 1970 00:00:04 GMT" 4000 5000 Sample.hello
                eq_refl (or_introl eq_refl) eq_refl eq_refl
                ltac:(discriminate) eq_refl eq_refl eq_refl eq_refl eq_refl)
      as (h & h' & Hh & Hh' & _ & Hfull).
    destruct Hfull as [log' Hserve]; [lia|].
    exists h, h', log'. auto.
Defined.

(** C7 as stated fails at the boundary: a requested time equal to the
    stored modification time minus one second is answered 200. *)
Lemma if_modified_since_at_boundary_is_200 :
  mtime Sample.dated_meta = Some (Some 5000)
  ∧ Demo.parse_date "Thu, 01 Jan 1970 00:00:04 GMT" = Some (5000 - 1000)
  ∧ serveFile Demo.platform Sample.registry
      (Demo.request "/hello.txt"
         [("if-modified-since", "Thu, 01 Jan 1970 00:00:04 GMT")])
      "hello.txt" None []
    = (Ok {| status := 200; statusText := "OK";
             headers := [("server", "deno"); ("accept-ranges", "bytes");
                         ("last-modified", "Thu, 01 Jan 1970 00:00:05 GMT");
                         ("etag", "abc");
                         ("content-type", "text/plain; charset=UTF-8");
                         ("content-length", "5")];
             body := BodyBytes Sample.hello |}, [EvDecodeBase64]).
Proof. repeat split; vm_compute; reflexivity. Qed.



Lemma unknown_path_witness :
  Embeds_stat Demo.platform Sample.registry "missing" [] = (Ok None, [])
  ∧ Embeds_get Demo.platform Sample.registry "missing" [] = (Ok None, [])
  ∧ Embeds_load Demo.platform Sample.registry "missing" [] = (Throw TypeError, [])
  ∧ ∃ resp,
      serveFile Demo.platform Sample.registry (Demo.request "/missing" [])
        "missing" None []
      = (Ok resp, [])
      ∧ status resp = 404
      ∧ Headers_get (headers resp) "etag" = None
      ∧ Headers_get (headers resp) "last-modified" = None.
Proof.
  apply (unknown_path Demo.platform Sample.registry (Demo.request "/missing" [])
           "missing" []).
  - vm_compute. reflexivity.
  - intros H. vm_compute in H. repeat (apply elem_of_cons in H as [H|H]; [discriminate H|]).
    now apply elem_of_nil in H.
Defined.

(** C9 as stated fails for [load]: on a path that is not registered it
    throws instead of returning null. *)
Lemma load_of_unknown_path_throws :
  Embeds_load Demo.platform Sample.registry "missing" [] = (Throw TypeError, []).
Proof. vm_compute. reflexivity. Qed.

Lemma fresh_manifest_has_no_validators_witness :
  ∃ resp log',
    serveFile Demo.platform Sample.fresh_registry Sample.conditional_request
      "a/b" None []
    = (Ok resp, log')
    ∧ status resp ≠ 304 ∧ no_validators (headers resp).
Proof.
  exists (match fst (serveFile Demo.platform Sample.fresh_registry
                       Sample.conditional_request "a/b" None []) with
          | Ok resp => resp
          | Throw _ => createStandardResponse 500
          end),
         (snd (serveFile Demo.platform Sample.fresh_registry
                 Sample.conditional_request "a/b" None [])).
  split; [vm_compute; reflexivity|].
  destruct (fresh_manifest_has_no_validators Demo.platform) as (_ & Hserve & _).
  apply (Hserve Sample.fresh_registry Sample.conditional_request "a/b" []
           _ (snd (serveFile Demo.platform Sample.fresh_registry
                     Sample.conditional_request "a/b" None []))).
  - intros k m Hk. unfold Sample.fresh_registry in Hk.
    apply lookup_singleton_Some in Hk as [_ <-].
    exists Sample.data. vm_compute. reflexivity.
  - vm_compute. reflexivity.
Defined.

(** * Further properties of the build-time CLI *)

(** ** The directory walk *)

Lemma DirEntry_ind' (Q : DirEntry → Prop) :
  (∀ name, Q (EntryFile name)) →
  (∀ name, Q (EntrySymlink name)) →
  (∀ name children, Forall Q children → Q (EntryDir name children)) →
  ∀ entry, Q entry.
Proof.
  intros Hfile Hlink Hdir. fix IH 1. intros [name|name|name children].
  - apply Hfile.
  - apply Hlink.
  - apply Hdir. induction children as [|c cs IHcs]; constructor;
      [apply IH | exact IHcs].
Qed.

Lemma fold_right_and_Forall {A} (Q : A → Prop) (l : list A) :
  fold_right (λ c acc, Q c ∧ acc) True l ↔ Forall Q l.
Proof.
  induction l as [|a l IH]; cbn.
  - split; [constructor | trivial].
  - rewrite Forall_cons. tauto.
Qed.

Lemma join_relative (l1 l2 : list string) :
  l1 ≠ [] → l2 ≠ [] → Forall clean_segment l1 → Forall clean_segment l2 →
  Path.join [Str.join_slash l1; Str.join_slash l2] = Str.join_slash (l1 ++ l2).
Proof.
  intros H1 H2 Hc1 Hc2. unfold Path.join.
  destruct (join_clean_ends l1 H1 Hc1) as (Ht1 & _).
  destruct (join_clean_ends l2 H2 Hc2) as (Ht2 & _).
  rewrite !filter_cons, filter_nil.
  destruct (decide (Str.truthy (Str.join_slash l1) = true)); [|contradiction].
  destruct (decide (Str.truthy (Str.join_slash l2) = true)); [|contradiction].
  change (Str.join_slash [Str.join_slash l1; Str.join_slash l2])
    with (Str.join_slash l1 +:+ "/" +:+ Str.join_slash l2).
  rewrite <- join_slash_app by assumption.
  assert (Hne : l1 ++ l2 ≠ []) by (destruct l1; [contradiction | discriminate]).
  assert (Hc : Forall clean_segment (l1 ++ l2)) by now apply Forall_app.
  destruct (join_clean_ends _ Hne Hc) as (Ht & _).
  unfold Path.is_empty. rewrite Ht. cbn [negb].
  now apply normalize_relative.
Qed.

Lemma yielded_app (a b : list walk_event) : yielded (a ++ b) = yielded a ++ yielded b.
Proof. unfold yielded. apply flat_map_app. Qed.

Lemma warned_app (a b : list walk_event) : warned (a ++ b) = warned a ++ warned b.
Proof. unfold warned. apply flat_map_app. Qed.

Lemma yielded_rename (dirName : string) (events : list walk_event) :
  yielded (map (rename_yield dirName) events)
  = map (λ name, Path.join [dirName; name]) (yielded events).
Proof.
  induction events as [|[name|m] events IH]; [reflexivity|..]; cbn.
  - f_equal. exact IH.
  - exact IH.
Qed.

Lemma warned_rename (dirName : string) (events : list walk_event) :
  warned (map (rename_yield dirName) events) = warned events.
Proof.
  induction events as [|[name|m] events IH]; [reflexivity|..]; cbn.
  - exact IH.
  - f_equal. exact IH.
Qed.

(** The leaves below clean names are non-empty lists of clean names. *)
Lemma file_leaves_clean (entry : DirEntry) :
  names_clean entry →
  Forall (λ l, l ≠ [] ∧ Forall clean_segment l) (file_leaves entry).
Proof.
  induction entry as [name|name|name children IH] using DirEntry_ind'; cbn.
  - intros Hn. constructor; [|constructor].
    split; [discriminate|]. constructor; [assumption | constructor].
  - constructor.
  - intros [Hn Hch]. apply fold_right_and_Forall in Hch.
    apply Forall_map. apply Forall_flat_map.
    rewrite Forall_forall in IH, Hch. apply Forall_forall. intros c Hc.
    eapply Forall_impl; [apply (IH c Hc), (Hch c Hc)|].
    cbn. intros l [Hne Hl]. split; [discriminate | now constructor].
Qed.

Lemma walk_entry_yields (entry : DirEntry) :
  names_clean entry →
  yielded (recursiveReadDir_entry entry) = map Str.join_slash (file_leaves entry)
  ∧ warned (recursiveReadDir_entry entry)
    = map (String.app "Symlinks are unsupported: ") (link_names entry).
Proof.
  induction entry as [name|name|name children IH] using DirEntry_ind'.
  - intros _. split; reflexivity.
  - intros _. split; reflexivity.
  - intros [Hn Hch]. apply fold_right_and_Forall in Hch.
    cbn [recursiveReadDir_entry file_leaves link_names].
    rewrite yielded_rename, warned_rename.
    assert (Hall : yielded (flat_map recursiveReadDir_entry children)
                   = map Str.join_slash (flat_map file_leaves children)
                   ∧ warned (flat_map recursiveReadDir_entry children)
                     = map (String.app "Symlinks are unsupported: ")
                         (flat_map link_names children)
                   ∧ Forall (λ l, l ≠ [] ∧ Forall clean_segment l)
                       (flat_map file_leaves children)).
    { clear Hn. induction children as [|c cs IHcs]; [repeat split; constructor|].
      inversion IH as [|? ? Hc Hcs]; subst. inversion Hch as [|? ? Hcc Hccs]; subst.
      destruct (Hc Hcc) as [Hy Hw]. destruct (IHcs Hcs Hccs) as (Hys & Hws & Hcl).
      cbn [flat_map]. rewrite yielded_app, warned_app, !map_app, Hy, Hw, Hys, Hws.
      repeat split. apply Forall_app. split; [now apply file_leaves_clean | exact Hcl]. }
    destruct Hall as (Hy & Hw & Hcl). split; [|exact Hw].
    rewrite Hy, !map_map. clear Hy Hw.
    induction Hcl as [|l ls [Hne Hl] _ IHls]; [reflexivity|].
    cbn [map]. f_equal; [|exact IHls].
    change name with (Str.join_slash [name]) at 1.
    rewrite join_relative; [reflexivity | discriminate | assumption | | assumption].
    now constructor.
Qed.

(** X1. [recursiveReadDir] yields exactly the regular files that can be
    reached without following a link, depth first in listing order, each
    under the "/"-joined names on the way to it, and prints one warning
    per link; every name it yields is a relative path of clean segments. *)
Theorem recursiveReadDir_yields (listing : list DirEntry) :
  listing_clean listing →
  yielded (recursiveReadDir listing)
  = map Str.join_slash (flat_map file_leaves listing)
  ∧ warned (recursiveReadDir listing)
    = map (String.app "Symlinks are unsupported: ") (flat_map link_names listing)
  ∧ Forall (λ name, ∃ l, l ≠ [] ∧ Forall clean_segment l ∧ name = Str.join_slash l)
      (yielded (recursiveReadDir listing)).
Proof.
  intros Hclean. unfold recursiveReadDir.
  assert (H : yielded (flat_map recursiveReadDir_entry listing)
              = map Str.join_slash (flat_map file_leaves listing)
              ∧ warned (flat_map recursiveReadDir_entry listing)
                = map (String.app "Symlinks are unsupported: ")
                    (flat_map link_names listing)
              ∧ Forall (λ l, l ≠ [] ∧ Forall clean_segment l)
                  (flat_map file_leaves listing)).
  { induction Hclean as [|c cs Hc Hcs IH]; [repeat split; constructor|].
    destruct (walk_entry_yields c Hc) as [Hy Hw]. destruct IH as (Hys & Hws & Hcl).
    cbn [flat_map]. rewrite yielded_app, warned_app, !map_app, Hy, Hw, Hys, Hws.
    repeat split. apply Forall_app. split; [now apply file_leaves_clean | exact Hcl]. }
  destruct H as (Hy & Hw & Hcl). split; [exact Hy|]. split; [exact Hw|].
  rewrite Hy. apply Forall_map. eapply Forall_impl; [exact Hcl|].
  cbn. intros l [Hne Hl]. exists l. auto.
Qed.


(** ** The destination of [embedDir] *)

(** X2. Whatever destination [embedDir] is given, relative or absolute,
    with or without "." and "..", the writer it constructs accepts it: the
    resolved destination is absolute and in resolved form, the working
    directory being absolute. *)
Theorem embedDir_destination (P : Platform) (dst : string) :
  Path.isAbsolute (cwd P) = true →
  ∃ destDir,
    EmbedWriter_new (Path.resolve (cwd P) [cwd P; dst]) = Ok destDir
    ∧ destDir = Path.resolve (cwd P) [cwd P; dst]
    ∧ Path.isAbsolute destDir = true
    ∧ is_resolved destDir = true.
Proof.
  intros Hcwd.
  assert (Habs : snd (Path.resolve_loop (cwd P :: [cwd P; dst])) = true).
  { rewrite resolve_loop_keep; now apply resolve_loop_absolute. }
  destruct (resolve_form (cwd P) [cwd P; dst] Habs) as (L & HL & Hres).
  assert (Hnew : EmbedWriter_new (Path.resolve (cwd P) [cwd P; dst])
                 = Ok (Path.resolve (cwd P) [cwd P; dst])).
  { rewrite Hres. reflexivity. }
  eexists. split; [exact Hnew|]. split; [reflexivity|]. split.
  - rewrite Hres. apply abspath_absolute.
  - exact (resolve_is_resolved _ _ _ Hnew).
Qed.

(** ** The line structure of the encoded text *)

Lemma concat_strings_app (a b : list string) :
  concat_strings (a ++ b) = concat_strings a +:+ concat_strings b.
Proof.
  induction a as [|x a IH]; [reflexivity|].
  cbn [app concat_strings fold_right]. fold (concat_strings (a ++ b)).
  fold (concat_strings a). now rewrite IH, string_app_assoc.
Qed.

Lemma one_line_app (a b : string) : one_line (a +:+ b) = one_line a && one_line b.
Proof. apply all_chars_app. Qed.

(** A short line has no place for a break. *)
Lemma match_dots_short (n : nat) (s : string) :
  (String.length s < n)%nat → match_dots n s = None.
Proof.
  revert s. induction n as [|n IH]; intros s Hs; [lia|].
  destruct s as [|c s]; [reflexivity|]. cbn in *.
  destruct (is_line_terminator c); [reflexivity|].
  now rewrite IH by lia.
Qed.

Lemma hard_wrap_go_short (fuel : nat) (s : string) :
  (String.length s < 120)%nat → hard_wrap_go fuel s = s.
Proof.
  revert s. induction fuel as [|fuel IH]; intros s Hs; [reflexivity|].
  cbn [hard_wrap_go]. rewrite match_dots_short by assumption.
  destruct s as [|c s]; [reflexivity|].
  rewrite IH; [reflexivity | cbn in Hs; lia].
Qed.

(** On one line, the pattern matches as soon as there are enough
    characters. *)
Lemma match_dots_long (n : nat) (s : string) :
  one_line s = true → (n ≤ String.length s)%nat →
  ∃ m rest, match_dots n s = Some (m, rest)
            ∧ s = m +:+ rest ∧ String.length m = n ∧ one_line rest = true.
Proof.
  revert s. induction n as [|n IH]; intros s Hs Hlen.
  - exists "", s. repeat split. exact Hs.
  - destruct s as [|c s]; [cbn in Hlen; lia|].
    unfold one_line in Hs. cbn [all_chars] in Hs. apply andb_prop in Hs as [Hc Hs].
    apply negb_true_iff in Hc.
    destruct (IH s Hs) as (m & rest & Hm & -> & Hl & Hr); [cbn in Hlen; lia|].
    exists (String c m), rest. cbn [match_dots]. rewrite Hc, Hm.
    repeat split; [cbn; now rewrite Hl | exact Hr].
Qed.

Lemma hard_wrap_go_chunks (fuel : nat) (s : string) :
  one_line s = true → (String.length s ≤ fuel)%nat →
  ∃ chunks last,
    s = concat_strings chunks +:+ last
    ∧ Forall (λ c, String.length c = 120%nat) chunks
    ∧ (String.length last < 120)%nat
    ∧ hard_wrap_go fuel s = concat_strings (map (λ c, c +:+ nl) chunks) +:+ last.
Proof.
  revert s. induction fuel as [|fuel IH]; intros s Hs Hfuel.
  - exists [], s. destruct s; [|cbn in Hfuel; lia]. repeat split; [constructor | cbn; lia].
  - destruct (Nat.lt_ge_cases (String.length s) 120) as [Hshort | Hlong].
    + exists [], s. repeat split; [constructor | assumption|].
      now rewrite hard_wrap_go_short.
    + destruct (match_dots_long 120 s Hs Hlong) as (m & rest & Hm & -> & Hl & Hr).
      rewrite string_app_length in Hfuel.
      destruct (IH rest Hr) as (chunks & last & -> & Hch & Hlast & Hgo); [lia|].
      exists (m :: chunks), last.
      cbn [hard_wrap_go]. rewrite Hm, Hgo.
      cbn [map concat_strings fold_right].
      fold (concat_strings chunks).
      fold (concat_strings (map (λ c, c +:+ nl) chunks)).
      rewrite !string_app_assoc.
      repeat split; [constructor; assumption | assumption].
Qed.

Lemma one_line_letters (l : list N) :
  Forall (λ n, (n < 64)%N) l → one_line (letters l) = true.
Proof.
  induction 1 as [|n l Hn _ IH]; [reflexivity|].
  cbn [letters]. unfold one_line in *. cbn [all_chars].
  destruct (letter_facts n Hn) as (_ & _ & _ & ->). exact IH.
Qed.

Lemma one_line_encodeBase64 (data : list byte) :
  one_line (Base64.encodeBase64 data) = true.
Proof.
  rewrite encodeBase64_letters, one_line_app.
  rewrite one_line_letters by apply encode_sextets_bound.
  destruct (padding_cases data) as [-> | [-> | ->]]; reflexivity.
Qed.

(** X3. The text [writeFile] prints for [encoded] is the base64 text of
    the selected bytes cut into lines: each full run of 120 characters is
    followed by a line feed, and what is left, fewer than 120 characters,
    ends the text.  So no line of it is longer than 120 characters, and
    taking the line feeds out gives the base64 text back. *)
Theorem wrapped_encoding_lines (P : Platform) (data : list byte) :
  ∃ chunks last,
    Base64.encodeBase64
      (if shouldCompress P data then compress P data "gzip" else data)
    = concat_strings chunks +:+ last
    ∧ Forall (λ c, String.length c = 120%nat) chunks
    ∧ (String.length last < 120)%nat
    ∧ wrapped_encoding P data
      = concat_strings (map (λ c, c +:+ nl) chunks) +:+ last.
Proof.
  unfold wrapped_encoding, hard_wrap.
  assert (H : (if shouldCompress P data
               then Base64.encodeBase64 (compress P data "gzip")
               else Base64.encodeBase64 data)
              = Base64.encodeBase64
                  (if shouldCompress P data then compress P data "gzip" else data))
    by (destruct (shouldCompress P data); reflexivity).
  rewrite H. apply hard_wrap_go_chunks; [apply one_line_encodeBase64 | lia].
Qed.


(** ** Paths with empty and "." segments *)

Lemma normalize_segments_filter (a : bool) (stack l : list string) :
  Path.normalize_segments a stack l
  = Path.normalize_segments a stack
      (filter (λ s, (Path.is_empty s || Path.is_dot s) = false) l).
Proof.
  revert stack. induction l as [|s l IH]; intros stack; [reflexivity|].
  rewrite filter_cons.
  destruct (decide ((Path.is_empty s || Path.is_dot s) = false)) as [Hkeep | Hskip].
  - cbn [Path.normalize_segments]. rewrite Hkeep.
    destruct (Path.is_dotdot s).
    + destruct stack as [|top below]; [apply IH|].
      destruct (Path.is_dotdot top); apply IH.
    + apply IH.
  - apply not_false_is_true in Hskip.
    cbn [Path.normalize_segments]. rewrite Hskip. apply IH.
Qed.

Lemma split_join_app (l : list string) (t : string) :
  l ≠ [] → Forall (λ x, Str.no_slash x = true) l →
  Str.split_slash (Str.join_slash l +:+ "/" +:+ t) = l ++ Str.split_slash t.
Proof.
  intros Hne Hl. induction l as [|x l IH]; [contradiction|].
  inversion Hl as [|? ? Hx Hl']; subst.
  destruct l as [|y l].
  - change (Str.join_slash [x]) with x. now apply split_slash_app.
  - rewrite join_slash_cons, !string_app_assoc.
    rewrite split_slash_app by assumption.
    cbn [app]. f_equal. apply IH; [discriminate | assumption].
Qed.

(** [normalizeString] of a path given by its segments, none of them
    "..": the empty and the "." segments go. *)
Lemma normalizeString_segments (a : bool) (l : list string) :
  l ≠ [] → Forall (λ x, Str.no_slash x = true) l →
  Forall clean_segment (filter (λ s, (Path.is_empty s || Path.is_dot s) = false) l) →
  Path.normalizeString (Str.join_slash l) a
  = Str.join_slash (filter (λ s, (Path.is_empty s || Path.is_dot s) = false) l).
Proof.
  intros Hne Hl Hkept. unfold Path.normalizeString.
  rewrite split_join_slash by assumption.
  rewrite normalize_segments_filter.
  now rewrite normalize_segments_id.
Qed.

Lemma filter_kept_clean (l : list string) :
  Forall clean_segment l →
  filter (λ s, (Path.is_empty s || Path.is_dot s) = false) l = l.
Proof.
  induction 1 as [|x l Hx _ IH]; [reflexivity|].
  destruct (clean_flags x Hx) as (He & Hd & _).
  rewrite filter_cons_True by now rewrite He, Hd. now rewrite IH.
Qed.

(** The segments of an absolute path of clean segments, as [split] gives
    them after the leading empty one. *)
Lemma abspath_join (lp : list string) :
  abspath lp = Str.join_slash ("" :: match lp with [] => [""] | _ => lp end).
Proof. destruct lp as [|x [|y lp]]; reflexivity. Qed.

(** [path.resolve(destDir, filePath)] for a resolved directory and a
    relative path of clean segments. *)
Lemma resolve_under (c : string) (lp rest : list string) :
  Forall clean_segment lp → Forall clean_segment rest → rest ≠ [] →
  Path.resolve c [abspath lp; Str.join_slash rest] = abspath (lp ++ rest).
Proof.
  intros Hlp Hrest Hne.
  destruct (join_clean_ends rest Hne Hrest) as (Ht & Hf & _).
  unfold Path.resolve.
  rewrite resolve_loop_keep by now apply resolve_loop_absolute.
  cbn [Path.resolve_loop]. unfold Path.is_empty, Path.isAbsolute.
  rewrite Ht, Hf. cbn [negb].
  change (Str.truthy (abspath lp)) with true. cbn [negb].
  change (Str.first_is_slash (abspath lp)) with true. cbn [negb].
  set (L := "" :: (match lp with [] => [""] | _ => lp end) ++ rest ++ [""]).
  assert (HS : abspath lp +:+ "/" +:+ Str.join_slash rest +:+ "/" +:+ ""
               = Str.join_slash L).
  { subst L. rewrite abspath_join.
    change ("" :: ?l ++ rest ++ [""]) with (("" :: l) ++ (rest ++ [""])).
    rewrite join_slash_app; [|discriminate | now destruct rest].
    f_equal. rewrite join_slash_snoc by assumption. reflexivity. }
  rewrite HS.
  assert (Hkept : filter (λ s, (Path.is_empty s || Path.is_dot s) = false) L
                  = lp ++ rest).
  { subst L. rewrite filter_cons_False by (cbn; discriminate).
    rewrite !filter_app, (filter_kept_clean rest Hrest).
    rewrite filter_cons_False by (cbn; discriminate). rewrite filter_nil, app_nil_r.
    f_equal. destruct lp as [|x lp]; [reflexivity|]. now apply filter_kept_clean. }
  rewrite normalizeString_segments.
  - rewrite Hkept. unfold abspath.
    destruct (Str.join_slash (lp ++ rest)); reflexivity.
  - discriminate.
  - subst L. constructor; [reflexivity|]. apply Forall_app. split.
    + destruct lp; [repeat constructor | now apply clean_no_slash].
    + apply Forall_app. split; [now apply clean_no_slash | repeat constructor].
  - rewrite Hkept. now apply Forall_app.
Qed.

(** [path.join(destDir, "./" + normalized)]: the import path of a module,
    read from the directory of the manifest. *)
Lemma join_under_dot (lp rest : list string) :
  Forall clean_segment lp → Forall clean_segment rest → rest ≠ [] →
  Path.join [abspath lp; "./" +:+ Str.join_slash rest] = abspath (lp ++ rest).
Proof.
  intros Hlp Hrest Hne.
  destruct (join_clean_ends rest Hne Hrest) as (Ht & Hf & He).
  unfold Path.join.
  rewrite filter_cons_True by reflexivity.
  rewrite filter_cons_True by reflexivity.
  rewrite filter_nil.
  change (Str.join_slash [abspath lp; "./" +:+ Str.join_slash rest])
    with (abspath lp +:+ "/" +:+ "./" +:+ Str.join_slash rest).
  set (L := "" :: (match lp with [] => [""] | _ => lp end) ++ ["."] ++ rest).
  assert (HS : abspath lp +:+ "/" +:+ "./" +:+ Str.join_slash rest = Str.join_slash L).
  { subst L. rewrite abspath_join.
    change ("" :: ?l ++ ["."] ++ rest) with (("" :: l) ++ ("." :: rest)).
    rewrite join_slash_app; [|discriminate | discriminate].
    f_equal. destruct rest as [|y rest]; [contradiction|].
    rewrite join_slash_cons. reflexivity. }
  rewrite HS.
  assert (Hkept : filter (λ s, (Path.is_empty s || Path.is_dot s) = false) L
                  = lp ++ rest).
  { subst L. rewrite filter_cons_False by (cbn; discriminate).
    rewrite !filter_app, (filter_kept_clean rest Hrest).
    rewrite filter_cons_False by (cbn; discriminate). rewrite filter_nil.
    cbn [app]. f_equal. destruct lp as [|x lp]; [reflexivity|].
    now apply filter_kept_clean. }
  assert (Hnorm : Path.normalizeString (Str.join_slash L) false
                  = Str.join_slash (lp ++ rest)).
  { rewrite normalizeString_segments.
    - now rewrite Hkept.
    - discriminate.
    - subst L. constructor; [reflexivity|]. apply Forall_app. split.
      + destruct lp; [repeat constructor | now apply clean_no_slash].
      + constructor; [reflexivity | now apply clean_no_slash].
    - rewrite Hkept. now apply Forall_app. }
  assert (Hfirst : Str.join_slash L = String "/" (Str.drop 1 (Str.join_slash L))).
  { rewrite <- HS. reflexivity. }
  assert (Hlast : Str.endsWith_slash (Str.join_slash L) = false).
  { rewrite <- HS. unfold Str.endsWith_slash.
    rewrite !last_char_app; [exact He | ..];
      try (intros E; rewrite E in Ht; discriminate).
    - destruct (Str.join_slash rest); discriminate.
    - destruct (Str.join_slash rest); discriminate. }
  assert (Htruthy : Str.truthy (Str.join_slash L) = true) by now rewrite Hfirst.
  assert (Habs : Str.first_is_slash (Str.join_slash L) = true) by now rewrite Hfirst.
  unfold Path.normalize, Path.is_empty, Path.isAbsolute.
  rewrite Htruthy, Habs, Hlast. cbn [negb]. rewrite Hnorm.
  rewrite !andb_false_r. reflexivity.
Qed.


(** ** The names the writer gives *)

Lemma no_space_replace_space_runs (s : string) :
  no_space (Str.replace_space_runs s) = true.
Proof.
  unfold no_space. induction s as [|c s IH]; [reflexivity|].
  cbn [Str.replace_space_runs].
  destruct (Ascii.eqb c " ") eqn:Hc.
  - destruct s as [|c' s]; [reflexivity|].
    destruct (Ascii.eqb c' " "); [exact IH|].
    cbn [all_chars]. exact IH.
  - cbn [all_chars]. now rewrite Hc, IH.
Qed.

Lemma no_space_dot_relaxed (s s' : string) :
  dot_relaxed s s' → no_space s = true → no_space s' = true.
Proof.
  unfold no_space. induction 1 as [|c s s' _ IH|s s' _ IH]; [auto|..];
    cbn [all_chars]; intros [Hc Hs]%andb_prop.
  - now rewrite Hc, IH.
  - now rewrite IH.
Qed.

Lemma no_space_app (a b : string) : no_space (a +:+ b) = no_space a && no_space b.
Proof. apply all_chars_app. Qed.

Lemma no_space_join_slash (l : list string) :
  no_space (Str.join_slash l) = forallb no_space l.
Proof.
  induction l as [|x l IH]; [reflexivity|].
  destruct l as [|y l].
  - change (Str.join_slash [x]) with x. cbn. now rewrite andb_true_r.
  - rewrite join_slash_cons, !no_space_app, IH. reflexivity.
Qed.

Lemma no_space_generated (front : list string) (last : string) :
  no_space (Str.join_slash (front ++ [last])) = true →
  no_space ("./" +:+ Str.join_slash (front ++ ["_" +:+ last +:+ ".ts"])) = true.
Proof.
  rewrite no_space_app, !no_space_join_slash, !forallb_app. cbn [forallb].
  rewrite !andb_true_r. intros [Hf Hl]%andb_prop.
  rewrite Hf, !no_space_app, Hl. reflexivity.
Qed.

Section Names.

Context (P : Platform).

(** [file_paths] for a relative path of clean segments below a resolved
    destination. *)
Lemma file_paths_clean (filePath : string) (lp rest : list string) :
  Forall clean_segment lp → Forall clean_segment rest → rest ≠ [] →
  ∃ front last,
    Forall clean_segment front ∧ clean_segment last
    ∧ Str.replaceAll ".d.ts" ".d_ts" (Str.replace_space_runs (Str.join_slash rest))
      = Str.join_slash (front ++ [last])
    ∧ file_paths P (abspath lp) filePath (abspath (lp ++ rest))
      = {| original := filePath;
           relative := Str.join_slash rest;
           import := "./" +:+ Str.join_slash (front ++ ["_" +:+ last +:+ ".ts"]);
           onDisk := abspath (lp ++ front ++ ["_" +:+ last +:+ ".ts"]) |}.
Proof.
  intros Hlp Hrest Hne. unfold file_paths, toPosix.
  rewrite relative_abspath by assumption.
  destruct (normalized_name_segments rest Hne Hrest) as (l1 & Hne1 & Hl1 & E).
  destruct (exists_last Hne1) as (l0 & y & ->).
  apply Forall_app in Hl1 as [Hl0 Hy]. inversion Hy as [|? ? Hy' _]; subst.
  exists l0, y. split; [assumption|]. split; [assumption|]. split; [exact E|].
  rewrite E, parse_relative by assumption. cbn [Path.dir Path.base].
  assert (Hname : clean_segment ("_" +:+ y +:+ ".ts")).
  { apply generated_name_clean. now destruct Hy' as (_ & _ & _ & ?). }
  rewrite join_dir_name by assumption.
  rewrite join_under; [reflexivity | assumption | now apply Forall_clean_snoc |
                       now destruct l0].
Qed.

(** X4. A relative input path of clean segments is always placed, below
    any resolved destination: it passes the guard; it is registered under
    itself, spaces and all; its module is named after the sanitized path
    (runs of spaces and ".d.ts" replaced), with "_" before its last
    segment and ".ts" after it; the import path, read from the destination, is
    the on-disk path; and the import path holds no space. *)
Theorem clean_path_placement (destDir : string) (rest : list string) :
  is_resolved destDir = true → rest ≠ [] → Forall clean_segment rest →
  ∃ paths front last,
    (∀ s, files s !! onDisk paths = None →
          addFile P destDir (Str.join_slash rest) s
          = (Ok paths, set_files (<[onDisk paths := paths]> (files s)) s))
    ∧ original paths = Str.join_slash rest
    ∧ relative paths = Str.join_slash rest
    ∧ Str.replaceAll ".d.ts" ".d_ts" (Str.replace_space_runs (Str.join_slash rest))
      = Str.join_slash (front ++ [last])
    ∧ Str.no_slash last = true
    ∧ import paths = "./" +:+ Str.join_slash (front ++ ["_" +:+ last +:+ ".ts"])
    ∧ Path.join [destDir; import paths] = onDisk paths
    ∧ no_space (import paths) = true.
Proof.
  intros (lp & Hlp & ->)%is_resolved_form Hne Hrest.
  destruct (file_paths_clean (Str.join_slash rest) lp rest Hlp Hrest Hne)
    as (front & last & Hfront & Hlast & Hsan & Hpaths).
  assert (Hname : clean_segment ("_" +:+ last +:+ ".ts")).
  { apply generated_name_clean. now destruct Hlast as (_ & _ & _ & ?). }
  exists {| original := Str.join_slash rest;
            relative := Str.join_slash rest;
            import := "./" +:+ Str.join_slash (front ++ ["_" +:+ last +:+ ".ts"]);
            onDisk := abspath (lp ++ front ++ ["_" +:+ last +:+ ".ts"]) |},
         front, last.
  split; [|split; [|split; [|split; [|split; [|split; [|split]]]]]].
  - intros s Hfree. rewrite addFile_unfold.
    rewrite resolve_under, parentChild_descendant by assumption.
    cbn zeta. rewrite Hpaths. cbn [onDisk original] in *.
    rewrite Hfree. reflexivity.
  - reflexivity.
  - reflexivity.
  - exact Hsan.
  - now destruct Hlast as (_ & _ & _ & ?).
  - reflexivity.
  - cbn [import onDisk].
    rewrite join_under_dot; [now rewrite app_assoc | assumption |
                             now apply Forall_clean_snoc | now destruct front].
  - cbn [import]. apply no_space_generated. rewrite <- Hsan.
    eapply no_space_dot_relaxed; [apply replaceAll_dts_relaxed|].
    apply no_space_replace_space_runs.
Qed.

End Names.


(** * Further properties of the store *)

Section StoreMore.

Context (P : Platform).









End StoreMore.


Section StoreKeys.

Context (P : Platform).

(** X6. On a registered key, [stat] answers the record without touching
    its content, even when the content is not base64; [get] and [load]
    decode the base64 text, once, and do not decompress: they answer an
    instance that holds the stored bytes under the record's compression
    tag, or throw [InvalidCharacterError] when the text is not base64;
    and [get] answers what [load] answers. *)
Theorem registered_key (embeds : EmbedsDef) (filePath : string) (meta : FileMeta)
  (log : list event) :
  embeds !! filePath = Some meta →
  Embeds_stat P embeds filePath log = (Ok (Some meta), log)
  ∧ Embeds_load P embeds filePath log
    = match Base64.decodeBase64 (encoded meta) with
      | Some stored =>
          (Ok {| File_size := size meta;
                 contents_bytes := stored;
                 contents_compression := compression meta;
                 cachedText := None |}, log ++ [EvDecodeBase64])
      | None => (Throw InvalidCharacterError, log ++ [EvDecodeBase64])
      end
  ∧ Embeds_get P embeds filePath log
    = match Embeds_load P embeds filePath log with
      | (Ok file, log1) => (Ok (Some file), log1)
      | (Throw e, log1) => (Throw e, log1)
      end.
Proof.
  intros Hk. unfold Embeds_stat, Embeds_load, Embeds_get.
  rewrite (embeds_property_own embeds filePath meta Hk).
  unfold import_default, File_of_default, File_new, decodeBase64,
    bind, tick, modify, ret, throw.
  destruct (Base64.decodeBase64 (encoded meta)); repeat split.
Qed.

(** X7. [list] gives the registered keys, each once, and every key it
    gives can be looked up: [stat] answers its record. *)
Theorem Embeds_list_keys (embeds : EmbedsDef) :
  NoDup (Embeds_list embeds)
  ∧ (∀ k, k ∈ Embeds_list embeds ↔ is_Some (embeds !! k))
  ∧ (∀ k log, k ∈ Embeds_list embeds →
       ∃ meta, embeds !! k = Some meta
               ∧ Embeds_stat P embeds k log = (Ok (Some meta), log)).
Proof.
  unfold Embeds_list.
  assert (Hmem : ∀ k, k ∈ map fst (map_to_list embeds) ↔ is_Some (embeds !! k)).
  { intros k. change (map fst (map_to_list embeds)) with (fst <$> map_to_list embeds). rewrite list_elem_of_fmap. split.
    - intros ([k' m] & -> & Hin). apply elem_of_map_to_list in Hin. cbn. eauto.
    - intros [m Hm]. exists (k, m). split; [reflexivity|].
      now apply elem_of_map_to_list. }
  split; [apply NoDup_fst_map_to_list|]. split; [exact Hmem|].
  intros k log [meta Hm]%Hmem. exists meta. split; [exact Hm|].
  now apply Embeds_stat_own.
Qed.

End StoreKeys.


(** * Further properties of the responder *)

Lemma filter_name_deleted (h : Headers) (n : string) :
  filter (λ kv : string * string, kv.1 = n) (Headers_delete h n) = [].
Proof.
  unfold Headers_delete. induction h as [|[k v] h IH]; [reflexivity|].
  rewrite filter_cons. cbn [fst].
  destruct (decide (k ≠ n)) as [Hk|Hk]; [|exact IH].
  rewrite filter_cons. cbn [fst].
  destruct (decide (k = n)); [contradiction | exact IH].
Qed.

Lemma Headers_get_put_eq (h : Headers) (n v : string) :
  Headers_get (Headers_put h n v) n = Some v.
Proof.
  unfold Headers_get.
  assert (H : filter (λ kv : string * string, kv.1 = n) (Headers_put h n v) = [(n, v)]);
    [|now rewrite H].
  induction h as [|[k0 v0] h IH]; cbn [Headers_put].
  - rewrite filter_cons. cbn [fst]. destruct (decide (n = n)); [reflexivity | contradiction].
  - destruct (String.eqb_spec k0 n) as [->|Hk0].
    + rewrite filter_cons. cbn [fst].
      destruct (decide (n = n)); [|contradiction].
      now rewrite filter_name_deleted.
    + rewrite filter_cons. cbn [fst].
      destruct (decide (k0 = n)); [contradiction | exact IH].
Qed.

Lemma Headers_set_get (h h' : Headers) (n v : string) :
  Headers_set h n v = Ok h' →
  Headers_get h' n = Some (normalize_header_value v)
  ∧ ∀ k, k ≠ n → Headers_get h' k = Headers_get h k.
Proof.
  unfold Headers_set. destruct (is_header_value _); [|discriminate].
  intros [= <-]. split; [apply Headers_get_put_eq|].
  intros k Hk. now apply Headers_get_put_ne.
Qed.

Lemma http_trim_start_plain (s : string) :
  all_chars (λ c, negb (is_http_whitespace c)) s = true → http_trim_start s = s.
Proof.
  destruct s as [|c s]; [reflexivity|]. cbn.
  intros [Hc _]%andb_prop. apply negb_true_iff in Hc. now rewrite Hc.
Qed.

Lemma http_trim_end_plain (s : string) :
  all_chars (λ c, negb (is_http_whitespace c)) s = true → http_trim_end s = s.
Proof.
  induction s as [|c s IH]; [reflexivity|]. cbn [all_chars http_trim_end].
  intros [Hc Hs]%andb_prop. apply negb_true_iff in Hc. rewrite (IH Hs).
  destruct s; [now rewrite Hc | reflexivity].
Qed.

(** The content length is stored as it is printed. *)
Lemma normalize_header_value_decimal (n : nat) :
  normalize_header_value (decimal n) = decimal n.
Proof.
  assert (H : all_chars (λ c, negb (is_http_whitespace c)) (decimal n) = true).
  { unfold decimal. apply (all_chars_impl is_digit); [|apply string_of_uint_digits].
    intros [[] [] [] [] [] [] [] []]; vm_compute; intros H;
      first [reflexivity | discriminate H]. }
  unfold normalize_header_value.
  now rewrite http_trim_end_plain, http_trim_start_plain.
Qed.

Section ResponderMore.

Context (P : Platform).

(** The headers of a record, read back by name. *)
Lemma validator_headers_get (meta : FileMeta) (h : Headers) :
  validator_headers P meta = Ok h →
  Headers_get h "etag"
  = (if Str.opt_truthy (eTag meta)
     then Some (normalize_header_value (default "" (eTag meta))) else None)
  ∧ Headers_get h "last-modified"
    = option_map (λ t, normalize_header_value (toUTCString P t)) (mtime meta)
  ∧ Headers_get h "date"
    = option_map (λ t, normalize_header_value (toUTCString P t)) (atime meta)
  ∧ ∀ k, k ∉ ["etag"; "last-modified"; "date"] →
         Headers_get h k = Headers_get createBaseHeaders k.
Proof.
  unfold validator_headers.
  assert (Hne : ∀ k, k ∉ ["etag"; "last-modified"; "date"] →
                     k ≠ "etag" ∧ k ≠ "last-modified" ∧ k ≠ "date").
  { intros k Hk. repeat split; intros ->; apply Hk; rewrite !elem_of_cons; tauto. }
  destruct (atime meta) as [ta|].
  - destruct (Headers_set createBaseHeaders "date" (toUTCString P ta)) as [h1|e] eqn:E1;
      [|discriminate].
    destruct (Headers_set_get _ _ _ _ E1) as [Hd1 Ho1]. cbn [and_then].
    destruct (mtime meta) as [tm|].
    + destruct (Headers_set h1 "last-modified" (toUTCString P tm)) as [h2|e] eqn:E2;
        [|discriminate].
      destruct (Headers_set_get _ _ _ _ E2) as [Hd2 Ho2]. cbn [and_then].
      destruct (Str.opt_truthy (eTag meta)).
      * intros E3. destruct (Headers_set_get _ _ _ _ E3) as [Hd3 Ho3].
        repeat split; [exact Hd3 | | |].
        -- now rewrite Ho3 by discriminate.
        -- now rewrite Ho3, Ho2 by discriminate.
        -- intros k (H1 & H2 & H3)%Hne. now rewrite Ho3, Ho2, Ho1.
      * intros [= <-]. repeat split.
        -- now rewrite Ho2, Ho1 by discriminate.
        -- exact Hd2.
        -- now rewrite Ho2 by discriminate.
        -- intros k (H1 & H2 & H3)%Hne. now rewrite Ho2, Ho1.
    + cbn [and_then]. destruct (Str.opt_truthy (eTag meta)).
      * intros E3. destruct (Headers_set_get _ _ _ _ E3) as [Hd3 Ho3].
        repeat split; [exact Hd3 | | |].
        -- now rewrite Ho3, Ho1 by discriminate.
        -- now rewrite Ho3 by discriminate.
        -- intros k (H1 & H2 & H3)%Hne. now rewrite Ho3, Ho1.
      * intros [= <-]. repeat split.
        -- now rewrite Ho1 by discriminate.
        -- now rewrite Ho1 by discriminate.
        -- exact Hd1.
        -- intros k (H1 & H2 & H3)%Hne. now rewrite Ho1.
  - cbn [and_then]. destruct (mtime meta) as [tm|].
    + destruct (Headers_set createBaseHeaders "last-modified" (toUTCString P tm))
        as [h2|e] eqn:E2; [|discriminate].
      destruct (Headers_set_get _ _ _ _ E2) as [Hd2 Ho2]. cbn [and_then].
      destruct (Str.opt_truthy (eTag meta)).
      * intros E3. destruct (Headers_set_get _ _ _ _ E3) as [Hd3 Ho3].
        repeat split; [exact Hd3 | | |].
        -- now rewrite Ho3 by discriminate.
        -- now rewrite Ho3, Ho2 by discriminate.
        -- intros k (H1 & H2 & H3)%Hne. now rewrite Ho3, Ho2.
      * intros [= <-]. repeat split.
        -- now rewrite Ho2 by discriminate.
        -- exact Hd2.
        -- now rewrite Ho2 by discriminate.
        -- intros k (H1 & H2 & H3)%Hne. now rewrite Ho2.
    + cbn [and_then]. destruct (Str.opt_truthy (eTag meta)).
      * intros E3. destruct (Headers_set_get _ _ _ _ E3) as [Hd3 Ho3].
        repeat split; [exact Hd3 | | |].
        -- now rewrite Ho3 by discriminate.
        -- now rewrite Ho3 by discriminate.
        -- intros k (H1 & H2 & H3)%Hne. now rewrite Ho3.
      * intros [= <-]. repeat split.
Qed.

Lemma entity_headers_get (filePath : string) (meta : FileMeta) (h h' : Headers) :
  entity_headers P filePath meta h = Ok h' →
  Headers_get h' "content-length" = Some (decimal (size meta))
  ∧ Headers_get h' "content-type"
    = match contentType P (extname P filePath) with
      | Some contentTypeValue => Some (normalize_header_value contentTypeValue)
      | None => Headers_get h "content-type"
      end
  ∧ ∀ k, k ∉ ["content-length"; "content-type"] → Headers_get h' k = Headers_get h k.
Proof.
  unfold entity_headers.
  assert (Hne : ∀ k, k ∉ ["content-length"; "content-type"] →
                     k ≠ "content-length" ∧ k ≠ "content-type").
  { intros k Hk. repeat split; intros ->; apply Hk; rewrite !elem_of_cons; tauto. }
  destruct (contentType P (extname P filePath)) as [ct|].
  - destruct (Headers_set h "content-type" ct) as [h1|e] eqn:E1; [|discriminate].
    destruct (Headers_set_get _ _ _ _ E1) as [Hd1 Ho1]. cbn [and_then].
    intros E2. destruct (Headers_set_get _ _ _ _ E2) as [Hd2 Ho2].
    rewrite normalize_header_value_decimal in Hd2.
    repeat split; [exact Hd2 | now rewrite Ho2 by discriminate |].
    intros k (H1 & H2)%Hne. now rewrite Ho2, Ho1.
  - cbn [and_then]. intros E2. destruct (Headers_set_get _ _ _ _ E2) as [Hd2 Ho2].
    rewrite normalize_header_value_decimal in Hd2.
    repeat split; [exact Hd2 | now rewrite Ho2 by discriminate |].
    intros k (H1 & H2)%Hne. now rewrite Ho2.
Qed.

(** The answers of [serveFile], case by case. *)
Lemma serveFile_cases (embeds : EmbedsDef) (req : Request) (filePath : string)
  (optMeta : option FileMeta) (log : list event) (resp : Response)
  (log' : list event) :
  serveFile P embeds req filePath optMeta log = (Ok resp, log') →
  resp = createStandardResponse STATUS_CODE.NotFound
  ∨ ∃ meta h,
      (optMeta = Some meta
       ∨ (optMeta = None ∧ ∃ l, Embeds_stat P embeds filePath log = (Ok (Some meta), l)))
      ∧ validator_headers P meta = Ok h
      ∧ ((not_modified P req meta = true
          ∧ resp = {| status := 304; statusText := "Not Modified";
                      headers := h; body := BodyNull |})
         ∨ (not_modified P req meta = false
            ∧ ∃ h' bytes,
                entity_headers P filePath meta h = Ok h'
                ∧ resp = {| status := 200; statusText := "OK";
                            headers := h'; body := BodyBytes bytes |})).
Proof.
  unfold serveFile, bind, lift.
  destruct ((match optMeta with
             | Some m => ret (Some m)
             | None => Embeds_stat P embeds filePath
             end) log) as [[[meta|]|e] log1] eqn:Hstat; [| |discriminate].
  2: { unfold ret. intros [= <- <-]. now left. }
  assert (Hmeta : optMeta = Some meta
                  ∨ (optMeta = None
                     ∧ ∃ l, Embeds_stat P embeds filePath log = (Ok (Some meta), l))).
  { destruct optMeta as [m|]; [left; now inversion Hstat | right; eauto]. }
  destruct (validator_headers P meta) as [h|e] eqn:Hh; [|discriminate].
  destruct (not_modified P req meta) eqn:Hnm.
  - unfold ret. intros [= <- <-]. right. exists meta, h. auto.
  - destruct (entity_headers P filePath meta h) as [h'|e] eqn:Hh'; [|discriminate].
    destruct (Embeds_get P embeds filePath log1) as [[[file|]|e] log2];
      [| |discriminate].
    + destruct (File_bytes P file log2) as [[[bytes file1]|e] log3]; [|discriminate].
      unfold ret. intros [= <- <-]. right. exists meta, h.
      split; [exact Hmeta|]. split; [exact Hh|]. right. eauto.
    + unfold ret. intros [= <- <-]. now left.
Qed.

End ResponderMore.


(** ** From the URL to the key *)

Lemma endsWith_char_slash (s : string) :
  Str.endsWith_char "/" s = Str.endsWith_slash s.
Proof.
  unfold Str.endsWith_slash.
  induction s as [|c s IH]; [reflexivity|].
  destruct s as [|d s]; [|exact IH].
  cbn [Str.endsWith_char Str.last_char]. unfold Str.is_slash. apply Ascii.eqb_sym.
Qed.

(** [join(".", path)] for an absolute path of clean segments. *)
Lemma join_dot_abspath (l : list string) :
  l ≠ [] → Forall clean_segment l →
  Path.join ["."; abspath l] = Str.join_slash l.
Proof.
  intros Hne Hl.
  destruct (join_clean_ends l Hne Hl) as (Ht & Hf & He).
  unfold Path.join.
  rewrite !filter_cons_True by reflexivity. rewrite filter_nil.
  change (Str.join_slash ["."; abspath l]) with ("." +:+ "/" +:+ abspath l).
  set (L := "." :: "" :: l).
  assert (HS : "." +:+ "/" +:+ abspath l = Str.join_slash L).
  { subst L. unfold abspath. destruct l as [|x l]; [contradiction|].
    rewrite !join_slash_cons. reflexivity. }
  rewrite HS.
  assert (Hkept : filter (λ s, (Path.is_empty s || Path.is_dot s) = false) L = l).
  { subst L. rewrite !filter_cons_False by (cbn; discriminate).
    now apply filter_kept_clean. }
  assert (Hnorm : Path.normalizeString (Str.join_slash L) true = Str.join_slash l).
  { rewrite normalizeString_segments; [now rewrite Hkept | discriminate | |
                                       now rewrite Hkept].
    subst L. repeat (constructor; [reflexivity|]). now apply clean_no_slash. }
  assert (Hfirst : Str.join_slash L = String "." (Str.drop 1 (Str.join_slash L)))
    by now rewrite <- HS.
  assert (Htruthy : Str.truthy (Str.join_slash L) = true) by now rewrite Hfirst.
  assert (Habs : Str.first_is_slash (Str.join_slash L) = false) by now rewrite Hfirst.
  assert (Hlast : Str.endsWith_slash (Str.join_slash L) = false).
  { rewrite <- HS. unfold Str.endsWith_slash, abspath.
    rewrite !last_char_app; [exact He | ..];
      try (intros E; rewrite E in Ht; discriminate).
    - destruct (Str.join_slash l); discriminate.
    - destruct (Str.join_slash l); discriminate. }
  unfold Path.normalize, Path.is_empty, Path.isAbsolute.
  rewrite Htruthy, Habs, Hlast. cbn [negb]. rewrite Hnorm, Ht.
  cbn [negb andb]. now rewrite andb_false_r.
Qed.

Lemma dirpath_index (l : list string) :
  dirpath l +:+ "index.html" = abspath (l ++ ["index.html"]).
Proof.
  destruct l as [|x l]; [reflexivity|].
  unfold dirpath, abspath.
  rewrite join_slash_snoc by discriminate. now rewrite !string_app_assoc.
Qed.

Lemma dirpath_ends (l : list string) :
  Forall clean_segment l → Str.endsWith_slash (dirpath l) = true.
Proof.
  intros Hl. destruct l as [|x l]; [reflexivity|].
  unfold dirpath, Str.endsWith_slash. now rewrite last_char_app by discriminate.
Qed.

(** A directory path is in normal form. *)
Lemma normalize_dirpath (l : list string) :
  Forall clean_segment l → Path.normalize (dirpath l) = dirpath l.
Proof.
  intros Hl. destruct (decide (l = [])) as [-> | Hne]; [reflexivity|].
  pose proof (dirpath_ends l Hl) as Hend.
  destruct (join_clean_ends l Hne Hl) as (Ht & Hf & He).
  assert (HS : dirpath l = Str.join_slash ("" :: l ++ [""])).
  { destruct l as [|x l]; [contradiction|]. unfold dirpath, abspath.
    change ("" :: (x :: l) ++ [""]) with ([""] ++ ((x :: l) ++ [""])).
    rewrite join_slash_app by (discriminate || now destruct l).
    rewrite join_slash_snoc by discriminate.
    now rewrite !string_app_assoc. }
  assert (Hkept : filter (λ s, (Path.is_empty s || Path.is_dot s) = false)
                    ("" :: l ++ [""]) = l).
  { rewrite filter_cons_False by (cbn; discriminate).
    rewrite filter_app, (filter_kept_clean l Hl).
    rewrite filter_cons_False by (cbn; discriminate). now rewrite filter_nil, app_nil_r. }
  assert (Hnorm : Path.normalizeString (dirpath l) false = Str.join_slash l).
  { rewrite HS, normalizeString_segments; [now rewrite Hkept | discriminate | |
                                           now rewrite Hkept].
    constructor; [reflexivity|]. apply Forall_app.
    split; [now apply clean_no_slash | repeat constructor]. }
  assert (Hfirst : dirpath l = String "/" (Str.drop 1 (dirpath l))).
  { destruct l; [contradiction | reflexivity]. }
  assert (Htruthy : Str.truthy (dirpath l) = true) by now rewrite Hfirst.
  assert (Habs : Str.first_is_slash (dirpath l) = true) by now rewrite Hfirst.
  unfold Path.normalize, Path.is_empty, Path.isAbsolute.
  rewrite Htruthy, Habs, Hend. cbn [negb]. rewrite Hnorm, Ht.
  cbn [negb andb]. rewrite Ht. cbn [andb].
  destruct l; [contradiction|]. unfold dirpath, abspath.
  now rewrite !string_app_assoc.
Qed.

Section Lookup.

Context (P : Platform).

Lemma createServeDirResponse_file (embeds : EmbedsDef) (req : Request)
  (opts : ServeDirOptions) (log : list event) (l : list string) :
  Forall clean_segment l → l ≠ [] →
  Str.opt_truthy (urlRoot opts) = false →
  Str.opt_truthy (fsRoot opts) = false →
  decodeURIComponent P (pathname (url req)) = Some (abspath l) →
  createServeDirResponse P embeds req opts log
  = (let* fileMeta := Embeds_stat P embeds (Str.join_slash l) in
     serveFile P embeds req (Str.join_slash l) fileMeta) log.
Proof.
  intros Hl Hne Hroot Hfs Hdec. unfold createServeDirResponse. unfold bind at 1.
  rewrite Hdec. cbn [ret]. rewrite Hroot, Hfs. cbn [andb].
  rewrite normalize_abspath by assumption.
  rewrite String.eqb_refl. cbn [negb].
  rewrite endsWith_char_slash, abspath_ends by assumption.
  assert (Hnot_root : String.eqb (abspath l) "/" = false).
  { apply String.eqb_neq. intros E.
    apply (abspath_inj l []) in E; [contradiction | assumption | constructor]. }
  rewrite Hnot_root. now rewrite join_dot_abspath.
Qed.

Lemma createServeDirResponse_dir (embeds : EmbedsDef) (req : Request)
  (opts : ServeDirOptions) (log : list event) (l : list string) :
  Forall clean_segment l →
  Str.opt_truthy (urlRoot opts) = false →
  Str.opt_truthy (fsRoot opts) = false →
  decodeURIComponent P (pathname (url req)) = Some (dirpath l) →
  createServeDirResponse P embeds req opts log
  = (let* fileMeta :=
       Embeds_stat P embeds (Str.join_slash (l ++ ["index.html"])) in
     serveFile P embeds req (Str.join_slash (l ++ ["index.html"])) fileMeta) log.
Proof.
  intros Hl Hroot Hfs Hdec. unfold createServeDirResponse. unfold bind at 1.
  rewrite Hdec. cbn [ret]. rewrite Hroot, Hfs. cbn [andb].
  rewrite normalize_dirpath by assumption.
  rewrite String.eqb_refl. cbn [negb].
  rewrite endsWith_char_slash, dirpath_ends by assumption.
  rewrite dirpath_index.
  rewrite join_dot_abspath; [reflexivity | now destruct l |].
  apply Forall_clean_snoc; [assumption|].
  repeat split; try discriminate.
Qed.

(** X8. With no [urlRoot] and no [fsRoot], a request for the path of a
    file, "/" followed by clean segments, is answered from the key made
    of these segments; a request for the path of a directory, which ends
    in "/", from the key of the "index.html" below it, and "/" itself
    from "index.html". *)
Theorem served_key (embeds : EmbedsDef) (req : Request) (opts : ServeDirOptions)
  (log : list event) (l : list string) :
  Forall clean_segment l →
  Str.opt_truthy (urlRoot opts) = false →
  Str.opt_truthy (fsRoot opts) = false →
  (l ≠ [] →
   decodeURIComponent P (pathname (url req)) = Some (abspath l) →
   createServeDirResponse P embeds req opts log
   = (let* fileMeta := Embeds_stat P embeds (Str.join_slash l) in
      serveFile P embeds req (Str.join_slash l) fileMeta) log)
  ∧ (decodeURIComponent P (pathname (url req)) = Some (dirpath l) →
     createServeDirResponse P embeds req opts log
     = (let* fileMeta :=
          Embeds_stat P embeds (Str.join_slash (l ++ ["index.html"])) in
        serveFile P embeds req (Str.join_slash (l ++ ["index.html"])) fileMeta) log).
Proof.
  intros Hl Hroot Hfs. split.
  - intros Hne. now apply createServeDirResponse_file.
  - now apply createServeDirResponse_dir.
Qed.

End Lookup.


Section Answers.

Context (P : Platform).

Lemma not_modified_same (req req' : Request) (meta : FileMeta) :
  Headers_get (req_headers req') "if-none-match"
  = Headers_get (req_headers req) "if-none-match" →
  Headers_get (req_headers req') "if-modified-since"
  = Headers_get (req_headers req) "if-modified-since" →
  not_modified P req' meta = not_modified P req meta.
Proof. intros H1 H2. unfold not_modified. now rewrite H1, H2. Qed.

Lemma serveFile_status (embeds : EmbedsDef) (req : Request) (filePath : string)
  (optMeta : option FileMeta) (log : list event) (resp : Response)
  (log' : list event) :
  serveFile P embeds req filePath optMeta log = (Ok resp, log') →
  status resp ∈ [200; 304; 404].
Proof.
  intros Hserve.
  destruct (serveFile_cases P _ _ _ _ _ _ _ Hserve)
    as [-> | (meta & h & _ & Hh & [[_ ->] | (_ & h' & bytes & Hh' & ->)])];
    rewrite !elem_of_cons; cbn; tauto.
Qed.

(** X9. [serveFile] answers 200, 304 or 404 and nothing else; a 200 or a
    304 advertises [accept-ranges: bytes]; and the request counts only
    through its if-none-match and if-modified-since headers, so that no
    other header, [range] included, changes the answer. *)
Theorem serveFile_answers (embeds : EmbedsDef) (req : Request) (filePath : string)
  (optMeta : option FileMeta) (log : list event) :
  (∀ resp log',
     serveFile P embeds req filePath optMeta log = (Ok resp, log') →
     status resp ∈ [200; 304; 404]
     ∧ (status resp ≠ 404 →
        Headers_get (headers resp) "accept-ranges" = Some "bytes"
        ∧ Headers_get (headers resp) "server" = Some "deno"))
  ∧ (∀ req' : Request,
       Headers_get (req_headers req') "if-none-match"
       = Headers_get (req_headers req) "if-none-match" →
       Headers_get (req_headers req') "if-modified-since"
       = Headers_get (req_headers req) "if-modified-since" →
       serveFile P embeds req' filePath optMeta log
       = serveFile P embeds req filePath optMeta log).
Proof.
  split.
  - intros resp log' Hserve.
    destruct (serveFile_cases P _ _ _ _ _ _ _ Hserve)
      as [-> | (meta & h & _ & Hh & [[_ ->] | (_ & h' & bytes & Hh' & ->)])].
    + split; [rewrite !elem_of_cons; cbn; tauto | intros H; now contradiction H].
    + destruct (validator_headers_get P meta h Hh) as (_ & _ & _ & Hother).
      split; [rewrite !elem_of_cons; cbn; tauto|]. intros _. cbn [headers].
      rewrite !Hother; [split; reflexivity | |];
        rewrite !elem_of_cons, elem_of_nil; intros [|[|[|[]]]]; discriminate.
    + destruct (validator_headers_get P meta h Hh) as (_ & _ & _ & Hother).
      destruct (entity_headers_get P filePath meta h h' Hh') as (_ & _ & Hother').
      split; [rewrite !elem_of_cons; cbn; tauto|]. intros _. cbn [headers].
      rewrite !Hother', !Hother; [split; reflexivity | ..];
        rewrite !elem_of_cons, elem_of_nil;
        first [intros [|[|[|[]]]]; discriminate | intros [|[|[]]]; discriminate].
  - intros req' H1 H2. unfold serveFile, bind.
    destruct ((match optMeta with
               | Some m => ret (Some m)
               | None => Embeds_stat P embeds filePath
               end) log) as [[[m|]|e] log1]; try reflexivity.
    now rewrite (not_modified_same req req' m H1 H2).
Qed.

(** X10. The headers of an answer of [serveFile] for a record: a 200
    carries the record's [size] as its content length, whatever the
    length of the body, and the media type of the path's extension when
    the platform knows one, and no content type otherwise; a 304 has no
    body, no content length and no content type; both carry the record's
    validators, normalized as header text. *)
Theorem serveFile_headers (embeds : EmbedsDef) (req : Request) (filePath : string)
  (optMeta : option FileMeta) (meta : FileMeta) (log : list event)
  (resp : Response) (log' : list event) :
  optMeta = Some meta ∨ (optMeta = None ∧ embeds !! filePath = Some meta) →
  serveFile P embeds req filePath optMeta log = (Ok resp, log') →
  (status resp = 200 →
   Headers_get (headers resp) "content-length" = Some (decimal (size meta))
   ∧ Headers_get (headers resp) "content-type"
     = option_map normalize_header_value (contentType P (extname P filePath)))
  ∧ (status resp = 304 →
     body resp = BodyNull
     ∧ Headers_get (headers resp) "content-length" = None
     ∧ Headers_get (headers resp) "content-type" = None)
  ∧ (status resp = 200 ∨ status resp = 304 →
     Headers_get (headers resp) "etag"
     = (if Str.opt_truthy (eTag meta)
        then Some (normalize_header_value (default "" (eTag meta))) else None)
     ∧ Headers_get (headers resp) "last-modified"
       = option_map (λ t, normalize_header_value (toUTCString P t)) (mtime meta)
     ∧ Headers_get (headers resp) "date"
       = option_map (λ t, normalize_header_value (toUTCString P t)) (atime meta)).
Proof.
  intros Hmeta Hserve.
  destruct (serveFile_cases P _ _ _ _ _ _ _ Hserve)
    as [-> | (meta' & h & Hmeta' & Hh & Hcase)].
  { split; [intros E; discriminate E|]. split; [intros E; discriminate E|].
    intros [E|E]; discriminate E. }
  assert (meta' = meta) as ->.
  { destruct Hmeta as [-> | [-> Hk]], Hmeta' as [E | [E (l & Hstat)]];
      try discriminate; [now inversion E|].
    rewrite (Embeds_stat_own P embeds filePath meta log Hk) in Hstat.
    now inversion Hstat. }
  destruct (validator_headers_get P meta h Hh) as (Het & Hlm & Hdt & Hother).
  destruct Hcase as [[_ ->] | (_ & h' & bytes & Hh' & ->)]; cbn [status headers body].
  - split; [discriminate|]. split; [|auto].
    intros _. split; [reflexivity|].
    rewrite !Hother; [split; reflexivity | |];
      rewrite !elem_of_cons, elem_of_nil; intros [|[|[|[]]]]; discriminate.
  - destruct (entity_headers_get P filePath meta h h' Hh') as (Hcl & Hct & Hother').
    split; [|split; [discriminate|]].
    + intros _. split; [exact Hcl|]. rewrite Hct.
      destruct (contentType P (extname P filePath)); [reflexivity|].
      rewrite Hother; [reflexivity|].
      rewrite !elem_of_cons, elem_of_nil; intros [|[|[|[]]]]; discriminate.
    + intros _. rewrite !Hother'; [auto | ..];
        rewrite !elem_of_cons, elem_of_nil; intros [|[|[]]]; discriminate.
Qed.

(** Where [createServeDirResponse] answers, the status is one of four. *)
Lemma createServeDirResponse_status (embeds : EmbedsDef) (req : Request)
  (opts : ServeDirOptions) (log : list event) (resp : Response) (log' : list event) :
  createServeDirResponse P embeds req opts log = (Ok resp, log') →
  status resp ∈ [200; 301; 304; 404].
Proof.
  unfold createServeDirResponse, bind.
  destruct (decodeURIComponent P (pathname (url req))) as [decoded|];
    [|discriminate].
  cbn [ret].
  destruct (Str.opt_truthy (urlRoot opts) && _).
  { intros [= <- <-]. rewrite !elem_of_cons. cbn. tauto. }
  destruct (negb (String.eqb (Path.normalize decoded) decoded)).
  { intros [= <- <-]. rewrite !elem_of_cons. cbn. tauto. }
  match goal with
  | |- context [Embeds_stat P embeds ?p log] =>
      destruct (Embeds_stat P embeds p log) as [[om|e] log1]; [|discriminate]
  end.
  intros Hin%serveFile_status.
  rewrite !elem_of_cons in *. tauto.
Qed.

End Answers.


(** ** [serveDir]: errors, statuses and added headers *)

Lemma append_all_ok (extra h : Headers) :
  Forall (λ kv : string * string, header_text_ok kv.2 = true) extra →
  ∃ h', append_all h extra = Ok h'.
Proof.
  revert h. induction extra as [|[key value] extra IH]; intros h Hlegal.
  - cbn. eauto.
  - inversion Hlegal as [|? ? Hv Hrest]; subst. cbn [append_all].
    rewrite (Headers_append_ok h key value Hv). cbn [and_then]. now apply IH.
Qed.

Section Decorate.

Context (P : Platform).

(** What [serveDir] does to the response it got, given that the extra
    headers are legal: it answers, with the same status and body. *)
Lemma serveDir_from (embeds : EmbedsDef) (req : Request) (opts : ServeDirOptions)
  (log : list event) :
  (∀ extra, opt_headers opts = Some extra →
            Forall (λ kv : string * string, header_text_ok kv.2 = true) extra) →
  ∃ r0 l resp,
    (createServeDirResponse P embeds req opts log = (Ok r0, l)
     ∨ ∃ e, createServeDirResponse P embeds req opts log = (Throw e, l)
            ∧ r0 = serveFallback e)
    ∧ serveDir P embeds req opts log = (Ok resp, l)
    ∧ status resp = status r0
    ∧ statusText resp = statusText r0
    ∧ body resp = body r0
    ∧ (isRedirectStatus (status r0) = true → resp = r0)
    ∧ (enableCors opts = false → opt_headers opts = None → resp = r0)
    ∧ (enableCors opts = true → opt_headers opts = None →
       isRedirectStatus (status r0) = false →
       headers resp
       = (headers r0 ++ [("access-control-allow-origin", "*")])
           ++ [("access-control-allow-headers",
                "Origin, X-Requested-With, Content-Type, Accept, Range")]).
Proof.
  intros Hextra. unfold serveDir. unfold bind at 1. unfold try_catch.
  assert (Hfirst : ∃ r0 l,
            (createServeDirResponse P embeds req opts log = (Ok r0, l)
             ∨ ∃ e, createServeDirResponse P embeds req opts log = (Throw e, l)
                    ∧ r0 = serveFallback e)
            ∧ (match createServeDirResponse P embeds req opts log with
               | (Ok a, s') => (Ok a, s')
               | (Throw e, s') => ret (serveFallback e) s'
               end) = (Ok r0, l)).
  { destruct (createServeDirResponse P embeds req opts log) as [[r|e] l].
    - exists r, l. auto.
    - exists (serveFallback e), l. split; [right; eauto | reflexivity]. }
  destruct Hfirst as (r0 & l & Horigin & ->).
  exists r0, l. unfold bind, lift, ret.
  destruct (isRedirectStatus (status r0)) eqn:Hred; cbn [negb].
  - rewrite andb_false_r. exists r0.
    destruct (opt_headers opts); repeat split; auto; discriminate.
  - rewrite andb_true_r. destruct (enableCors opts) eqn:Hcors.
    + rewrite !Headers_append_ok by reflexivity.
      destruct (opt_headers opts) as [extra|] eqn:Hopt.
      * match goal with
        | |- context [append_all ?h extra] =>
            destruct (append_all_ok extra h (Hextra extra eq_refl)) as [h' ->]
        end.
        eexists. split; [exact Horigin|]. split; [reflexivity|].
        repeat split; try discriminate.
      * eexists. split; [exact Horigin|]. split; [reflexivity|].
        repeat split; try discriminate.
    + destruct (opt_headers opts) as [extra|] eqn:Hopt.
      * destruct (append_all_ok extra (headers r0) (Hextra extra eq_refl)) as [h' ->].
        eexists. split; [exact Horigin|]. split; [reflexivity|].
        repeat split; try discriminate.
      * exists r0. split; [exact Horigin|]. split; [reflexivity|].
        repeat split; try discriminate.
Qed.

(** X11. [serveDir] never throws, the configured extra headers being
    legal header text: whatever the request and the registry, it answers,
    with one of the statuses 200, 301, 304, 400, 404 and 500. *)
Theorem serveDir_always_answers (embeds : EmbedsDef) (req : Request)
  (opts : ServeDirOptions) (log : list event) :
  (∀ extra, opt_headers opts = Some extra →
            Forall (λ kv : string * string, header_text_ok kv.2 = true) extra) →
  ∃ resp log',
    serveDir P embeds req opts log = (Ok resp, log')
    ∧ status resp ∈ [200; 301; 304; 400; 404; 500].
Proof.
  intros Hextra.
  destruct (serveDir_from embeds req opts log Hextra)
    as (r0 & l & resp & Horigin & Hserve & Hst & _).
  exists resp, l. split; [exact Hserve|]. rewrite Hst.
  destruct Horigin as [Hok | (e & _ & ->)].
  - apply createServeDirResponse_status in Hok. rewrite !elem_of_cons in *. tauto.
  - destruct e; rewrite !elem_of_cons; cbn; tauto.
Qed.

End Decorate.


Section Errors.

Context (P : Platform).

(** A record whose content cannot be decoded makes a full answer throw. *)
Lemma serveFile_corrupt (embeds : EmbedsDef) (req : Request) (filePath : string)
  (optMeta : option FileMeta) (meta : FileMeta) (log : list event) :
  embeds !! filePath = Some meta →
  optMeta = None ∨ optMeta = Some meta →
  meta_content P meta = None →
  legal_validators P meta = true →
  legal_media_type P filePath = true →
  not_modified P req meta = false →
  ∃ e log', serveFile P embeds req filePath optMeta log = (Throw e, log')
            ∧ e ∈ [InvalidCharacterError; TypeError].
Proof.
  intros Hk Hopt Hc Hlegal Hmedia Hnm.
  destruct (validator_headers_ok P meta Hlegal) as [h Hh].
  destruct (entity_headers_ok P filePath meta h Hmedia) as [h' Hh'].
  unfold serveFile, bind, lift.
  assert (Hstat :
    (match optMeta with
     | Some m => ret (Some m)
     | None => Embeds_stat P embeds filePath
     end) log = (Ok (Some meta), log)).
  { destruct Hopt as [-> | ->]; [now apply Embeds_stat_own | reflexivity]. }
  rewrite Hstat, Hh, Hnm, Hh'.
  unfold Embeds_get. rewrite (embeds_property_own embeds filePath meta Hk).
  unfold meta_content in Hc.
  unfold import_default, File_of_default, File_new, decodeBase64, File_bytes,
    decompress, bind, ret, throw, tick, modify. cbn.
  destruct (Base64.decodeBase64 (encoded meta)) as [stored|].
  - cbn. destruct (Str.opt_truthy (compression meta)); [|discriminate].
    rewrite Hc. cbn. do 2 eexists. split; [reflexivity|].
    rewrite !elem_of_cons. tauto.
  - do 2 eexists. split; [reflexivity|]. rewrite !elem_of_cons. tauto.
Qed.

(** X12. What [serveDir] makes of failures, the configured extra headers
    being legal: a path that cannot be percent-decoded is answered 400
    without the store being consulted; and a request that would be
    answered in full from a record whose content cannot be decoded, or
    decompressed, is answered 500. *)
Theorem serveDir_errors (embeds : EmbedsDef) (req : Request)
  (opts : ServeDirOptions) (log : list event) :
  (∀ extra, opt_headers opts = Some extra →
            Forall (λ kv : string * string, header_text_ok kv.2 = true) extra) →
  (decodeURIComponent P (pathname (url req)) = None →
   ∃ resp,
     serveDir P embeds req opts log = (Ok resp, log)
     ∧ status resp = 400
     ∧ statusText resp = "Bad Request"
     ∧ body resp = BodyText "Bad Request")
  ∧ (∀ (l : list string) (meta : FileMeta),
       Forall clean_segment l → l ≠ [] →
       Str.opt_truthy (urlRoot opts) = false →
       Str.opt_truthy (fsRoot opts) = false →
       decodeURIComponent P (pathname (url req)) = Some (abspath l) →
       embeds !! Str.join_slash l = Some meta →
       meta_content P meta = None →
       legal_validators P meta = true →
       legal_media_type P (Str.join_slash l) = true →
       not_modified P req meta = false →
       ∃ resp log',
         serveDir P embeds req opts log = (Ok resp, log')
         ∧ status resp = 500
         ∧ statusText resp = "Internal Server Error"
         ∧ body resp = BodyText "Internal Server Error").
Proof.
  intros Hextra.
  destruct (serveDir_from P embeds req opts log Hextra)
    as (r0 & l0 & resp & Horigin & Hserve & Hst & Htext & Hbody & _).
  split.
  - intros Hdec.
    assert (Hthrow : createServeDirResponse P embeds req opts log = (Throw URIError, log)).
    { unfold createServeDirResponse, bind. now rewrite Hdec. }
    rewrite Hthrow in Horigin.
    destruct Horigin as [E | (e & E & ->)]; [discriminate|].
    injection E as <- <-. exists resp. rewrite Hst, Htext, Hbody. auto.
  - intros l meta Hl Hne Hroot Hfs Hdec Hk Hc Hlegal Hmedia Hnm.
    rewrite (createServeDirResponse_file P embeds req opts log l Hl Hne Hroot Hfs Hdec)
      in Horigin.
    unfold bind in Horigin.
    rewrite (Embeds_stat_own P embeds _ meta log Hk) in Horigin.
    destruct (serveFile_corrupt embeds req (Str.join_slash l) (Some meta) meta log
                Hk (or_intror eq_refl) Hc Hlegal Hmedia Hnm)
      as (e & log' & Hthrow & He).
    rewrite Hthrow in Horigin.
    destruct Horigin as [E | (e' & E & ->)]; [discriminate|].
    injection E as <- <-. exists resp, log'. rewrite Hst, Htext, Hbody.
    split; [exact Hserve|].
    rewrite !elem_of_cons, elem_of_nil in He.
    destruct He as [-> | [-> | []]]; auto.
Qed.

(** The headers the responder itself sets are among eight names. *)
Lemma responder_header_names (embeds : EmbedsDef) (req : Request)
  (opts : ServeDirOptions) (log : list event) (r0 : Response) (l : list event) :
  createServeDirResponse P embeds req opts log = (Ok r0, l)
  ∨ (∃ e, r0 = serveFallback e) →
  ∀ k, k ∉ ["server"; "accept-ranges"; "date"; "last-modified"; "etag";
            "content-type"; "content-length"; "location"] →
       Headers_get (headers r0) k = None.
Proof.
  intros Horigin k Hk.
  assert (Hne : k ≠ "server" ∧ k ≠ "accept-ranges" ∧ k ≠ "date"
                ∧ k ≠ "last-modified" ∧ k ≠ "etag" ∧ k ≠ "content-type"
                ∧ k ≠ "content-length" ∧ k ≠ "location").
  { repeat split; intros ->; apply Hk; rewrite !elem_of_cons; tauto. }
  destruct Hne as (H1 & H2 & H3 & H4 & H5 & H6 & H7 & H8).
  assert (Hstd : ∀ st, Headers_get (headers (createStandardResponse st)) k = None).
  { intros st. unfold createStandardResponse, Response_new. cbn [headers].
    change (Headers_has [] "content-type") with false. cbn iota.
    unfold Headers_get. rewrite app_nil_l, filter_cons, filter_nil. cbn [fst].
    destruct (decide ("content-type" = k)); [congruence | reflexivity]. }
  assert (Hbase : Headers_get createBaseHeaders k = None).
  { unfold Headers_get, createBaseHeaders. rewrite !filter_cons, filter_nil. cbn [fst].
    destruct (decide ("server" = k)); [congruence|].
    destruct (decide ("accept-ranges" = k)); [congruence | reflexivity]. }
  assert (Hfile : ∀ filePath om lg lg',
             serveFile P embeds req filePath om lg = (Ok r0, lg') →
             Headers_get (headers r0) k = None).
  { intros filePath om lg lg' Hserve.
    destruct (serveFile_cases P _ _ _ _ _ _ _ Hserve)
      as [-> | (meta & h & _ & Hh & [[_ ->] | (_ & h' & bytes & Hh' & ->)])].
    - apply Hstd.
    - destruct (validator_headers_get P meta h Hh) as (_ & _ & _ & Hother).
      cbn [headers]. rewrite Hother; [exact Hbase|].
      rewrite !elem_of_cons, elem_of_nil. intros [|[|[|[]]]]; congruence.
    - destruct (validator_headers_get P meta h Hh) as (_ & _ & _ & Hother).
      destruct (entity_headers_get P filePath meta h h' Hh') as (_ & _ & Hother').
      cbn [headers]. rewrite Hother', Hother; [exact Hbase | |].
      + rewrite !elem_of_cons, elem_of_nil. intros [|[|[|[]]]]; congruence.
      + rewrite !elem_of_cons, elem_of_nil. intros [|[|[]]]; congruence. }
  destruct Horigin as [Hok | (e & ->)].
  - revert Hok. unfold createServeDirResponse, bind.
    destruct (decodeURIComponent P (pathname (url req))) as [decoded|];
      [|discriminate].
    cbn [ret].
    destruct (Str.opt_truthy (urlRoot opts) && _).
    { intros [= <- <-]. apply Hstd. }
    destruct (negb (String.eqb (Path.normalize decoded) decoded)).
    { intros [= <- <-]. unfold Response_redirect. cbn [headers].
      unfold Headers_get. rewrite filter_cons, filter_nil.
      cbn [fst]. destruct (decide ("location" = k)); [congruence | reflexivity]. }
    match goal with
    | |- context [Embeds_stat P embeds ?p log] =>
        destruct (Embeds_stat P embeds p log) as [[om|e] log1]; [|discriminate]
    end.
    apply Hfile.
  - destruct e; apply Hstd.
Qed.

Lemma Headers_get_app_new (h : Headers) (n v : string) :
  Headers_get h n = None → Headers_get (h ++ [(n, v)]) n = Some v.
Proof.
  unfold Headers_get. rewrite filter_app, filter_cons, filter_nil. cbn [fst].
  destruct (decide (n = n)); [|contradiction].
  destruct (filter _ h); [reflexivity | discriminate].
Qed.

(** X13. With CORS enabled and no extra headers, every answer of
    [serveDir] whose status is not a redirect status carries the two
    access-control headers, each once, and an answer with a redirect
    status carries neither. *)
Theorem serveDir_cors (embeds : EmbedsDef) (req : Request) (opts : ServeDirOptions)
  (log : list event) (resp : Response) (log' : list event) :
  enableCors opts = true →
  opt_headers opts = None →
  serveDir P embeds req opts log = (Ok resp, log') →
  (isRedirectStatus (status resp) = false →
   Headers_get (headers resp) "access-control-allow-origin" = Some "*"
   ∧ Headers_get (headers resp) "access-control-allow-headers"
     = Some "Origin, X-Requested-With, Content-Type, Accept, Range")
  ∧ (isRedirectStatus (status resp) = true →
     Headers_get (headers resp) "access-control-allow-origin" = None
     ∧ Headers_get (headers resp) "access-control-allow-headers" = None).
Proof.
  intros Hcors Hnone Hserve.
  destruct (serveDir_from P embeds req opts log) as
    (r0 & l & resp' & Horigin & Hserve' & Hst & _ & _ & Hred & _ & Hadd).
  { intros extra E. rewrite Hnone in E. discriminate E. }
  rewrite Hserve in Hserve'. injection Hserve' as <- <-.
  assert (Hnames : ∀ k, k ∉ ["server"; "accept-ranges"; "date"; "last-modified";
                             "etag"; "content-type"; "content-length"; "location"] →
                        Headers_get (headers r0) k = None).
  { apply (responder_header_names embeds req opts log r0 log').
    destruct Horigin as [Hok | (e & _ & ->)]; [now left | right; eauto]. }
  assert (H1 : Headers_get (headers r0) "access-control-allow-origin" = None).
  { apply Hnames. rewrite !elem_of_cons, elem_of_nil.
    intros [|[|[|[|[|[|[|[|[]]]]]]]]]; discriminate. }
  assert (H2 : Headers_get (headers r0) "access-control-allow-headers" = None).
  { apply Hnames. rewrite !elem_of_cons, elem_of_nil.
    intros [|[|[|[|[|[|[|[|[]]]]]]]]]; discriminate. }
  rewrite Hst. split.
  - intros Hnot. rewrite (Hadd Hcors Hnone Hnot). split.
    + rewrite Headers_get_app_ne by discriminate. now apply Headers_get_app_new.
    + apply Headers_get_app_new. now rewrite Headers_get_app_ne by discriminate.
  - intros Hyes. rewrite (Hred Hyes). auto.
Qed.

End Errors.


(** ** From the writer to the responder *)

Section EndToEnd.

Context (P : Platform).

(** X14. A file the writer has embedded is served with its bytes: when
    the registry holds, under a relative path of clean segments, the
    record [writeFile] emits for a buffer, a request for "/" followed by
    that path is answered 200 with the buffer as body and its length as
    content length, and with no validator, whatever conditional headers
    the request carries.  The platform's decompressor undoes its
    compressor on the buffer, and the media type is legal header text. *)
Theorem embedded_file_served (embeds : EmbedsDef) (req : Request)
  (opts : ServeDirOptions) (log : list event) (l : list string)
  (data : list byte) (meta : FileMeta) :
  Forall clean_segment l → l ≠ [] →
  Str.opt_truthy (urlRoot opts) = false →
  Str.opt_truthy (fsRoot opts) = false →
  decodeURIComponent P (pathname (url req)) = Some (abspath l) →
  module_default (emitted_literal P data) = Some meta →
  embeds !! Str.join_slash l = Some meta →
  (shouldCompress P data = true →
   decompress_stream P "gzip" (compress P data "gzip") = Some data) →
  legal_media_type P (Str.join_slash l) = true →
  ∃ h log',
    createServeDirResponse P embeds req opts log
    = (Ok {| status := 200; statusText := "OK";
             headers := h; body := BodyBytes data |}, log')
    ∧ Headers_get h "content-length" = Some (decimal (length data))
    ∧ Headers_get h "etag" = None
    ∧ Headers_get h "last-modified" = None.
Proof.
  intros Hl Hne Hroot Hfs Hdec Hmeta Hk Hcodec Hmedia.
  pose proof (roundtrip_core P data Hcodec meta Hmeta) as Hcontent.
  rewrite module_default_emitted in Hmeta. injection Hmeta as <-.
  set (meta := {| size := length data;
                  encoded := nl +:+ wrapped_encoding P data;
                  compression := if shouldCompress P data then Some "gzip" else None;
                  eTag := None; atime := None; mtime := None |}) in *.
  assert (Hh : validator_headers P meta = Ok createBaseHeaders) by reflexivity.
  assert (Hnm : not_modified P req meta = false).
  { unfold not_modified. cbn [eTag mtime meta Str.opt_truthy orb].
    now rewrite bool_decide_eq_false_2 by (intros [? ?]; discriminate). }
  destruct (entity_headers_ok P (Str.join_slash l) meta createBaseHeaders Hmedia)
    as [h' Hh'].
  destruct (serveFile_full P embeds req (Str.join_slash l) (Some meta) meta data log
              createBaseHeaders h' Hk (or_intror eq_refl) Hh Hh' Hnm Hcontent)
    as [log' Hserve].
  exists h', log'.
  rewrite (createServeDirResponse_file P embeds req opts log l Hl Hne Hroot Hfs Hdec).
  unfold bind. rewrite (Embeds_stat_own P embeds _ meta log Hk).
  split; [exact Hserve|].
  destruct (entity_headers_get P _ meta _ h' Hh') as (Hcl & _ & Hother).
  split; [exact Hcl|].
  rewrite !Hother; [split; reflexivity | |];
    rewrite !elem_of_cons, elem_of_nil; intros [|[|[]]]; discriminate.
Qed.

End EndToEnd.

(** * [EmbedWriter.clean] *)

Lemma inside_self (dir : string) : inside dir dir = true.
Proof. unfold inside. now rewrite String.eqb_refl. Qed.

Lemma empty_below (dir : string) (d : gmap string fs_node) :
  filter (λ kv : string * fs_node, inside dir kv.1 = true ∧ kv.1 ≠ dir) d = ∅
  ↔ (∀ k, inside dir k = true → k ≠ dir → d !! k = None).
Proof.
  rewrite map_empty. split.
  - intros H k Hin Hne. specialize (H k).
    rewrite map_lookup_filter_None in H. destruct H as [H | H]; [exact H|].
    destruct (d !! k) as [x|] eqn:E; [|reflexivity].
    exfalso. apply (H x eq_refl). cbn. split; assumption.
  - intros H k. rewrite map_lookup_filter_None.
    destruct (decide (inside dir k = true ∧ k ≠ dir)) as [[Hin Hne] | Hn].
    + left. now apply H.
    + right. intros x _ Hp. apply Hn. exact Hp.
Qed.

Lemma removed_lookup (dir k : string) (d : gmap string fs_node) :
  filter (λ kv : string * fs_node, inside dir kv.1 = false) d !! k
  = if inside dir k then None else d !! k.
Proof.
  destruct (inside dir k) eqn:E.
  - rewrite map_lookup_filter_None. right. intros x _ Hp. cbn in Hp. congruence.
  - destruct (d !! k) as [x|] eqn:Ek.
    + rewrite map_lookup_filter_Some. split; [exact Ek | exact E].
    + rewrite map_lookup_filter_None. now left.
Qed.

(** What [clean] does, by what the disk holds at the destination. *)
Lemma clean_cases (destDir : string) (s : writer_state) :
  clean destDir s
  = match disk s !! destDir with
    | Some (FsFile _) => (Throw Deno_NotADirectory, set_files ∅ s)
    | Some FsDir =>
        if bool_decide
             (filter (λ kv : string * fs_node,
                        inside destDir kv.1 = true ∧ kv.1 ≠ destDir) (disk s) = ∅)
        then (Ok tt, set_files ∅ s)
        else (Ok tt,
              set_disk (filter (λ kv : string * fs_node,
                                  inside destDir kv.1 = false) (disk s))
                (set_files ∅ s))
    | None =>
        match stat_error (String.length destDir) destDir (disk s) with
        | Deno_NotFound => (Ok tt, set_files ∅ s)
        | e => (Throw e, set_files ∅ s)
        end
    end.
Proof.
  unfold clean, bind, modify, exists_path, Deno_stat, isEmptyDir, Deno_remove, ret.
  cbn [disk set_files files].
  destruct (disk s !! destDir) as [[c|]|] eqn:Ed.
  - cbn [negb disk set_files]. rewrite Ed. reflexivity.
  - cbn [negb disk set_files]. rewrite Ed.
    destruct (bool_decide _); reflexivity.
  - destruct (stat_error _ _ _); reflexivity.
Qed.

Lemma stat_error_unfold (fuel : nat) (path : string) (d : gmap string fs_node) :
  stat_error fuel path d
  = if String.eqb (Path.dirname path) path then Deno_NotFound
    else match d !! Path.dirname path with
         | Some (FsFile _) => Deno_NotADirectory
         | Some FsDir => Deno_NotFound
         | None =>
             match fuel with
             | O => OutOfFuel
             | S fuel' => stat_error fuel' (Path.dirname path) d
             end
         end.
Proof. destruct fuel; reflexivity. Qed.

Lemma snoc_split {A} (l l1 l2 : list A) (x : A) :
  l ++ [x] = l1 ++ l2 → l2 ≠ [] → ∃ l2', l2 = l2' ++ [x] ∧ l = l1 ++ l2'.
Proof.
  intros E Hne. destruct (exists_last Hne) as (l2' & y & ->).
  rewrite app_assoc in E. apply app_inj_tail in E as [-> ->]. eauto.
Qed.

(** On a resolved path that is not on the disk, [Deno.stat] throws
    NotADirectory when the nearest ancestor on the disk is a regular
    file, and NotFound otherwise; the fuel does not run out. *)
Lemma stat_error_abspath (d : gmap string fs_node) (lp : list string) :
  Forall clean_segment lp →
  ∀ fuel, (length lp ≤ fuel)%nat →
  (stat_error fuel (abspath lp) d = Deno_NotADirectory
   ∧ blocked_by_file (abspath lp) d)
  ∨ (stat_error fuel (abspath lp) d = Deno_NotFound
     ∧ ¬ blocked_by_file (abspath lp) d).
Proof.
  induction lp as [|x l IH] using rev_ind; intros Hlp fuel Hfuel.
  - right. split.
    + rewrite stat_error_unfold. reflexivity.
    + intros (l1 & l2 & c & Hclean & Hne & E & _).
      apply abspath_inj in E; [|constructor | assumption].
      symmetry in E. apply app_eq_nil in E as [_ ->]. now apply Hne.
  - apply Forall_app in Hlp as [Hl Hx].
    inversion Hx as [|? ? Hx' _]; subst.
    assert (Hall : Forall clean_segment (l ++ [x]))
      by (apply Forall_app; split; [assumption | constructor; [assumption | constructor]]).
    rewrite stat_error_unfold, dirname_abspath by assumption.
    assert (Hneq : String.eqb (abspath l) (abspath (l ++ [x])) = false).
    { apply String.eqb_neq. intros E.
      pose proof (abspath_length_snoc l x (proj1 Hx')) as Hlen.
      rewrite <- E in Hlen. lia. }
    rewrite Hneq.
    destruct (d !! abspath l) as [[c|]|] eqn:Eparent.
    + left. split; [reflexivity|].
      exists l, [x], c. split; [assumption|]. split; [discriminate|].
      split; [reflexivity|]. split; [exact Eparent|].
      intros l3 l4 E H3 H4. destruct l3 as [|a [|b l3]]; [contradiction|..].
      * injection E as _ E. subst l4. contradiction.
      * discriminate E.
    + right. split; [reflexivity|].
      intros (l1 & l2 & c & Hclean & Hne & E & Hfile & Hgap).
      apply abspath_inj in E; [|assumption..].
      destruct (snoc_split _ _ _ _ E Hne) as (l2' & -> & ->).
      destruct l2' as [|a l2'].
      * rewrite app_nil_r in Eparent. congruence.
      * rewrite (Hgap (a :: l2') [x]) in Eparent by (reflexivity || discriminate).
        discriminate Eparent.
    + rewrite length_app in Hfuel. cbn in Hfuel.
      destruct fuel as [|fuel]; [lia|].
      destruct (IH Hl fuel ltac:(lia)) as [[Herr Hb] | [Herr Hnb]].
      * left. split; [exact Herr|].
        destruct Hb as (l1 & l2 & c & Hclean & Hne & E & Hfile & Hgap).
        apply abspath_inj in E; [|assumption..]. subst l.
        exists l1, (l2 ++ [x]), c.
        split; [now rewrite app_assoc|].
        split; [now destruct l2|].
        split; [now rewrite app_assoc|].
        split; [exact Hfile|].
        intros l3 l4 E H3 H4.
        destruct (snoc_split _ _ _ _ E H4) as (l4' & -> & ->).
        destruct l4' as [|a l4'].
        -- rewrite app_nil_r in Eparent. exact Eparent.
        -- apply (Hgap l3 (a :: l4')); [reflexivity | assumption | discriminate].
      * right. split; [exact Herr|].
        intros (l1 & l2 & c & Hclean & Hne & E & Hfile & Hgap).
        apply abspath_inj in E; [|assumption..].
        destruct (snoc_split _ _ _ _ E Hne) as (l2' & -> & ->).
        destruct l2' as [|a l2'].
        -- rewrite app_nil_r in Eparent. congruence.
        -- apply Hnb. exists l1, (a :: l2'), c.
           split; [now apply Forall_app in Hclean as [? [? _]%Forall_app]; apply Forall_app|].
           split; [discriminate|]. split; [reflexivity|]. split; [exact Hfile|].
           intros l3 l4 E3 H3 H4.
           apply (Hgap l3 (l4 ++ [x])); [|assumption | now destruct l4].
           rewrite E3. now rewrite <- app_assoc.
Qed.

(** X15.  [clean] on a resolved destination always forgets every
    registered file and never touches a path outside the destination.
    When the destination is a regular file it fails with NotADirectory;
    when it is a directory nothing is left below it, and the directory
    itself survives exactly when it was empty before; when it is not on
    the disk, [clean] fails with NotADirectory if the nearest ancestor
    on the disk is a regular file and succeeds otherwise.  A failing
    [clean] leaves the disk as it was. *)
Theorem clean_effect (destDir : string) (s : writer_state) :
  is_resolved destDir = true →
  ∃ r s',
    clean destDir s = (r, s')
    ∧ files s' = ∅
    ∧ (∀ k, inside destDir k = false → disk s' !! k = disk s !! k)
    ∧ match disk s !! destDir with
      | Some (FsFile _) => r = Throw Deno_NotADirectory ∧ disk s' = disk s
      | Some FsDir =>
          r = Ok tt
          ∧ (∀ k, inside destDir k = true → k ≠ destDir → disk s' !! k = None)
          ∧ (disk s' !! destDir = Some FsDir
             ↔ ∀ k, inside destDir k = true → k ≠ destDir → disk s !! k = None)
      | None =>
          disk s' = disk s
          ∧ (blocked_by_file destDir (disk s) → r = Throw Deno_NotADirectory)
          ∧ (¬ blocked_by_file destDir (disk s) → r = Ok tt)
      end.
Proof.
  intros (lp & Hlp & ->)%is_resolved_form.
  rewrite clean_cases.
  destruct (disk s !! abspath lp) as [[c|]|] eqn:Ed.
  - eexists _, _. split; [reflexivity|]. cbn. repeat split; reflexivity.
  - destruct (bool_decide _) eqn:Eb.
    + apply bool_decide_eq_true in Eb. rewrite empty_below in Eb.
      eexists _, _. split; [reflexivity|]. cbn [files disk set_files].
      split; [reflexivity|]. split; [reflexivity|]. split; [reflexivity|].
      split; [exact Eb|]. split; [intros _; exact Eb | intros _; exact Ed].
    + apply bool_decide_eq_false in Eb. rewrite empty_below in Eb.
      eexists _, _. split; [reflexivity|]. cbn [files disk set_files set_disk].
      split; [reflexivity|].
      split; [intros k Hk; rewrite removed_lookup, Hk; reflexivity|].
      split; [reflexivity|].
      split; [intros k Hk _; rewrite removed_lookup, Hk; reflexivity|].
      rewrite removed_lookup, inside_self. split; [discriminate | contradiction].
  - destruct (stat_error_abspath (disk s) lp Hlp (String.length (abspath lp))
                (abspath_fuel lp Hlp)) as [[-> Hb] | [-> Hnb]].
    + eexists _, _. split; [reflexivity|]. cbn [files disk set_files].
      split; [reflexivity|]. split; [reflexivity|]. split; [reflexivity|].
      split; [reflexivity | contradiction].
    + eexists _, _. split; [reflexivity|]. cbn [files disk set_files].
      split; [reflexivity|]. split; [reflexivity|]. split; [reflexivity|].
      split; [contradiction | reflexivity].
Qed.

(** * A whole run of the writer *)

Lemma startsWith_app (p s : string) : Str.startsWith p (p +:+ s) = true.
Proof.
  induction p as [|c p IH]; [destruct s; reflexivity|].
  change (String c p +:+ s) with (String c (p +:+ s)).
  cbn [Str.startsWith]. now rewrite Ascii.eqb_refl, IH.
Qed.

Lemma inside_abspath (lp rest : list string) :
  inside (abspath lp) (abspath (lp ++ rest)) = true.
Proof.
  unfold inside. destruct rest as [|r rest].
  - rewrite app_nil_r, String.eqb_refl. reflexivity.
  - apply orb_true_iff. right. destruct lp as [|a lp].
    + cbn [app]. unfold abspath at 1 2. cbn [Str.join_slash].
      change ("/" +:+ "") with "/". rewrite String.eqb_refl.
      unfold abspath. apply startsWith_app.
    + destruct (String.eqb (abspath (a :: lp)) "/") eqn:E.
      * apply String.eqb_eq in E. rewrite E. unfold abspath. apply startsWith_app.
      * unfold abspath. rewrite join_slash_app by discriminate.
        replace ("/" +:+ Str.join_slash (a :: lp) +:+ "/" +:+ Str.join_slash (r :: rest))
          with ((("/" +:+ Str.join_slash (a :: lp)) +:+ "/") +:+ Str.join_slash (r :: rest))
          by first [now rewrite !string_app_assoc | now rewrite <- !string_app_assoc].
        apply startsWith_app.
Qed.

Lemma mkdir_recursive_files (fuel : nat) (path : string)
  (d d' : gmap string fs_node) (k c : string) :
  mkdir_recursive fuel path d = Ok d' →
  d' !! k = Some (FsFile c) → d !! k = Some (FsFile c).
Proof.
  revert path d'. induction fuel as [|fuel IH]; intros path d' H Hk.
  - cbn in H. destruct (d !! path) as [[c'|]|] eqn:E; try discriminate.
    + now inversion H; subst.
    + destruct (String.eqb (Path.dirname path) path); [|discriminate].
      inversion H; subst.
      destruct (decide (k = path)) as [->|Hne].
      * rewrite lookup_insert_eq in Hk. discriminate.
      * now rewrite lookup_insert_ne in Hk by congruence.
  - cbn in H. destruct (d !! path) as [[c'|]|] eqn:E; try discriminate.
    + now inversion H; subst.
    + destruct (String.eqb (Path.dirname path) path).
      * inversion H; subst.
        destruct (decide (k = path)) as [->|Hne].
        -- rewrite lookup_insert_eq in Hk. discriminate.
        -- now rewrite lookup_insert_ne in Hk by congruence.
      * destruct (mkdir_recursive fuel (Path.dirname path) d) as [d1|e] eqn:E1.
        -- inversion H; subst.
           destruct (decide (k = path)) as [->|Hne].
           ++ rewrite lookup_insert_eq in Hk. discriminate.
           ++ rewrite lookup_insert_ne in Hk by congruence.
              now apply (IH (Path.dirname path) d1).
        -- destruct e; discriminate.
Qed.

Lemma Deno_mkdir_files (path : string) (s s' : writer_state) (k c : string) :
  Deno_mkdir path s = (Ok tt, s') →
  disk s' !! k = Some (FsFile c) → disk s !! k = Some (FsFile c).
Proof.
  unfold Deno_mkdir.
  destruct (mkdir_recursive _ path (disk s)) as [d|e] eqn:E; [|discriminate].
  intros [= <-]. cbn. now apply (mkdir_recursive_files _ _ _ _ _ _ E).
Qed.

Lemma clean_ok (destDir : string) (s s' : writer_state) :
  clean destDir s = (Ok tt, s') →
  files s' = ∅
  ∧ (∀ k, inside destDir k = false → disk s' !! k = disk s !! k)
  ∧ (∀ k v, disk s' !! k = Some v → disk s !! k = Some v)
  ∧ (rooted destDir (disk s) →
     ∀ k c, inside destDir k = true → disk s' !! k ≠ Some (FsFile c)).
Proof.
  rewrite clean_cases.
  destruct (disk s !! destDir) as [[c|]|] eqn:Ed.
  - discriminate.
  - destruct (bool_decide _) eqn:Eb.
    + apply bool_decide_eq_true in Eb. rewrite empty_below in Eb.
      intros [= <-]. cbn [files disk set_files].
      split; [reflexivity|]. split; [reflexivity|]. split; [auto|].
      intros _ k c Hin. destruct (decide (k = destDir)) as [->|Hne].
      * rewrite Ed. discriminate.
      * rewrite (Eb k Hin Hne). discriminate.
    + intros [= <-]. cbn [files disk set_files set_disk].
      split; [reflexivity|].
      split; [intros k Hk; rewrite removed_lookup, Hk; reflexivity|].
      split.
      * intros k v. rewrite removed_lookup. destruct (inside destDir k); [discriminate | auto].
      * intros _ k c Hin. rewrite removed_lookup, Hin. discriminate.
  - destruct (stat_error _ _ _); try discriminate.
    intros [= <-]. cbn [files disk set_files].
    split; [reflexivity|]. split; [reflexivity|]. split; [auto|].
    intros Hroot k c Hin. rewrite (Hroot Ed k Hin). discriminate.
Qed.

Lemma clean_dir_ts : clean_segment "dir.ts".
Proof. repeat split; try (intros E; discriminate E). Qed.

Lemma clean_gitattributes : clean_segment ".gitattributes".
Proof. repeat split; try (intros E; discriminate E). Qed.

Section WholeRun.

Context (P : Platform).

(** Where a placement puts the module, on a resolved destination. *)
Lemma placement_shape (destDir filePath : string) (paths : FilePaths) :
  is_resolved destDir = true →
  placement P destDir filePath = Some paths →
  ∃ lp front last,
    Forall clean_segment lp ∧ Forall clean_segment front ∧ clean_segment last
    ∧ destDir = abspath lp
    ∧ onDisk paths = abspath (lp ++ front ++ ["_" +:+ last +:+ ".ts"]).
Proof.
  intros Hres.
  destruct (guard_resolved P destDir filePath Hres)
    as (lp & la & b & Hlp & Hla & -> & Habs & Hpc & Hrest & Hsd).
  unfold placement. rewrite Hpc. destruct b; [|discriminate].
  intros [= <-]. destruct (Hrest eq_refl) as (rest & Hne & Hclean & ->).
  rewrite Habs.
  destruct (file_paths_clean P filePath lp rest Hlp Hclean Hne)
    as (front & last & Hf & Hl & _ & ->).
  exists lp, front, last. cbn [onDisk]. auto.
Qed.

Lemma placement_inside (destDir filePath : string) (paths : FilePaths) :
  is_resolved destDir = true →
  placement P destDir filePath = Some paths →
  inside destDir (onDisk paths) = true.
Proof.
  intros Hres Hpl.
  destruct (placement_shape _ _ _ Hres Hpl) as (lp & front & last & _ & _ & _ & -> & ->).
  apply inside_abspath.
Qed.

(** A module never takes the place of a file of the destination whose
    name does not start with "_". *)
Lemma placement_not_named (destDir filePath : string) (paths : FilePaths)
  (c : ascii) (name : string) :
  is_resolved destDir = true →
  placement P destDir filePath = Some paths →
  clean_segment (String c name) → c ≠ "_"%char →
  onDisk paths ≠ Path.join [destDir; String c name].
Proof.
  intros Hres Hpl Hname Hc.
  destruct (placement_shape _ _ _ Hres Hpl)
    as (lp & front & last & Hlp & Hf & Hl & -> & ->).
  change (String c name) with (Str.join_slash [String c name]).
  rewrite join_under; [|assumption | constructor; [assumption | constructor] | discriminate].
  intros E. apply abspath_inj in E.
  - apply app_inv_head in E. destruct front as [|x front].
    + cbn in E. injection E as E _. congruence.
    + destruct front; discriminate E.
  - apply Forall_app; split; [assumption|]. apply Forall_clean_snoc; [assumption|].
    apply generated_name_clean. now destruct Hl as (_ & _ & _ & ?).
  - apply Forall_app; split; [assumption | constructor; [assumption | constructor]].
Qed.

Lemma manifest_inside (destDir name : string) :
  is_resolved destDir = true → clean_segment name →
  inside destDir (Path.join [destDir; name]) = true.
Proof.
  intros (lp & Hlp & ->)%is_resolved_form Hname.
  change name with (Str.join_slash [name]).
  rewrite join_under; [|assumption | constructor; [assumption | constructor] | discriminate].
  apply inside_abspath.
Qed.

Lemma writeFile_files (destDir filePath : string) (data : list byte)
  (s s' : writer_state) (k c : string) :
  writeFile P destDir filePath data s = (Ok tt, s') →
  disk s' !! k = Some (FsFile c) →
  (∃ paths, placement P destDir filePath = Some paths ∧ k = onDisk paths
            ∧ c = Str.join nl (outLines P data))
  ∨ disk s !! k = Some (FsFile c).
Proof.
  unfold writeFile, bind.
  destruct (placement P destDir filePath) as [paths|] eqn:Hpl.
  2: { destruct (placement_none P destDir filePath s Hpl) as (e & ->). discriminate. }
  destruct (placement_some P destDir filePath paths s Hpl) as [_ ->].
  destruct (files s !! onDisk paths) eqn:Hfree; [discriminate|].
  destruct (Deno_mkdir _ _) as [[[]|e] s1] eqn:Hmk; [|discriminate].
  intros Hwr Hk. apply Deno_writeTextFile_ok in Hwr as [_ Hd2].
  rewrite Hd2 in Hk. destruct (decide (k = onDisk paths)) as [->|Hne].
  - rewrite lookup_insert_eq in Hk. injection Hk as <-. left. eauto.
  - rewrite lookup_insert_ne in Hk by congruence. right.
    apply (Deno_mkdir_files _ _ _ _ _ Hmk) in Hk. exact Hk.
Qed.

(** What the loop over the inputs leaves on the disk and in the table. *)
Lemma convert_files_outcome (destDir : string) (entries : list (string * list byte))
  (s s' : writer_state) :
  convert_files P destDir entries s = (Ok tt, s') →
  (∀ k v, disk s !! k = Some v →
          (∀ rel data fp, In (rel, data) entries →
                          placement P destDir rel = Some fp → k ≠ onDisk fp) →
          disk s' !! k = Some v)
  ∧ (∀ k c, disk s' !! k = Some (FsFile c) →
            disk s !! k = Some (FsFile c)
            ∨ ∃ rel data fp, In (rel, data) entries
                             ∧ placement P destDir rel = Some fp
                             ∧ k = onDisk fp ∧ c = Str.join nl (outLines P data))
  ∧ (∀ rel data, In (rel, data) entries →
       ∃ fp, placement P destDir rel = Some fp
             ∧ disk s' !! onDisk fp = Some (FsFile (Str.join nl (outLines P data))))
  ∧ ∃ fps, map Some fps = map (λ e, placement P destDir e.1) entries
           ∧ map_to_list (files s')
             ≡ₚ map (λ fp, (onDisk fp, fp)) fps ++ map_to_list (files s).
Proof.
  revert s. induction entries as [|[p d] entries IH]; intros s H.
  - cbn in H. injection H as <-. repeat split.
    + auto.
    + auto.
    + intros rel data [].
    + exists []. split; reflexivity.
  - cbn [convert_files] in H. unfold bind in H.
    destruct (writeFile P destDir p d s) as [[[]|e] s1] eqn:Hw; [|discriminate].
    destruct (IH s1 H) as (Hkeep & Hfiles & Hmods & fps & Hfps & Htable).
    destruct (writeFile_ok P _ _ _ _ _ Hw) as (paths & Hpl & Hfree & Htab1 & Hmod1 & Hkeep1).
    repeat split.
    + intros k v Hk Hne. apply Hkeep.
      * apply Hkeep1; [|exact Hk]. apply (Hne p d paths); [now left | exact Hpl].
      * intros rel data fp Hin. apply (Hne rel data fp). now right.
    + intros k c Hk. destruct (Hfiles k c Hk) as [Hk1 | (rel & data & fp & Hin & ?)].
      * destruct (writeFile_files _ _ _ _ _ _ _ Hw Hk1) as [(paths' & Hpl' & -> & ->) | Hs].
        -- right. exists p, d, paths'. split; [now left | auto].
        -- now left.
      * right. exists rel, data, fp. split; [now right | assumption].
    + intros rel data [[= <- <-] | Hin].
      * exists paths. split; [exact Hpl|].
        assert (Hk1 : files s1 !! onDisk paths = Some paths)
          by (rewrite Htab1; apply lookup_insert_eq).
        apply (convert_files_keeps P _ _ _ _ _ _ _ H Hk1 Hmod1).
      * apply Hmods. exact Hin.
    + exists (paths :: fps). split.
      * cbn [map fst]. now rewrite Hpl, Hfps.
      * rewrite Htable, Htab1. rewrite map_to_list_insert by exact Hfree.
        cbn [map]. symmetry. apply Permutation_middle.
Qed.


Lemma writeDir_ok (destDir : string) (s s' : writer_state) :
  writeDir P destDir s = (Ok tt, s') →
  files s' = files s
  ∧ disk s'
    = <[Path.join [destDir; ".gitattributes"] := FsFile "* linguist-generated=true"]>
        (<[Path.join [destDir; "dir.ts"]
           := FsFile (dir_ts P (merge_sort (λ a b, String.le (relative a) (relative b))
                                  (map snd (map_to_list (files s)))))]> (disk s)).
Proof.
  unfold writeDir, bind, get_state.
  destruct (Deno_writeTextFile (Path.join [destDir; "dir.ts"]) _ s)
    as [[[]|e] s1] eqn:H1; [|discriminate].
  intros H2. apply Deno_writeTextFile_ok in H1 as [Hf1 Hd1].
  apply Deno_writeTextFile_ok in H2 as [Hf2 Hd2].
  split; [congruence|]. rewrite Hd2, Hd1. reflexivity.
Qed.

Lemma convert_steps (destDir : string) (entries : list (string * list byte))
  (s s' : writer_state) :
  convert P destDir entries s = (Ok tt, s') →
  ∃ s1 s2 s3,
    clean destDir s = (Ok tt, s1)
    ∧ Deno_mkdir destDir s1 = (Ok tt, s2)
    ∧ convert_files P destDir entries s2 = (Ok tt, s3)
    ∧ writeDir P destDir s3 = (Ok tt, s').
Proof.
  unfold convert, bind.
  destruct (clean destDir s) as [[[]|e1] s1] eqn:H1; [|discriminate].
  destruct (Deno_mkdir destDir s1) as [[[]|e2] s2] eqn:H2; [|discriminate].
  destruct (convert_files P destDir entries s2) as [[[]|e3] s3] eqn:H3; [|discriminate].
  intros H. exists s1, s2, s3. auto.
Qed.

Lemma embedDir_steps (dst : string) (entries : list (string * list byte))
  (s s' : writer_state) :
  embedDir P dst entries s = (Ok tt, s') →
  is_resolved (Path.resolve (cwd P) [cwd P; dst]) = true
  ∧ ∃ s0, clean (Path.resolve (cwd P) [cwd P; dst]) s = (Ok tt, s0)
          ∧ convert P (Path.resolve (cwd P) [cwd P; dst]) entries s0 = (Ok tt, s').
Proof.
  unfold embedDir, bind, lift.
  destruct (EmbedWriter_new _) as [d|e] eqn:Hnew; [|discriminate].
  pose proof (resolve_is_resolved _ _ _ Hnew) as Hres.
  unfold EmbedWriter_new in Hnew.
  destruct (negb _); [discriminate|]. injection Hnew as <-.
  destruct (clean _ s) as [[[]|e1] s0] eqn:H0; [|discriminate].
  intros H. split; [exact Hres|]. exists s0. auto.
Qed.

(** X16.  A run of [embedDir] that succeeds on a disk that is a tree at
    the destination: every node outside the destination is kept and no
    file is written outside it; every input has its module on the disk,
    holding the text [writeFile] printed for it; and the files left
    below the destination are these modules, [dir.ts] and
    [.gitattributes], nothing from an earlier run. *)
Theorem embedDir_outcome (dst : string) (entries : list (string * list byte))
  (s s' : writer_state) :
  let destDir := Path.resolve (cwd P) [cwd P; dst] in
  rooted destDir (disk s) →
  embedDir P dst entries s = (Ok tt, s') →
  (∀ k v, inside destDir k = false → disk s !! k = Some v → disk s' !! k = Some v)
  ∧ (∀ k c, inside destDir k = false → disk s' !! k = Some (FsFile c) →
            disk s !! k = Some (FsFile c))
  ∧ (∀ rel data, In (rel, data) entries →
       ∃ fp, placement P destDir rel = Some fp
             ∧ disk s' !! onDisk fp = Some (FsFile (Str.join nl (outLines P data))))
  ∧ (∀ k c, inside destDir k = true → disk s' !! k = Some (FsFile c) →
       k = Path.join [destDir; "dir.ts"] ∨ k = Path.join [destDir; ".gitattributes"]
       ∨ ∃ rel data fp, In (rel, data) entries ∧ placement P destDir rel = Some fp
                        ∧ k = onDisk fp ∧ c = Str.join nl (outLines P data)).
Proof.
  intros destDir Hroot (Hres & s0 & Hc0 & Hconv)%embedDir_steps.
  fold destDir in Hres, Hc0, Hconv.
  destruct (convert_steps _ _ _ _ Hconv) as (s1 & s2 & s3 & Hc1 & Hmk & Hloop & Hdir).
  destruct (clean_ok _ _ _ Hc0) as (_ & Hout0 & Hsub0 & Hin0).
  destruct (clean_ok _ _ _ Hc1) as (_ & Hout1 & Hsub1 & _).
  destruct (Deno_mkdir_ok _ _ _ Hmk) as [_ Hkeep2].
  destruct (convert_files_outcome _ _ _ _ Hloop) as (Hkeep3 & Hfiles3 & Hmods3 & _).
  destruct (writeDir_ok _ _ _ Hdir) as [_ Hd4].
  pose proof (manifest_inside destDir "dir.ts" Hres clean_dir_ts) as Hi1.
  pose proof (manifest_inside destDir ".gitattributes" Hres clean_gitattributes) as Hi2.
  assert (Hlast : ∀ k, k ≠ Path.join [destDir; "dir.ts"] →
                       k ≠ Path.join [destDir; ".gitattributes"] →
                       disk s' !! k = disk s3 !! k).
  { intros k H1 H2. rewrite Hd4, !lookup_insert_ne by congruence. reflexivity. }
  split; [|split; [|split]].
  - intros k v Hk Hv. rewrite Hlast by (intros ->; congruence).
    apply Hkeep3.
    + apply Hkeep2. rewrite Hout1, Hout0 by exact Hk. exact Hv.
    + intros rel data fp _ Hfp ->.
      rewrite (placement_inside _ _ _ Hres Hfp) in Hk. discriminate.
  - intros k c Hk Hv. rewrite Hlast in Hv by (intros ->; congruence).
    destruct (Hfiles3 k c Hv) as [Hv2 | (rel & data & fp & _ & Hfp & -> & _)].
    + apply (Deno_mkdir_files _ _ _ _ _ Hmk) in Hv2.
      rewrite Hout1, Hout0 in Hv2 by exact Hk. exact Hv2.
    + rewrite (placement_inside _ _ _ Hres Hfp) in Hk. discriminate.
  - intros rel data Hin. destruct (Hmods3 rel data Hin) as (fp & Hfp & Hv).
    exists fp. split; [exact Hfp|]. rewrite Hlast; [exact Hv|..].
    + apply (placement_not_named _ _ _ "d" "ir.ts" Hres Hfp clean_dir_ts). discriminate.
    + apply (placement_not_named _ _ _ "." "gitattributes" Hres Hfp clean_gitattributes).
      discriminate.
  - intros k c Hk Hv.
    destruct (decide (k = Path.join [destDir; "dir.ts"])) as [->|H1]; [now left|].
    destruct (decide (k = Path.join [destDir; ".gitattributes"])) as [->|H2];
      [now right; left|].
    right. right. rewrite Hlast in Hv by assumption.
    destruct (Hfiles3 k c Hv) as [Hv2 | Hgen]; [|exact Hgen].
    exfalso. apply (Deno_mkdir_files _ _ _ _ _ Hmk) in Hv2.
    apply Hsub1 in Hv2. exact (Hin0 Hroot k c Hk Hv2).
Qed.

End WholeRun.

(** * The manifest *)

Lemma map_Some_inj {A} (l1 l2 : list A) : map Some l1 = map Some l2 → l1 = l2.
Proof.
  revert l2. induction l1 as [|a l1 IH]; intros [|b l2] E; try discriminate E.
  - reflexivity.
  - cbn in E. injection E as -> E. now rewrite (IH l2 E).
Qed.

Lemma NoDup_map_eq {A B} (f : A → B) (l : list A) (x y : A) :
  NoDup (map f l) → In x l → In y l → f x = f y → x = y.
Proof.
  induction l as [|a l IH]; [intros _ []|].
  cbn [map]. intros Hnd Hx Hy E. apply NoDup_cons in Hnd as [Ha Hnd].
  destruct Hx as [->|Hx], Hy as [->|Hy].
  - reflexivity.
  - exfalso. apply Ha. rewrite E. apply list_elem_of_In, in_map, Hy.
  - exfalso. apply Ha. rewrite <- E. apply list_elem_of_In, in_map, Hx.
  - now apply IH.
Qed.

Lemma different_manifest_files (destDir : string) :
  is_resolved destDir = true →
  Path.join [destDir; "dir.ts"] ≠ Path.join [destDir; ".gitattributes"].
Proof.
  intros (lp & Hlp & ->)%is_resolved_form.
  change "dir.ts" with (Str.join_slash ["dir.ts"]).
  change ".gitattributes" with (Str.join_slash [".gitattributes"]).
  rewrite !join_under;
    [|assumption | constructor; [apply clean_gitattributes | constructor] | discriminate
     |assumption | constructor; [apply clean_dir_ts | constructor] | discriminate].
  intros E. apply abspath_inj in E.
  - apply app_inv_head in E. discriminate E.
  - apply Forall_app; split; [assumption | constructor; [apply clean_dir_ts | constructor]].
  - apply Forall_app; split;
      [assumption | constructor; [apply clean_gitattributes | constructor]].
Qed.

Section Manifest.

Context (P : Platform).

Lemma placement_original (destDir filePath : string) (fp : FilePaths) :
  placement P destDir filePath = Some fp → original fp = filePath.
Proof.
  unfold placement. destruct (parentChild _ _) as [[|]|]; try discriminate.
  now intros [= <-].
Qed.

(** The module's path is computed from the key of the manifest. *)
Lemma placement_relative (destDir f1 f2 : string) (fp1 fp2 : FilePaths) :
  placement P destDir f1 = Some fp1 → placement P destDir f2 = Some fp2 →
  relative fp1 = relative fp2 → onDisk fp1 = onDisk fp2 ∧ import fp1 = import fp2.
Proof.
  unfold placement.
  destruct (parentChild _ _) as [[|]|]; try discriminate.
  destruct (parentChild _ _) as [[|]|]; try discriminate.
  intros [= <-] [= <-]. unfold file_paths. cbn [relative onDisk import].
  intros ->. split; reflexivity.
Qed.

Lemma placements_listed (destDir : string) (entries : list (string * list byte))
  (fps : list FilePaths) :
  map Some fps = map (λ e, placement P destDir e.1) entries →
  map original fps = map fst entries
  ∧ Forall (λ fp, placement P destDir (original fp) = Some fp) fps.
Proof.
  revert entries. induction fps as [|fp fps IH]; intros [|[p d] entries] E;
    try discriminate E.
  - split; [reflexivity | constructor].
  - cbn in E. injection E as E1 E. symmetry in E1.
    destruct (IH entries E) as [Ho Hall].
    pose proof (placement_original _ _ _ E1) as Hfp.
    split.
    + cbn. now rewrite Ho, Hfp.
    + constructor; [now rewrite Hfp | exact Hall].
Qed.

Lemma sorted_by_relative (l : list FilePaths) :
  StronglySorted (λ a b, String.le (relative a) (relative b))
    (merge_sort (λ a b, String.le (relative a) (relative b)) l).
Proof.
  apply StronglySorted_merge_sort.
  - intros a b c Hab Hbc. now transitivity (relative b).
  - intros a b. apply (total String.le).
Qed.

(** The manifest that a successful [convert] writes. *)
Lemma convert_manifest (destDir : string) (entries : list (string * list byte))
  (s s' : writer_state) :
  is_resolved destDir = true →
  convert P destDir entries s = (Ok tt, s') →
  ∃ fps listed,
    map Some fps = map (λ e, placement P destDir e.1) entries
    ∧ NoDup (map onDisk fps)
    ∧ listed ≡ₚ fps
    ∧ StronglySorted (λ a b, String.le (relative a) (relative b)) listed
    ∧ disk s' !! Path.join [destDir; "dir.ts"] = Some (FsFile (dir_ts P listed)).
Proof.
  intros Hres (s1 & s2 & s3 & Hc1 & Hmk & Hloop & Hdir)%convert_steps.
  destruct (clean_ok _ _ _ Hc1) as (Hempty & _).
  destruct (Deno_mkdir_ok _ _ _ Hmk) as [Hf2 _].
  destruct (convert_files_outcome _ _ _ _ _ Hloop) as (_ & _ & _ & fps & Hfps & Htable).
  destruct (writeDir_ok _ _ _ _ Hdir) as [_ Hd4].
  rewrite Hf2, Hempty, map_to_list_empty, app_nil_r in Htable.
  pose proof (Permutation_map snd Htable) as Hsnd.
  rewrite map_map in Hsnd. cbn [snd] in Hsnd. rewrite map_id in Hsnd.
  exists fps, (merge_sort (λ a b, String.le (relative a) (relative b))
                 (map snd (map_to_list (files s3)))).
  split; [exact Hfps|]. split; [|split; [|split]].
  - pose proof (NoDup_fst_map_to_list (files s3)) as Hnd.
    pose proof (Permutation_map fst Htable) as Hfst.
    rewrite map_map in Hfst. cbn [fst] in Hfst.
    change (map (λ x, onDisk x) fps) with (map onDisk fps) in Hfst.
    rewrite <- Hfst. exact Hnd.
  - now rewrite merge_sort_Permutation, Hsnd.
  - apply sorted_by_relative.
  - rewrite Hd4, lookup_insert_ne by (symmetry; now apply different_manifest_files).
    apply lookup_insert_eq.
Qed.

Lemma listed_keys_unique (destDir : string) (fps : list FilePaths) :
  Forall (λ fp, placement P destDir (original fp) = Some fp) fps →
  NoDup (map onDisk fps) → NoDup (map relative fps).
Proof.
  induction fps as [|fp fps IH]; [constructor|].
  intros Hall Hnd. apply Forall_cons in Hall as [Hfp Hall].
  cbn [map] in *. apply NoDup_cons in Hnd as [Hnew Hnd].
  apply NoDup_cons. split; [|now apply IH].
  intros Hin. apply Hnew.
  apply list_elem_of_In, in_map_iff in Hin as (fp' & Hrel & Hin').
  apply list_elem_of_In, in_map_iff. exists fp'. split; [|exact Hin'].
  rewrite Forall_forall in Hall.
  apply list_elem_of_In in Hin'.
  now destruct (placement_relative _ _ _ _ _ (Hall fp' Hin') Hfp Hrel).
Qed.

(** X17.  The manifest that a successful [convert] writes on a resolved
    destination lists the inputs, each once: the listed files are the
    placements of the inputs, and no key occurs twice. *)
Theorem manifest_entries (destDir : string) (entries : list (string * list byte))
  (s s' : writer_state) :
  is_resolved destDir = true →
  convert P destDir entries s = (Ok tt, s') →
  ∃ listed,
    disk s' !! Path.join [destDir; "dir.ts"] = Some (FsFile (dir_ts P listed))
    ∧ map original listed ≡ₚ map fst entries
    ∧ Forall (λ fp, placement P destDir (original fp) = Some fp) listed
    ∧ NoDup (map relative listed).
Proof.
  intros Hres Hconv.
  destruct (convert_manifest _ _ _ _ Hres Hconv)
    as (fps & listed & Hfps & Hnd & Hperm & _ & Hdisk).
  destruct (placements_listed _ _ _ Hfps) as [Ho Hall].
  exists listed. split; [exact Hdisk|].
  assert (Hall' : Forall (λ fp, placement P destDir (original fp) = Some fp) listed)
    by now rewrite Hperm.
  split; [|split].
  - rewrite <- Ho. now apply Permutation_map.
  - exact Hall'.
  - apply (listed_keys_unique destDir); [exact Hall'|].
    rewrite (Permutation_map onDisk Hperm). exact Hnd.
Qed.

(** X18.  The manifest does not depend on the order in which the walk
    yields the inputs: two successful runs of [convert] over the same
    inputs in different orders write the same [dir.ts]. *)
Theorem manifest_order_independent (destDir : string)
  (entries1 entries2 : list (string * list byte)) (s1 s2 s1' s2' : writer_state) :
  is_resolved destDir = true →
  entries1 ≡ₚ entries2 →
  convert P destDir entries1 s1 = (Ok tt, s1') →
  convert P destDir entries2 s2 = (Ok tt, s2') →
  disk s1' !! Path.join [destDir; "dir.ts"]
  = disk s2' !! Path.join [destDir; "dir.ts"].
Proof.
  intros Hres Hperm H1 H2.
  destruct (convert_manifest _ _ _ _ Hres H1)
    as (fps1 & l1 & Hfps1 & Hnd1 & Hp1 & Hs1 & ->).
  destruct (convert_manifest _ _ _ _ Hres H2)
    as (fps2 & l2 & Hfps2 & Hnd2 & Hp2 & Hs2 & ->).
  assert (Hfps : fps1 ≡ₚ fps2).
  { assert (E : map Some fps1 ≡ₚ map Some fps2)
      by (rewrite Hfps1, Hfps2; now apply Permutation_map).
    apply Permutation_map_inv in E as (l3 & E & Hl3).
    apply map_Some_inj in E. subst l3. now symmetry. }
  assert (Hl : l1 ≡ₚ l2) by (now rewrite Hp1, Hp2).
  destruct (placements_listed _ _ _ Hfps1) as [_ Hall1].
  assert (Hkeys : NoDup (map relative l1)).
  { apply (listed_keys_unique destDir); [now rewrite Hp1|].
    rewrite (Permutation_map onDisk Hp1). exact Hnd1. }
  do 3 f_equal.
  apply (StronglySorted_unique_strong
           (λ a b, String.le (relative a) (relative b)) l1 l2); [|assumption..].
  intros x1 x2 Hx1 Hx2 H12 H21.
  apply (NoDup_map_eq relative l1); [exact Hkeys | now apply list_elem_of_In | |].
  - apply list_elem_of_In. now rewrite Hl.
  - now apply (anti_symm String.le).
Qed.

End Manifest.

(** * The responder of [FileServer] *)

Lemma Headers_fill_ok (h : Headers) (record : JsRecord) :
  Forall (λ kv, is_header_name kv.1 = true ∧ header_text_ok kv.2 = true) record →
  Headers_fill h record
  = Ok (h ++ map (λ kv, (byteLowerCase kv.1, normalize_header_value kv.2)) record).
Proof.
  intros H. revert h. induction H as [|[name value] record [Hn Hv] _ IH]; intros h.
  - cbn. now rewrite app_nil_r.
  - cbn [Headers_fill map fst snd]. cbn [fst snd] in Hn, Hv.
    unfold header_text_ok in Hv. rewrite Hn, Hv. cbn [negb orb].
    rewrite IH, <- app_assoc. reflexivity.
Qed.

Lemma no_header_named (name : string) (record : JsRecord) :
  (∀ kv, In kv record → byteLowerCase kv.1 ≠ name) →
  filter (λ kv : string * string, kv.1 = name)
    (map (λ kv, (byteLowerCase kv.1, normalize_header_value kv.2)) record) = [].
Proof.
  induction record as [|kv record IH]; [reflexivity|]. intros H.
  cbn [map]. rewrite filter_cons_False.
  - apply IH. intros kv' Hin. apply H. now right.
  - cbn [fst]. apply H. now left.
Qed.

(** The value of [content-type] among the headers of a record in which
    only the property "Content-Type" has this name. *)
Lemma content_type_of_record (type : string) (extra : JsRecord) :
  (∀ kv, In kv extra → byteLowerCase kv.1 = "content-type" → kv.1 = "Content-Type") →
  Headers_get
    (map (λ kv, (byteLowerCase kv.1, normalize_header_value kv.2))
       (content_type_record type extra)) "content-type"
  = Some (normalize_header_value (default type (record_get extra "Content-Type"))).
Proof.
  intros H. unfold Headers_get, content_type_record.
  rewrite !map_app, !filter_app.
  rewrite (no_header_named _ (filter (λ kv, is_array_index kv.1 = true) extra)).
  rewrite (no_header_named _
             (filter (λ kv, is_array_index kv.1 = false ∧ kv.1 ≠ "Content-Type") extra)).
  - cbn [map app fst snd]. rewrite filter_cons_True by reflexivity.
    rewrite filter_nil. reflexivity.
  - intros kv [[Hi Hne] Hin%list_elem_of_In]%list_elem_of_In%list_elem_of_filter E.
    apply Hne. now apply H.
  - intros kv [Hi Hin%list_elem_of_In]%list_elem_of_In%list_elem_of_filter E.
    rewrite (H kv Hin E) in Hi. discriminate Hi.
Qed.

Lemma record_get_none (extra : JsRecord) (key : string) :
  (∀ kv, In kv extra → kv.1 ≠ key) → record_get extra key = None.
Proof.
  induction extra as [|[k v] extra IH]; [reflexivity|]. intros H.
  cbn [record_get]. destruct (String.eqb k key) eqn:E.
  - apply String.eqb_eq in E. exfalso. apply (H (k, v)); [now left | exact E].
  - apply IH. intros kv Hin. apply H. now right.
Qed.

Section LegacyResponder.

Context (P : Platform).

(** X19.  [FileServer.serveDir] for a registered, readable file whose
    headers are legal: the answer is 200 with the file's content; the
    content type is the guessed one unless the options name one; a
    property "Content-Type" of the options replaces the guess; and every
    other header of the options is among the headers of the answer. *)
Theorem FileServer_serveDir_found (dir : EmbedsDef) (req : Request)
  (extra : option JsRecord) (meta : FileMeta) (bytes : list byte)
  (log : list event) :
  let path :=
    if Str.endsWith_char "/" (pathname (url req))
    then pathname (url req) +:+ "index.html" else pathname (url req) in
  dir !! Str.drop 1 path = Some meta →
  meta_content P meta = Some bytes →
  Forall (λ kv, is_header_name kv.1 = true ∧ header_text_ok kv.2 = true)
    (content_type_record (guessed_type P path) (default [] extra)) →
  ∃ resp log',
    FileServer_serveDir P dir req extra log = (Ok resp, log')
    ∧ status resp = 200
    ∧ body resp = BodyBytes bytes
    ∧ ((∀ kv, In kv (default [] extra) → byteLowerCase kv.1 ≠ "content-type") →
       Headers_get (headers resp) "content-type"
       = Some (normalize_header_value (guessed_type P path)))
    ∧ (∀ v, record_get (default [] extra) "Content-Type" = Some v →
            (∀ kv, In kv (default [] extra) →
                   byteLowerCase kv.1 = "content-type" → kv.1 = "Content-Type") →
            Headers_get (headers resp) "content-type"
            = Some (normalize_header_value v))
    ∧ (∀ name value, In (name, value) (default [] extra) → name ≠ "Content-Type" →
                     In (byteLowerCase name, normalize_header_value value)
                       (headers resp)).
Proof.
  intros path Hkey Hcontent Hlegal.
  destruct (Embeds_get_content P dir _ meta bytes log Hkey Hcontent)
    as (file & log1 & file1 & log2 & Hget & Hbytes).
  unfold FileServer_serveDir. fold path. unfold bind at 1. rewrite Hget.
  unfold bind at 1. rewrite Hbytes.
  unfold bind, lift, ret. rewrite (Headers_fill_ok [] _ Hlegal). cbn [app].
  eexists _, _. split; [reflexivity|].
  unfold Response_new. cbn [status body headers].
  split; [reflexivity|]. split; [reflexivity|]. split; [|split].
  - intros Hnone. rewrite content_type_of_record.
    + rewrite record_get_none; [reflexivity|].
      intros kv Hin E. apply (Hnone kv Hin). now rewrite E.
    + intros kv Hin E. destruct (Hnone kv Hin E).
  - intros v Hv Honly. rewrite content_type_of_record by exact Honly.
    now rewrite Hv.
  - intros name value Hin Hne.
    apply (in_map (λ kv, (byteLowerCase kv.1, normalize_header_value kv.2))
             _ (name, value)).
    unfold content_type_record.
    destruct (is_array_index name) eqn:Hi.
    + apply in_or_app. left. apply list_elem_of_In, list_elem_of_filter.
      split; [exact Hi | now apply list_elem_of_In].
    + apply in_or_app. right. apply in_or_app. right.
      apply list_elem_of_In, list_elem_of_filter.
      split; [split; [exact Hi | exact Hne] | now apply list_elem_of_In].
Qed.

(** X20.  A request for a path that names nothing, neither a registered
    file nor a property objects inherit, is answered 404 "Not found" as
    plain text by [FileServer.serveDir] and by [Embeds.serve] of
    [embeds.ts]; nothing is decoded, and the headers of the options are
    not added. *)
Theorem unknown_path_not_found (dir : EmbedsDef) (req : Request)
  (extra : option JsRecord) (log : list event) :
  let path :=
    if Str.endsWith_char "/" (pathname (url req))
    then pathname (url req) +:+ "index.html" else pathname (url req) in
  dir !! Str.drop 1 path = None →
  Str.drop 1 path ∉ Object_prototype_names →
  FileServer_serveDir P dir req extra log
  = (Ok {| status := 404; statusText := "";
           headers := [("content-type", "text/plain;charset=UTF-8")];
           body := BodyText "Not found" |}, log)
  ∧ Embeds_serve_static P dir req log = FileServer_serveDir P dir req extra log.
Proof.
  intros path Hnone Hproto.
  unfold FileServer_serveDir, Embeds_serve_static. fold path.
  unfold bind, Embeds_get. rewrite (embeds_property_unknown _ _ Hnone Hproto).
  split; reflexivity.
Qed.

End LegacyResponder.

(** * The further theorems at concrete inputs *)

Lemma recursiveReadDir_yields_witness :
  yielded (recursiveReadDir sample_listing)
  = ["index.html"; "img/a b.png"; "img/icons/x.svg"]
  ∧ warned (recursiveReadDir sample_listing) = ["Symlinks are unsupported: latest"].
Proof.
  assert (Hclean : listing_clean sample_listing).
  { unfold listing_clean, sample_listing.
    repeat (constructor; cbn); unfold clean_segment;
      repeat split; try discriminate; try reflexivity; constructor. }
  destruct (recursiveReadDir_yields sample_listing Hclean) as (Hy & Hw & _).
  split; [rewrite Hy | rewrite Hw]; reflexivity.
Defined.

Lemma embedDir_destination_witness :
  ∃ destDir,
    EmbedWriter_new (Path.resolve "/work" ["/work"; "../site/./out"]) = Ok destDir
    ∧ destDir = Path.resolve "/work" ["/work"; "../site/./out"]
    ∧ Path.isAbsolute destDir = true
    ∧ is_resolved destDir = true.
Proof. apply (embedDir_destination Demo.platform "../site/./out"). reflexivity. Defined.

Lemma clean_path_placement_witness :
  ∃ paths front last,
    (∀ s, files s !! onDisk paths = None →
          addFile Demo.platform "/work/out" "a b/c.d.ts" s
          = (Ok paths, set_files (<[onDisk paths := paths]> (files s)) s))
    ∧ original paths = "a b/c.d.ts"
    ∧ relative paths = "a b/c.d.ts"
    ∧ "a_b/c.d_ts" = Str.join_slash (front ++ [last])
    ∧ Str.no_slash last = true
    ∧ import paths = "./" +:+ Str.join_slash (front ++ ["_" +:+ last +:+ ".ts"])
    ∧ Path.join ["/work/out"; import paths] = onDisk paths
    ∧ no_space (import paths) = true.
Proof.
  apply (clean_path_placement Demo.platform "/work/out" ["a b"; "c.d.ts"]).
  - vm_compute. reflexivity.
  - discriminate.
  - repeat constructor; discriminate.
Defined.


Lemma registered_key_witness :
  Embeds_stat Demo.platform {[ "bad" := corrupt_meta ]} "bad" []
  = (Ok (Some corrupt_meta), [])
  ∧ Embeds_load Demo.platform {[ "bad" := corrupt_meta ]} "bad" []
    = (Throw InvalidCharacterError, [EvDecodeBase64])
  ∧ Embeds_get Demo.platform {[ "bad" := corrupt_meta ]} "bad" []
    = (Throw InvalidCharacterError, [EvDecodeBase64]).
Proof.
  destruct (registered_key Demo.platform {[ "bad" := corrupt_meta ]} "bad"
              corrupt_meta []) as (Hstat & Hload & Hget).
  - reflexivity.
  - split; [exact Hstat|]. split; [exact Hload|]. rewrite Hget, Hload. reflexivity.
Defined.

Lemma served_key_witness :
  createServeDirResponse Demo.platform Sample.registry (Demo.request "/a/" [])
    Demo.no_options []
  = (let* fileMeta := Embeds_stat Demo.platform Sample.registry "a/index.html" in
     serveFile Demo.platform Sample.registry (Demo.request "/a/" [])
       "a/index.html" fileMeta) [].
Proof.
  destruct (served_key Demo.platform Sample.registry (Demo.request "/a/" [])
              Demo.no_options [] ["a"]) as [_ Hdir].
  - repeat constructor; discriminate.
  - reflexivity.
  - reflexivity.
  - apply Hdir. reflexivity.
Defined.

Lemma serveFile_headers_witness :
  ∃ resp,
    fst (serveFile Demo.platform Sample.registry (Demo.request "/hello.txt" [])
           "hello.txt" None []) = Ok resp
    ∧ status resp = 200
    ∧ Headers_get (headers resp) "content-length" = Some "5"
    ∧ Headers_get (headers resp) "content-type" = Some "text/plain; charset=UTF-8"
    ∧ Headers_get (headers resp) "etag" = Some "abc".
Proof.
  destruct (serveFile Demo.platform Sample.registry (Demo.request "/hello.txt" [])
              "hello.txt" None []) as [[resp|e] log'] eqn:Hrun.
  - assert (Hstatus : status resp = 200)
      by (vm_compute in Hrun; injection Hrun as <- _; reflexivity).
    destruct (serveFile_headers Demo.platform Sample.registry
                (Demo.request "/hello.txt" []) "hello.txt" None Sample.dated_meta
                [] resp log') as (H200 & _ & Hval).
    + right. split; reflexivity.
    + exact Hrun.
    + destruct (H200 Hstatus) as [Hlen Htype].
      destruct (Hval (or_introl Hstatus)) as (Htag & _).
      exists resp. split; [reflexivity|]. split; [exact Hstatus|].
      split; [exact Hlen|]. split; [exact Htype | exact Htag].
  - vm_compute in Hrun. discriminate Hrun.
Defined.

Lemma serveDir_always_answers_witness :
  ∃ resp log',
    serveDir Demo.platform Sample.registry (Demo.request "/%zz" []) framed_options []
    = (Ok resp, log')
    ∧ status resp ∈ [200; 301; 304; 400; 404; 500].
Proof.
  apply (serveDir_always_answers Demo.platform Sample.registry
           (Demo.request "/%zz" []) framed_options []).
  intros extra [= <-]. repeat constructor.
Defined.

Lemma serveDir_errors_witness :
  (∃ resp,
     serveDir Demo.platform Sample.registry (Demo.request "/%zz" []) framed_options []
     = (Ok resp, [])
     ∧ status resp = 400
     ∧ statusText resp = "Bad Request"
     ∧ body resp = BodyText "Bad Request")
  ∧ ∃ resp log',
      serveDir Demo.platform {[ "bad" := corrupt_meta ]} (Demo.request "/bad" [])
        framed_options [] = (Ok resp, log')
      ∧ status resp = 500
      ∧ statusText resp = "Internal Server Error"
      ∧ body resp = BodyText "Internal Server Error".
Proof.
  split.
  - destruct (serveDir_errors Demo.platform Sample.registry (Demo.request "/%zz" [])
                framed_options []) as [H400 _].
    + intros extra [= <-]. repeat constructor.
    + apply H400. reflexivity.
  - destruct (serveDir_errors Demo.platform {[ "bad" := corrupt_meta ]}
                (Demo.request "/bad" []) framed_options []) as [_ H500].
    + intros extra [= <-]. repeat constructor.
    + apply (H500 ["bad"] corrupt_meta); try reflexivity.
      * repeat constructor; discriminate.
      * discriminate.
Defined.

Lemma serveDir_cors_witness :
  ∃ resp,
    fst (serveDir Demo.platform Sample.registry (Demo.request "/nothing" [])
           cors_options []) = Ok resp
    ∧ status resp = 404
    ∧ Headers_get (headers resp) "access-control-allow-origin" = Some "*"
    ∧ Headers_get (headers resp) "access-control-allow-headers"
      = Some "Origin, X-Requested-With, Content-Type, Accept, Range".
Proof.
  destruct (serveDir Demo.platform Sample.registry (Demo.request "/nothing" [])
              cors_options []) as [[resp|e] log'] eqn:Hrun.
  - assert (Hstatus : status resp = 404)
      by (vm_compute in Hrun; injection Hrun as <- _; reflexivity).
    destruct (serveDir_cors Demo.platform Sample.registry (Demo.request "/nothing" [])
                cors_options [] resp log') as [Hplain _];
      [reflexivity | reflexivity | exact Hrun |].
    destruct Hplain as [Ho Hh]; [now rewrite Hstatus|].
    exists resp. split; [reflexivity|]. split; [exact Hstatus|].
    split; [exact Ho | exact Hh].
  - vm_compute in Hrun. discriminate Hrun.
Defined.

Lemma embedded_file_served_witness :
  ∃ h log',
    createServeDirResponse Demo.platform Sample.fresh_registry
      (Demo.request "/a/b" [("if-modified-since", "Thu, 01 Jan 1970 00:00:09 GMT")])
      Demo.no_options []
    = (Ok {| status := 200; statusText := "OK";
             headers := h; body := BodyBytes Sample.data |}, log')
    ∧ Headers_get h "content-length" = Some "600"
    ∧ Headers_get h "etag" = None
    ∧ Headers_get h "last-modified" = None.
Proof.
  apply (embedded_file_served Demo.platform Sample.fresh_registry
           (Demo.request "/a/b" [("if-modified-since", "Thu, 01 Jan 1970 00:00:09 GMT")])
           Demo.no_options [] ["a"; "b"] Sample.data Sample.fresh_meta).
  - repeat constructor; discriminate.
  - discriminate.
  - reflexivity.
  - reflexivity.
  - reflexivity.
  - vm_compute. reflexivity.
  - reflexivity.
  - intros _. vm_compute. reflexivity.
  - reflexivity.
Defined.

Lemma embedDir_outcome_witness :
  let s' := snd (embedDir Demo.platform "out" sample_entries stale_disk) in
  disk s' !! "/work/keep.txt" = Some (FsFile "kept")
  ∧ disk s' !! "/work/out/_old.ts" = None
  ∧ (∃ fp, placement Demo.platform "/work/out" "a b/c.d.ts" = Some fp
           ∧ disk s' !! onDisk fp
             = Some (FsFile (Str.join nl (outLines Demo.platform ["i"%byte])))).
Proof.
  intros s'.
  destruct (embedDir_outcome Demo.platform "out" sample_entries stale_disk s')
    as (Hkeep & _ & Hmods & Honly).
  - intros H. vm_compute in H. discriminate H.
  - vm_compute. reflexivity.
  - split; [|split].
    + apply Hkeep; vm_compute; reflexivity.
    + destruct (disk s' !! "/work/out/_old.ts") as [[c|]|] eqn:E.
      * exfalso.
        destruct (Honly "/work/out/_old.ts" c) as [H|[H|(rel & data & fp & Hin & _ & H & _)]].
        -- vm_compute. reflexivity.
        -- exact E.
        -- vm_compute in H. discriminate H.
        -- vm_compute in H. discriminate H.
        -- vm_compute in E. discriminate E.
      * vm_compute in E. discriminate E.
      * reflexivity.
    + apply (Hmods "a b/c.d.ts" ["i"%byte]). right. left. reflexivity.
Defined.

Lemma manifest_entries_witness :
  ∃ listed,
    disk (snd (convert Demo.platform "/work/out" sample_entries stale_disk))
      !! Path.join ["/work/out"; "dir.ts"]
    = Some (FsFile (dir_ts Demo.platform listed))
    ∧ map original listed ≡ₚ ["b.txt"; "a b/c.d.ts"]
    ∧ Forall (λ fp, placement Demo.platform "/work/out" (original fp) = Some fp) listed
    ∧ NoDup (map relative listed).
Proof.
  apply (manifest_entries Demo.platform "/work/out" sample_entries stale_disk).
  - vm_compute. reflexivity.
  - vm_compute. reflexivity.
Defined.

Lemma manifest_order_independent_witness :
  disk (snd (convert Demo.platform "/work/out" sample_entries stale_disk))
    !! Path.join ["/work/out"; "dir.ts"]
  = disk (snd (convert Demo.platform "/work/out" (rev sample_entries) Sample.out_disk))
      !! Path.join ["/work/out"; "dir.ts"].
Proof.
  apply (manifest_order_independent Demo.platform "/work/out"
           sample_entries (rev sample_entries) stale_disk Sample.out_disk).
  - vm_compute. reflexivity.
  - apply Permutation_rev.
  - vm_compute. reflexivity.
  - vm_compute. reflexivity.
Defined.

Lemma FileServer_serveDir_found_witness :
  ∃ resp log',
    FileServer_serveDir Demo.platform Sample.registry (Demo.request "/hello.txt" [])
      (Some [("Cache-Control", " no-cache ")]) [] = (Ok resp, log')
    ∧ status resp = 200
    ∧ body resp = BodyBytes Sample.hello
    ∧ Headers_get (headers resp) "content-type" = Some "text/plain; charset=UTF-8"
    ∧ In ("cache-control", "no-cache") (headers resp).
Proof.
  destruct (FileServer_serveDir_found Demo.platform Sample.registry
              (Demo.request "/hello.txt" []) (Some [("Cache-Control", " no-cache ")])
              Sample.dated_meta Sample.hello [])
    as (resp & log' & Hrun & Hstatus & Hbody & Htype & _ & Hextra).
  - reflexivity.
  - vm_compute. reflexivity.
  - repeat constructor.
  - exists resp, log'. split; [exact Hrun|]. split; [exact Hstatus|].
    split; [exact Hbody|]. split.
    + apply Htype. intros kv [<-|[]]. discriminate.
    + apply (Hextra "Cache-Control" " no-cache "); [now left | discriminate].
Defined.

Lemma unknown_path_not_found_witness :
  FileServer_serveDir Demo.platform Sample.registry (Demo.request "/a%20b/" [])
    (Some [("Cache-Control", "no-cache")]) []
  = (Ok {| status := 404; statusText := "";
           headers := [("content-type", "text/plain;charset=UTF-8")];
           body := BodyText "Not found" |}, [])
  ∧ Embeds_serve_static Demo.platform Sample.registry (Demo.request "/a%20b/" []) []
    = FileServer_serveDir Demo.platform Sample.registry (Demo.request "/a%20b/" [])
        (Some [("Cache-Control", "no-cache")]) [].
Proof.
  apply (unknown_path_not_found Demo.platform Sample.registry
           (Demo.request "/a%20b/" []) (Some [("Cache-Control", "no-cache")]) []).
  - reflexivity.
  - apply (bool_decide_unpack (_ ∉ _)). vm_compute. exact I.
Defined.

Lemma clean_effect_witness :
  fst (clean "/work/out" blocked_disk) = Throw Deno_NotADirectory
  ∧ files (snd (clean "/work/out" blocked_disk)) = ∅
  ∧ disk (snd (clean "/work/out" blocked_disk)) = disk blocked_disk.
Proof.
  destruct (clean_effect "/work/out" blocked_disk)
    as (r & s' & Hrun & Hfiles & _ & Hcase).
  - vm_compute. reflexivity.
  - change (disk blocked_disk !! "/work/out") with (@None fs_node) in Hcase.
    destruct Hcase as (Hdisk & Hblocked & _).
    rewrite Hrun. cbn [fst snd]. split; [|split; assumption].
    apply Hblocked. exists ["work"], ["out"], "not a directory".
    split; [repeat constructor; discriminate|].
    split; [discriminate|]. split; [reflexivity|]. split; [reflexivity|].
    intros l3 l4 E H3 H4. destruct l3 as [|a [|b l3]]; [contradiction|..].
    + injection E as _ E. subst l4. contradiction.
    + discriminate E.
Defined.
